(** * Boulder portal downloader: authentication engine, download
      orchestrator and name sanitizers

    A shallow embedding of [boulder_downloader_clean.py].  The pure helpers
    ([sanitize_filename], [create_query_slug], the file-name format) are
    plain functions on Python strings.  The browser-driving coroutines are
    programs in a small state-and-exception monad over an arbitrary browser
    [W]: every awaited Playwright or asyncio call is one [action], answered
    by the browser, and recorded in a trace of events. *)

From Stdlib Require Import Ascii String.
From Stdlib Require Import List Bool Arith Lia NArith ZArith.
Import ListNotations.

Set Implicit Arguments.

(** ** Python strings *)

(** A Python [str] is a sequence of Unicode code points. *)
Definition char := N.
Bind Scope N_scope with char.
Definition pystr := list char.

Definition py (s : string) : pystr :=
  map N_of_ascii (list_ascii_of_string s).

Definition in_range (lo hi c : char) : bool := ((lo <=? c) && (c <=? hi))%N.

Module Chr.
Definition lf : char := 10%N.
Definition dquote : char := 34%N.
Definition squote : char := 39%N.
Definition star : char := 42%N.
Definition hyphen : char := 45%N.
Definition slash : char := 47%N.
Definition zero : char := 48%N.
Definition colon : char := 58%N.
Definition lt : char := 60%N.
Definition gt : char := 62%N.
Definition question : char := 63%N.
Definition backslash : char := 92%N.
Definition underscore : char := 95%N.
Definition pipe : char := 124%N.
End Chr.

(** [\d] restricted to what [{index:02d}] can print, and [[0-9]]. *)
Definition is_digit (c : char) : bool := in_range 48 57 c.
(** [[a-zA-Z]] *)
Definition is_alpha (c : char) : bool := in_range 97 122 c || in_range 65 90 c.

(** [\s] of a [str] pattern, which is also what [str.strip()] removes:
    the code points for which CPython's [Py_UNICODE_ISSPACE] holds. *)
Definition is_space (c : char) : bool :=
  in_range 9 13 c || in_range 28 32 c
  || (c =? 133)%N || (c =? 160)%N || (c =? 5760)%N
  || in_range 8192 8202 c || (c =? 8232)%N || (c =? 8233)%N
  || (c =? 8239)%N || (c =? 8287)%N || (c =? 12288)%N.

(** The character class of [sanitize_filename]: less-than, greater-than,
    colon, double quote, slash, backslash, pipe, question mark, star. *)
Definition is_illegal (c : char) : bool :=
  (c =? Chr.lt)%N || (c =? Chr.gt)%N || (c =? Chr.colon)%N
  || (c =? Chr.dquote)%N || (c =? Chr.slash)%N || (c =? Chr.backslash)%N
  || (c =? Chr.pipe)%N || (c =? Chr.question)%N || (c =? Chr.star)%N.

(** The class [[a-zA-Z0-9\s-]] whose complement [create_query_slug] deletes. *)
Definition slug_keep (c : char) : bool :=
  is_alpha c || is_digit c || is_space c || (c =? Chr.hyphen)%N.

(** [[A-Za-z0-9_]], the slug class of the specification's pattern. *)
Definition is_word (c : char) : bool :=
  is_alpha c || is_digit c || (c =? Chr.underscore)%N.

(** What a slug is really made of: [[A-Za-z0-9_-]]. *)
Definition is_slug_char (c : char) : bool :=
  is_word c || (c =? Chr.hyphen)%N.

Fixpoint lstrip (p : char -> bool) (s : pystr) : pystr :=
  match s with
  | c :: s' => if p c then lstrip p s' else s
  | [] => []
  end.

Definition rstrip (p : char -> bool) (s : pystr) : pystr :=
  rev (lstrip p (rev s)).

(** [s.strip()] and [s.strip(chars)] *)
Definition strip (p : char -> bool) (s : pystr) : pystr :=
  rstrip p (lstrip p s).

(** [re.sub(r'\s+', '_', s)]: every maximal run of white space becomes one
    underscore.  [in_run] tells that the previous character was white space
    (its run has already produced its underscore). *)
Fixpoint collapse_from (in_run : bool) (s : pystr) : pystr :=
  match s with
  | [] => []
  | c :: s' =>
      if is_space c
      then (if in_run then collapse_from true s'
            else Chr.underscore :: collapse_from true s')
      else c :: collapse_from false s'
  end.

Definition collapse_spaces (s : pystr) : pystr := collapse_from false s.

(** ** The sanitizers (lines 56-67) *)

(** [sanitize_filename]: replace the illegal characters by an underscore,
    then cut to 200 characters. *)
Definition sanitize_filename (filename : pystr) : pystr :=
  let filename :=
    map (fun c => if is_illegal c then Chr.underscore else c) filename in
  if 200 <? length filename then firstn 200 filename else filename.

(** [create_query_slug]: delete what is not a letter, digit, white space or
    hyphen; strip; turn white-space runs into underscores; keep 50. *)
Definition create_query_slug (query : pystr) : pystr :=
  let slug := filter slug_keep query in
  let slug := collapse_spaces (strip is_space slug) in
  firstn 50 slug.

(** ** The stored file name (lines 393-395) *)

Definition digit_char (d : nat) : char := (Chr.zero + N.of_nat d)%N.

(** Decimal digits of [n], most significant first; [fuel] bounds the number
    of digits. *)
Fixpoint decimal (fuel n : nat) (acc : pystr) : pystr :=
  match fuel with
  | O => acc
  | S fuel' =>
      let acc' := digit_char (n mod 10) :: acc in
      if n <? 10 then acc' else decimal fuel' (n / 10) acc'
  end.

Definition str_of_nat (n : nat) : pystr := decimal (S n) n [].

(** The format [{index:02d}]: decimal, padded with zeros to width two. *)
Definition format_02d (index : nat) : pystr :=
  let s := str_of_nat index in
  repeat Chr.zero (2 - length s) ++ s.

(** [download.suggested_filename or] the default [document_{index}.pdf]: a
    missing or empty suggestion is falsy. *)
Definition suggested_or_default (suggested : option pystr) (index : nat)
  : pystr :=
  match suggested with
  | Some (c :: s) => c :: s
  | _ => py "document_" ++ str_of_nat index ++ py ".pdf"
  end.

(** The f-string [{index:02d}_{query_slug}__{safe_filename}] *)
Definition format_filename (index : nat) (query_slug safe_filename : pystr)
  : pystr :=
  format_02d index ++ py "_" ++ query_slug ++ py "__" ++ safe_filename.

Definition final_filename (index : nat) (query_slug : pystr)
    (suggested : option pystr) : pystr :=
  let suggested_filename := suggested_or_default suggested index in
  let safe_filename := sanitize_filename suggested_filename in
  format_filename index query_slug safe_filename.

(** *** The pattern of the specification

    [^\d{2,}_CLASS{0,50}__.+] as [re.match] decides it, for a slug class
    [cls]: two or more digits, an underscore, at most fifty characters of
    the class, two underscores and one character that is not a line feed. *)
Fixpoint match_slug_tail (cls : char -> bool) (fuel : nat) (s : pystr) : bool :=
  match s with
  | a :: b :: c :: _ =>
      if (a =? Chr.underscore)%N && (b =? Chr.underscore)%N
         && negb (c =? Chr.lf)%N
      then true
      else match fuel, s with
           | S fuel', x :: s' => cls x && match_slug_tail cls fuel' s'
           | _, _ => false
           end
  | _ => false
  end.

Fixpoint span_digits (s : pystr) : nat * pystr :=
  match s with
  | c :: s' =>
      if is_digit c then let (n, r) := span_digits s' in (S n, r) else (0, s)
  | [] => (0, [])
  end.

Definition matches_pattern (cls : char -> bool) (name : pystr) : bool :=
  let (n, rest) := span_digits name in
  (2 <=? n) &&
  match rest with
  | c :: rest' => (c =? Chr.underscore)%N && match_slug_tail cls 50 rest'
  | [] => false
  end.

(** [needle in haystack] *)
Fixpoint starts_with (needle s : pystr) : bool :=
  match needle, s with
  | [], _ => true
  | a :: needle', b :: s' => (a =? b)%N && starts_with needle' s'
  | _ :: _, [] => false
  end.

Fixpoint contains (needle s : pystr) : bool :=
  starts_with needle s ||
  match s with
  | [] => false
  | _ :: s' => contains needle s'
  end.

(** ** The browser

    Handles of pages, frames and table rows are numbers.  A [Page] carries
    its own handle and that of its main frame, which Playwright keeps for
    the life of the page. *)
Record Page := { page_id : nat; main_frame : nat }.

(** An execution context that can be searched and acted on: a page (the
    primary page or a popup; Playwright resolves a page locator in the
    page's primary document) or a frame. *)
Inductive target :=
| OnPage (p : nat)
| OnFrame (f : nat).

(** The locators of the source. *)
Inductive locator :=
| input_type_password      (* input[type=password] *)
| input_name_password      (* input[name=password] *)
| button_sign_in           (* button:has-text(Sign In) *)
| button_login             (* button:has-text(Login) *)
| input_type_email         (* input[type=email] *)
| input_name_username      (* input[name=username] *)
| input_name_email         (* input[name=email] *)
| button_type_submit       (* button[type=submit] *)
| button_submit            (* button:has-text(Submit) *)
| tr_has_td                (* tr:has(td) *)
| role_download_first      (* get_by_role(button, name=/download/i).first *)
| role_download_free.      (* get_by_role(button, name=/download\s*\(free\)/i) *)

(** The two literals typed into the login form (lines 250 and 262). *)
Inductive credential := the_username | the_password.

(** The exceptions the program tells apart: [CancelledError] is not an
    [Exception] (a bare [except:] catches it, [except Exception] does not);
    [TimeoutError] is [asyncio.TimeoutError]; [Error] is any other
    [Exception], Playwright's own time-outs included. *)
Inductive exn := Error | TimeoutError | CancelledError.

Inductive result (A : Type) :=
| Ok (a : A)
| Raise (e : exn).
Arguments Raise {A} e.

Record Download := { download_id : nat; suggested_filename : option pystr }.

(** One call to the world outside the program.  [Goto], [WaitForTimeout],
    [WaitForSelector], [LocatorAll], [ExpectDownload], [AwaitDownload] act
    on the primary page; [StorageState] is
    [context.storage_state(path=STORAGE_STATE_PATH)]; [Mkdir] is
    [Path(path).mkdir(exist_ok=True)], which raises when the parent of the
    directory is missing or the path is a file. *)
Inductive action : Type -> Type :=
| IsVisible (t : target) (l : locator) : action bool
| Count (t : target) (l : locator) : action nat
| Fill (t : target) (l : locator) (v : credential) : action unit
| Click (t : target) (l : locator) : action unit
| Sleep (seconds : nat) : action unit
| WaitForTimeout (ms : N) : action unit
| Goto (url : pystr) : action unit
| WaitForSelector (l : locator) (ms : N) : action unit
| LocatorAll (l : locator) : action (list nat)
| TextContent (row : nat) : action (option pystr)
| RowClick (row : nat) : action unit
| ExpectDownload (ms : N) : action unit
| AwaitDownload : action Download
| SaveAs (d : Download) (name : pystr) : action unit
| StorageState : action unit
| StartPlaywright : action unit
| LaunchChrome : action unit
| LaunchChromium : action unit
| NewContext (storage : bool) : action unit
| NewPage : action Page
| BrowserClose : action unit
| Mkdir (path : pystr) : action unit.

(** The log lines of the authentication engine. *)
Inductive log_line :=
| LogAlreadyAuthenticated
| LogAuthenticationAttempt (n : nat)
| LogAuthenticationSuccessful
| LogFoundLoginFormOnMainPage
| LogFoundLoginFormInFrame (f : nat)
| LogFoundLoginFormInPopup (p : nat)
| LogFillingLoginForm (t : target)
| LogAuthenticationTimedOut (timeout : nat).

(** What a run leaves behind: every awaited call with its outcome, the
    arming of the timer of [asyncio.wait_for], and the engine's log. *)
Inductive event :=
| Ev (A : Type) (a : action A) (r : result A)
| EvWaitFor (timeout : nat)
| EvLog (m : log_line).

Definition trace := list event.

(** A browser over states [W]: how it answers a call, and what the
    properties [page.url], [page.frames], [page.context.pages] and the
    existence of the storage-state file read in a state.  A call that is
    cancelled answers [CancelledError]; [timer_fired] tells whose
    cancellation it was: in a state where it holds, the timer of the
    enclosing [asyncio.wait_for] has fired; where it does not, the task was
    cancelled from outside. *)
Record Browser (W : Type) := {
  exec : forall A, action A -> W -> result A * W;
  page_url : W -> pystr;
  page_frames : W -> list nat;
  context_pages : W -> list nat;
  storage_state_exists : W -> bool;
  timer_fired : W -> bool;
}.

Record Downloader := {
  headless : bool;
  download_dir : pystr;
  limit : option Z;
}.

(** A search result row: the dict with keys index, text, row_element. *)
Record ResultRow := { index : nat; text : pystr; row_element : nat }.

(** The dict with keys count and files. *)
Record RunResult := { count : nat; files : list pystr }.

Definition empty_result : RunResult := {| count := 0; files := [] |}.

Definition is_exception (e : exn) : bool :=
  match e with CancelledError => false | _ => true end.

Definition is_timeout_error (e : exn) : bool :=
  match e with TimeoutError => true | _ => false end.

(** ** Programs

    A coroutine is a function of the browser state that gives its outcome,
    the next state and the events it produced, oldest first. *)
Definition M (W A : Type) : Type := W -> result A * W * trace.

Section Monad.
Context {W : Type}.

Definition ret {A} (a : A) : M W A := fun w => (Ok a, w, []).

Definition raise {A} (e : exn) : M W A := fun w => (Raise e, w, []).

Definition bind {A B} (m : M W A) (k : A -> M W B) : M W B :=
  fun w =>
    match m w with
    | (Ok a, w1, t1) => let '(r, w2, t2) := k a w1 in (r, w2, t1 ++ t2)
    | (Raise e, w1, t1) => (Raise e, w1, t1)
    end.

(** [try: m except ...: h], for the exceptions [catches] accepts. *)
Definition try_except {A} (catches : exn -> bool) (m : M W A)
    (h : exn -> M W A) : M W A :=
  fun w =>
    match m w with
    | (Raise e, w1, t1) =>
        if catches e
        then let '(r, w2, t2) := h e w1 in (r, w2, t1 ++ t2)
        else (Raise e, w1, t1)
    | done => done
    end.

(** Run [m] and hand its outcome over as a value. *)
Definition attempt {A} (m : M W A) : M W (result A) :=
  fun w => let '(r, w1, t1) := m w in (Ok r, w1, t1).

Definition lift {A} (r : result A) : M W A :=
  match r with Ok a => ret a | Raise e => raise e end.

Definition log (m : log_line) : M W unit := fun w => (Ok tt, w, [EvLog m]).

Definition observe {A} (f : W -> A) : M W A := fun w => (Ok (f w), w, []).

(** [asyncio.wait_for(m, timeout)]: one timer is armed for the whole of
    [m].  With a time-out of 0 (or less) [m] is cancelled before its first
    call is answered, and [TimeoutError] is raised.  Otherwise [m] runs;
    when the timer fires, or when the task is cancelled from outside, the
    call that [m] is waiting on is cancelled: the browser decides where
    that happens by answering some call with [CancelledError].  A
    cancellation that leaves [m] becomes [TimeoutError] when it is the
    timer's ([fired] holds in the state [m] ends in) and stays
    [CancelledError] when it comes from outside; any other outcome of [m]
    is handed on. *)
Definition wait_for {A} (fired : W -> bool) (timeout : nat) (m : M W A)
  : M W A :=
  fun w =>
    match timeout with
    | O => (Raise TimeoutError, w, [EvWaitFor timeout])
    | S _ =>
        let '(r, w1, t1) := m w in
        (match r with
         | Raise CancelledError =>
             if fired w1 then Raise TimeoutError else Raise CancelledError
         | _ => r
         end,
         w1, EvWaitFor timeout :: t1)
    end.
End Monad.

Definition catch_all (e : exn) : bool := true.

Declare Scope prog_scope.
Delimit Scope prog_scope with prog.
Notation "x <- m ;; k" := (bind m (fun x => k))
  (at level 61, m at next level, right associativity) : prog_scope.
Notation "m ;;; k" := (bind m (fun _ => k))
  (at level 61, right associativity) : prog_scope.
Open Scope prog_scope.

Section Program.
Context {W : Type} (B : Browser W).
(** [urllib.parse.quote] *)
Variable quote : pystr -> pystr.

Definition call {A} (a : action A) : M W A :=
  fun w => let (r, w1) := exec B a w in (r, w1, [Ev a r]).

(** *** The authentication engine (lines 105-287) *)

Section Engine.
Variable page : Page.

(** The frames loop of [_is_authenticated] (lines 126-134). *)
Fixpoint frames_download_visible (frames : list nat) : M W bool :=
  match frames with
  | [] => ret false
  | frame :: frames' =>
      if frame =? main_frame page then frames_download_visible frames'
      else
        v <- try_except catch_all
               (call (IsVisible (OnFrame frame) role_download_first))
               (fun _ => ret false) ;;
        if v then ret true else frames_download_visible frames'
  end.

Definition _is_authenticated : M W bool :=
  try_except catch_all
    (v <- call (IsVisible (OnPage (page_id page)) role_download_first) ;;
     if v then ret true
     else
       frames <- observe (page_frames B) ;;
       frames_download_visible frames)
    (fun _ => ret false).

Definition login_selectors : list locator :=
  [input_type_password; input_name_password; button_sign_in; button_login].

(** [for selector in login_selectors: if count() > 0: return True] *)
Fixpoint any_selector_present (t : target) (selectors : list locator)
  : M W bool :=
  match selectors with
  | [] => ret false
  | selector :: selectors' =>
      n <- call (Count t selector) ;;
      if 0 <? n then ret true else any_selector_present t selectors'
  end.

(** The frames loop of [_has_login_forms] (lines 155-163). *)
Fixpoint frames_have_login_forms (frames : list nat) : M W bool :=
  match frames with
  | [] => ret false
  | frame :: frames' =>
      if frame =? main_frame page then frames_have_login_forms frames'
      else
        found <- try_except catch_all
                   (any_selector_present (OnFrame frame) login_selectors)
                   (fun _ => ret false) ;;
        if found then ret true else frames_have_login_forms frames'
  end.

Definition _has_login_forms : M W bool :=
  found <- any_selector_present (OnPage (page_id page)) login_selectors ;;
  if found then ret true
  else
    frames <- observe (page_frames B) ;;
    frames_have_login_forms frames.

(** One of the three selector loops of [_fill_login_form]: act on the
    first selector that is visible; a failing selector is skipped. *)
Fixpoint first_visible (t : target) (selectors : list locator)
    (act : locator -> M W unit) : M W unit :=
  match selectors with
  | [] => ret tt
  | selector :: selectors' =>
      acted <- try_except catch_all
                 (v <- call (IsVisible t selector) ;;
                  if v then act selector ;;; ret true else ret false)
                 (fun _ => ret false) ;;
      if acted then ret tt else first_visible t selectors' act
  end.

Definition username_selectors : list locator :=
  [input_type_email; input_name_username; input_name_email].
Definition password_selectors : list locator :=
  [input_type_password; input_name_password].
Definition submit_selectors : list locator :=
  [button_type_submit; button_sign_in; button_login; button_submit].

Definition _fill_login_form (page_or_frame : target) : M W unit :=
  try_except is_exception
    (log (LogFillingLoginForm page_or_frame) ;;;
     first_visible page_or_frame username_selectors
       (fun s => call (Fill page_or_frame s the_username)) ;;;
     first_visible page_or_frame password_selectors
       (fun s => call (Fill page_or_frame s the_password)) ;;;
     first_visible page_or_frame submit_selectors
       (fun s => call (Click page_or_frame s)))
    (fun _ => ret tt).

(** The popups loop of [_handle_login] (lines 190-197). *)
Fixpoint popups_handle_login (popups : list nat) : M W bool :=
  match popups with
  | [] => ret false
  | popup_page :: popups' =>
      handled <- try_except catch_all
                   (n <- call (Count (OnPage popup_page) input_type_password) ;;
                    if 0 <? n
                    then log (LogFoundLoginFormInPopup popup_page) ;;;
                         _fill_login_form (OnPage popup_page) ;;;
                         ret true
                    else ret false)
                   (fun _ => ret false) ;;
      if handled then ret true else popups_handle_login popups'
  end.

(** The frames loop of [_handle_login] (lines 176-185). *)
Fixpoint frames_handle_login (frames : list nat) : M W bool :=
  match frames with
  | [] => ret false
  | frame :: frames' =>
      if frame =? main_frame page then frames_handle_login frames'
      else
        handled <- try_except catch_all
                     (n <- call (Count (OnFrame frame) input_type_password) ;;
                      if 0 <? n
                      then log (LogFoundLoginFormInFrame frame) ;;;
                           _fill_login_form (OnFrame frame) ;;;
                           ret true
                      else ret false)
                     (fun _ => ret false) ;;
        if handled then ret true else frames_handle_login frames'
  end.

Definition _handle_login : M W bool :=
  found <- _has_login_forms ;;
  if found
  then log LogFoundLoginFormOnMainPage ;;;
       _fill_login_form (OnPage (page_id page)) ;;;
       ret true
  else
    frames <- observe (page_frames B) ;;
    handled <- frames_handle_login frames ;;
    if handled then ret true
    else
      pages <- observe (context_pages B) ;;
      if 1 <? length pages then popups_handle_login (tl pages)
      else ret false.

(** [_auth_loop], with [attempts] iterations of [range(6)] left and
    [attempt_no] the number of the current one. *)
Fixpoint auth_attempts (attempts attempt_no : nat) : M W bool :=
  match attempts with
  | O => raise TimeoutError
  | S attempts' =>
      authenticated <- _is_authenticated ;;
      if authenticated then log LogAlreadyAuthenticated ;;; ret false
      else
        forms <- _has_login_forms ;;
        logged_in <-
          (if forms
           then log (LogAuthenticationAttempt (attempt_no + 1)) ;;;
                handled <- _handle_login ;;
                if handled
                then call (Sleep 3) ;;;
                     now_authenticated <- _is_authenticated ;;
                     if now_authenticated
                     then log LogAuthenticationSuccessful ;;; ret true
                     else ret false
                else ret false
           else ret false) ;;
        if logged_in then ret true
        else call (Sleep 2) ;;; auth_attempts attempts' (S attempt_no)
  end.

Definition _auth_loop : M W bool := auth_attempts 6 0.

Definition ensure_authenticated (timeout : nat) : M W (bool * bool) :=
  try_except is_timeout_error
    (login_performed <- wait_for (timer_fired B) timeout _auth_loop ;;
     ret (true, login_performed))
    (fun _ => log (LogAuthenticationTimedOut timeout) ;;; ret (false, false)).
End Engine.

(** *** Search and enumeration (lines 289-332) *)

Definition base_url : pystr := py "https://boulder.co.publicsearch.us".

Definition is_quote_mark (c : char) : bool :=
  (c =? Chr.dquote)%N || (c =? Chr.squote)%N.

Definition search_url (query : pystr) : pystr :=
  let clean_query := strip is_quote_mark query in
  let encoded_query := quote clean_query in
  base_url
  ++ py "/results?department=RP&keywordSearch=false&recordedDateRange=18600626%2C20251023&searchOcrText=true&searchType=quickSearch&searchValue="
  ++ encoded_query.

Definition perform_search (query : pystr) : M W bool :=
  try_except is_exception
    (call (Goto (search_url query)) ;;;
     call (WaitForTimeout 3000%N) ;;;
     ret true)
    (fun _ => ret false).

(** The rows loop of [get_search_results]; [i] is the ordinal that
    [enumerate(result_rows, 1)] gives the first of [rows]. *)
Fixpoint collect_rows (rows : list nat) (i : nat) (results : list ResultRow)
  : M W (list ResultRow) :=
  match rows with
  | [] => ret results
  | row :: rows' =>
      t <- try_except catch_all (call (TextContent row)) (fun _ => ret None) ;;
      match t with
      | Some (c :: content) =>
          let stripped := strip is_space (c :: content) in
          if 10 <? length stripped
          then collect_rows rows' (S i)
                 (results ++ [{| index := i; text := stripped;
                                 row_element := row |}])
          else collect_rows rows' (S i) results
      | _ => collect_rows rows' (S i) results
      end
  end.

Definition get_search_results : M W (list ResultRow) :=
  try_except is_exception
    (call (WaitForSelector tr_has_td 10000%N) ;;;
     result_rows <- call (LocatorAll tr_has_td) ;;
     collect_rows result_rows 1 [])
    (fun _ => ret []).

(** *** The download orchestrator (lines 334-516) *)

Definition save_session : M W unit :=
  try_except is_exception (call StorageState) (fun _ => ret tt).

Definition download_pdf_from_result (page : Page) (result : ResultRow)
    (query_slug results_url : pystr) : M W (option pystr) :=
  try_except is_exception
    (call (RowClick (row_element result)) ;;;
     call (WaitForTimeout 3000%N) ;;;
     current_url <- observe (page_url B) ;;
     if negb (contains (py "/doc/") current_url) then ret None
     else
       auth <- ensure_authenticated page 30 ;;
       let (was_authenticated, just_logged_in) := (auth : bool * bool) in
       if negb was_authenticated then ret None
       else
         (if just_logged_in then save_session else ret tt) ;;;
         visible <- call (IsVisible (OnPage (page_id page)) role_download_free) ;;
         if visible
         then
           call (ExpectDownload 30000%N) ;;;
           call (Click (OnPage (page_id page)) role_download_free) ;;;
           download <- call AwaitDownload ;;
           let final_filename :=
             final_filename (index result) query_slug
               (suggested_filename download) in
           call (SaveAs download final_filename) ;;;
           call (Goto results_url) ;;;
           call (WaitForTimeout 2000%N) ;;;
           ret (Some final_filename)
         else ret None)
    (fun _ => ret None).

(** Truth value of an optional string. *)
Definition truthy (s : option pystr) : bool :=
  match s with Some (_ :: _) => true | _ => false end.

(** The slice [results[:l]]. *)
Definition slice_to {A} (l : Z) (results : list A) : list A :=
  if (0 <=? l)%Z then firstn (Z.to_nat l) results
  else firstn (Z.to_nat (Z.of_nat (length results) + l)) results.

(** Lines 457-459: [if self.limit and self.limit < total_results]. *)
Definition apply_limit {A} (limit : option Z) (results : list A) : list A :=
  match limit with
  | Some l =>
      if negb (l =? 0)%Z && (l <? Z.of_nat (length results))%Z
      then slice_to l results
      else results
  | None => results
  end.

(** The recovery navigation of the loop's handler (lines 487-491). *)
Definition recover (results_url : pystr) : M W unit :=
  try_except catch_all
    (call (Goto results_url) ;;; call (WaitForTimeout 2000%N))
    (fun _ => ret tt).

(** The items loop (lines 465-492); [acc] holds [successful_downloads] and
    [downloaded_files], which keep their updates when the pause after an
    item raises. *)
Fixpoint process_results (page : Page) (results : list ResultRow)
    (query_slug results_url : pystr) (acc : nat * list pystr)
  : M W (nat * list pystr) :=
  match results with
  | [] => ret acc
  | result :: results' =>
      d <- attempt (download_pdf_from_result page result query_slug results_url) ;;
      match d with
      | Raise e =>
          if is_exception e
          then recover results_url ;;;
               process_results page results' query_slug results_url acc
          else raise e
      | Ok downloaded_filename =>
          let acc' :=
            match downloaded_filename with
            | Some name =>
                if truthy downloaded_filename
                then (S (fst acc), snd acc ++ [name]) else acc
            | None => acc
            end in
          p <- attempt (call (WaitForTimeout 1000%N)) ;;
          match p with
          | Raise e =>
              if is_exception e
              then recover results_url ;;;
                   process_results page results' query_slug results_url acc'
              else raise e
          | Ok _ => process_results page results' query_slug results_url acc'
          end
      end
  end.

Definition setup_browser : M W Page :=
  call StartPlaywright ;;;
  try_except is_exception (call LaunchChrome) (fun _ => call LaunchChromium) ;;;
  storage <- observe (storage_state_exists B) ;;
  call (NewContext storage) ;;;
  call NewPage.

(** The body of the [try] of [download_all_pdfs] once the browser runs. *)
Definition run_session (self : Downloader) (page : Page) (query : pystr)
  : M W RunResult :=
  let query_slug := create_query_slug query in
  found <- perform_search query ;;
  if negb found then ret empty_result
  else
    results_url <- observe (page_url B) ;;
    results <- get_search_results ;;
    match results with
    | [] => ret empty_result
    | _ :: _ =>
        let results := apply_limit (limit self) results in
        acc <- process_results page results query_slug results_url (0, []) ;;
        save_session ;;;
        ret {| count := fst acc; files := snd acc |}
    end.

(** [download_all_pdfs]: [browser] stays [None] when [setup_browser]
    raises, so the [finally] clause closes the browser only after a
    successful set-up; an exception of [browser.close()] replaces the
    outcome of the [try]. *)
Definition download_all_pdfs (self : Downloader) (query : pystr)
  : M W RunResult :=
  started <- attempt setup_browser ;;
  match started with
  | Raise e => if is_exception e then ret empty_result else raise e
  | Ok page =>
      outcome <- attempt
                   (try_except is_exception (run_session self page query)
                      (fun _ => ret empty_result)) ;;
      call BrowserClose ;;;
      lift outcome
  end.

(** [__init__] (lines 36-54): the download directory is the one given, or
    one named after the day [today] (as [%Y-%m-%d]); it is created, which
    can fail; the result is the downloader and whether the TEST MODE line
    is printed. *)
Definition init (today : pystr) (headless : bool)
    (download_dir : option pystr) (limit : option Z)
  : M W (Downloader * bool) :=
  let dir :=
    match download_dir with
    | Some d => d
    | None => py "Boulder_PDFs_" ++ today
    end in
  call (Mkdir dir) ;;;
  ret ({| headless := headless; download_dir := dir; limit := limit |},
       match limit with Some l => negb (l =? 0)%Z | None => false end).
End Program.

(** ** A simulated portal

    A small executable browser on which the program can be run: a results
    page with a table of rows, a detail view per row, a login widget that
    renders in one chosen context while the session is logged out, and a
    download button that renders in one chosen context once it is logged
    in. *)
Module Sim.
Definition target_eqb (a b : target) : bool :=
  match a, b with
  | OnPage p, OnPage q => p =? q
  | OnFrame f, OnFrame g => f =? g
  | _, _ => false
  end.

Record portal := {
  detail : bool;                 (* the page shows a detail view *)
  logged_in : bool;
  typed_username : bool;
  typed_password : bool;
  login_widget : option target;  (* where the login form renders *)
  download_at : target;          (* where the download button renders *)
  free_button : bool;            (* the detail view offers Download (Free) *)
  main_email_box : bool;         (* the primary document has an e-mail box
                                    and a submit button of its own *)
  rows : list pystr;             (* the text of the rows of the table *)
  frames : list nat;             (* frames besides the main frame 0 *)
  popups : list nat;             (* pages besides the primary page 0 *)
  search_fails : bool;
  close_fails : bool;
  timer : option nat;            (* sleeps left before the timer fires *)
}.

Definition the_page : Page := {| page_id := 0; main_frame := 0 |}.

Definition widget_at (s : portal) (t : target) : bool :=
  detail s && negb (logged_in s) &&
  match login_widget s with Some c => target_eqb c t | None => false end.

Definition box_at (s : portal) (t : target) : bool :=
  main_email_box s && target_eqb t (OnPage 0).

Definition visible (s : portal) (t : target) (l : locator) : bool :=
  match l with
  | role_download_first =>
      detail s && logged_in s && target_eqb t (download_at s)
  | role_download_free =>
      detail s && logged_in s && free_button s && target_eqb t (OnPage 0)
  | input_type_password | button_sign_in => widget_at s t
  | input_type_email | button_type_submit => widget_at s t || box_at s t
  | _ => false
  end.

Definition set_state (s : portal) (d li tu tp : bool) (tm : option nat)
  : portal :=
  {| detail := d; logged_in := li; typed_username := tu;
     typed_password := tp; login_widget := login_widget s;
     download_at := download_at s; free_button := free_button s;
     main_email_box := main_email_box s; rows := rows s;
     frames := frames s; popups := popups s;
     search_fails := search_fails s; close_fails := close_fails s;
     timer := tm |}.

Definition step (A : Type) (a : action A) (s : portal) : result A * portal :=
  match a in action T return result T * portal with
  | IsVisible t l => (Ok (visible s t l), s)
  | Count t l => (Ok (if visible s t l then 1 else 0), s)
  | Fill t l v =>
      if widget_at s t
      then match v with
           | the_username =>
               (Ok tt, set_state s (detail s) (logged_in s) true
                         (typed_password s) (timer s))
           | the_password =>
               (Ok tt, set_state s (detail s) (logged_in s)
                         (typed_username s) true (timer s))
           end
      else if visible s t l then (Ok tt, s) else (Raise Error, s)
  | Click t l =>
      if widget_at s t && typed_username s && typed_password s
      then (Ok tt, set_state s (detail s) true false false (timer s))
      else if visible s t l then (Ok tt, s) else (Raise Error, s)
  | Sleep _ =>
      match timer s with
      | Some O =>
          (Raise CancelledError,
           set_state s (detail s) (logged_in s) (typed_username s)
             (typed_password s) None)
      | Some (S n) =>
          (Ok tt,
           set_state s (detail s) (logged_in s) (typed_username s)
             (typed_password s) (Some n))
      | None => (Ok tt, s)
      end
  | WaitForTimeout _ => (Ok tt, s)
  | Goto _ =>
      if search_fails s then (Raise Error, s)
      else (Ok tt, set_state s false (logged_in s) false false (timer s))
  | WaitForSelector _ _ =>
      match rows s with [] => (Raise Error, s) | _ => (Ok tt, s) end
  | LocatorAll _ => (Ok (seq 1 (length (rows s))), s)
  | TextContent row => (Ok (nth_error (rows s) (row - 1)), s)
  | RowClick row =>
      if negb (detail s) && (1 <=? row) && (row <=? length (rows s))
      then (Ok tt, set_state s true (logged_in s) false false (timer s))
      else (Raise Error, s)
  | ExpectDownload _ => (Ok tt, s)
  | AwaitDownload =>
      (Ok {| download_id := 1; suggested_filename := Some (py "deed:7.pdf") |}, s)
  | SaveAs _ _ => (Ok tt, s)
  | StorageState => (Ok tt, s)
  | StartPlaywright => (Ok tt, s)
  | LaunchChrome => (Raise Error, s)
  | LaunchChromium => (Ok tt, s)
  | NewContext _ => (Ok tt, s)
  | NewPage => (Ok the_page, s)
  | BrowserClose => if close_fails s then (Raise Error, s) else (Ok tt, s)
  | Mkdir _ => (Ok tt, s)
  end.

Definition url (s : portal) : pystr :=
  if detail s then base_url ++ py "/doc/1" else base_url ++ py "/results".

(** In the simulated portal every cancellation is the timer's. *)
Definition browser : Browser portal :=
  {| exec := step;
     page_url := url;
     page_frames := fun s => 0 :: frames s;
     context_pages := fun s => 0 :: popups s;
     storage_state_exists := fun _ => false;
     timer_fired := fun _ => true |}.

(** The same portal when the cancellations come from outside the task. *)
Definition cancelled_from_outside : Browser portal :=
  {| exec := step;
     page_url := url;
     page_frames := fun s => 0 :: frames s;
     context_pages := fun s => 0 :: popups s;
     storage_state_exists := fun _ => false;
     timer_fired := fun _ => false |}.

(** The same portal when every count in a page (not in a frame) fails. *)
Definition step_failing_count (A : Type) (a : action A) (s : portal)
  : result A * portal :=
  match a in action T return result T * portal with
  | Count (OnPage _) _ => (Raise Error, s)
  | a' => step a' s
  end.

Definition failing_count : Browser portal :=
  {| exec := step_failing_count;
     page_url := url;
     page_frames := fun s => 0 :: frames s;
     context_pages := fun s => 0 :: popups s;
     storage_state_exists := fun _ => false;
     timer_fired := fun _ => true |}.

(** The same portal on a disk where no directory can be created. *)
Definition step_failing_mkdir (A : Type) (a : action A) (s : portal)
  : result A * portal :=
  match a in action T return result T * portal with
  | Mkdir _ => (Raise Error, s)
  | a' => step a' s
  end.

Definition failing_mkdir : Browser portal :=
  {| exec := step_failing_mkdir;
     page_url := url;
     page_frames := fun s => 0 :: frames s;
     context_pages := fun s => 0 :: popups s;
     storage_state_exists := fun _ => false;
     timer_fired := fun _ => true |}.


(** A logged-out session on a detail view whose login widget renders at
    [w] (nowhere for [None]). *)
Definition signed_out (w : option target) : portal :=
  {| detail := true; logged_in := false; typed_username := false;
     typed_password := false; login_widget := w;
     download_at := OnPage 0; free_button := true; main_email_box := false;
     rows := [py "Warranty deed 1"; py "Warranty deed 2"];
     frames := [1]; popups := [1]; search_fails := false;
     close_fails := false; timer := None |}.

(** The login widget renders only in frame 1; the primary document has an
    unrelated e-mail box with a submit button. *)
Definition widget_in_frame : portal :=
  {| detail := true; logged_in := false; typed_username := false;
     typed_password := false; login_widget := Some (OnFrame 1);
     download_at := OnPage 0; free_button := true; main_email_box := true;
     rows := [py "Warranty deed 1"; py "Warranty deed 2"];
     frames := [1]; popups := []; search_fails := false;
     close_fails := false; timer := None |}.

(** A logged-in session whose download button renders in popup 1 only. *)
Definition button_in_popup : portal :=
  {| detail := true; logged_in := true; typed_username := false;
     typed_password := false; login_widget := None;
     download_at := OnPage 1; free_button := false; main_email_box := false;
     rows := []; frames := [1]; popups := [1]; search_fails := false;
     close_fails := false; timer := None |}.

(** A fresh session before the search, with the given table, login state
    and detail views. *)
Definition fresh (table : list pystr) (li : bool) (w : option target)
    (free fails : bool) : portal :=
  {| detail := false; logged_in := li; typed_username := false;
     typed_password := false; login_widget := w;
     download_at := OnPage 0; free_button := free; main_email_box := false;
     rows := table; frames := [1]; popups := []; search_fails := fails;
     close_fails := false; timer := None |}.

Definition two_deeds : list pystr :=
  [py "Warranty deed 1"; py "Warranty deed 2"].

Definition downloader (l : option Z) : Downloader :=
  {| headless := true; download_dir := py "out"; limit := l |}.

Definition run (l : option Z) (s : portal) : result RunResult * portal * trace :=
  download_all_pdfs browser (fun q => q) (downloader l) (py "Lot 7") s.
End Sim.
(** ** Reading a run *)

Definition outcome {W A} (x : result A * W * trace) : result A := fst (fst x).
Definition final_state {W A} (x : result A * W * trace) : W := snd (fst x).
Definition events {W A} (x : result A * W * trace) : trace := snd x.

(** The check for the authenticated-only affordance saw it. *)
Definition affordance_seen (e : event) : bool :=
  match e with
  | Ev a r =>
      match a in action T return result T -> bool with
      | IsVisible _ role_download_first =>
          fun r => match r with Ok true => true | _ => false end
      | _ => fun _ => false
      end r
  | _ => false
  end.

(** A probe for login-form signals found one. *)
Definition login_form_seen (e : event) : bool :=
  match e with
  | Ev a r =>
      match a in action T return result T -> bool with
      | Count _ _ => fun r => match r with Ok n => 0 <? n | _ => false end
      | _ => fun _ => false
      end r
  | _ => false
  end.

(** The context a probe for the affordance looked at. *)
Definition probed (e : event) : option target :=
  match e with
  | Ev (IsVisible t role_download_first) _ => Some t
  | _ => None
  end.

(** The context in which a credential was typed or a button pressed. *)
Definition acted_on (e : event) : option target :=
  match e with
  | Ev (Fill t _ _) _ => Some t
  | Ev (Click t _) _ => Some t
  | _ => None
  end.

Definition is_login_action (e : event) : bool :=
  match acted_on e with Some _ => true | None => false end.

(** A credential typed or a button pressed in the context [t]. *)
Definition is_action_on (t : target) (e : event) : bool :=
  match acted_on e with Some c => Sim.target_eqb c t | None => false end.

Definition is_goto (e : event) : bool :=
  match e with Ev (Goto _) _ => true | _ => false end.

Definition is_save (e : event) : bool :=
  match e with Ev StorageState _ => true | _ => false end.

Definition is_login_report (e : event) : bool :=
  match e with EvLog LogAuthenticationSuccessful => true | _ => false end.

Definition is_timer (e : event) : bool :=
  match e with EvWaitFor _ => true | _ => false end.

(** A call that carries a time-out of its own. *)
Definition has_own_timeout (e : event) : bool :=
  match e with
  | Ev (WaitForSelector _ _) _ | Ev (ExpectDownload _) _ | Ev (Goto _) _ => true
  | _ => false
  end.

Definition seconds_slept (e : event) : nat :=
  match e with Ev (Sleep s) _ => s | _ => 0 end.

Definition total_sleep (tr : trace) : nat :=
  fold_right (fun e n => seconds_slept e + n) 0 tr.

(** A call of the engine that is not inside a [try] raised an [Error]: a
    login-form probe of the primary document, or a sleep. *)
Definition crashed (page : Page) (e : event) : bool :=
  match e with
  | Ev a r =>
      match a in action T return result T -> bool with
      | Count (OnPage p) _ =>
          fun r => match r with Raise Error => p =? page_id page | _ => false end
      | Sleep _ => fun r => match r with Raise Error => true | _ => false end
      | _ => fun _ => false
      end r
  | _ => false
  end.

(** A row the enumerator accepts: its text is there and, stripped, longer
    than ten characters. *)
Definition row_found (e : event) : bool :=
  match e with
  | Ev a r =>
      match a in action T return result T -> bool with
      | TextContent _ =>
          fun r =>
            match r with
            | Ok (Some (c :: content)) =>
                10 <? length (strip is_space (c :: content))
            | _ => false
            end
      | _ => fun _ => false
      end r
  | _ => false
  end.

(** The number of results the enumeration of a run found. *)
Definition results_found (tr : trace) : nat := length (filter row_found tr).

(** The discipline of session saves inside a run: every report of a
    successful login is followed at once by a save, and there is no other
    save. *)
Inductive checkpointed : trace -> Prop :=
| cp_nil : checkpointed []
| cp_step e tr :
    is_save e = false -> is_login_report e = false ->
    checkpointed tr -> checkpointed (e :: tr)
| cp_login r tr :
    checkpointed tr ->
    checkpointed (EvLog LogAuthenticationSuccessful :: Ev StorageState r :: tr).

(** ** Vocabulary of the name properties *)

Definition legal (c : char) : Prop := is_illegal c = false.
Definition slug_char (c : char) : Prop := is_slug_char c = true.
Definition replace_illegal (c : char) : char :=
  if is_illegal c then Chr.underscore else c.
Definition not_underscore (c : char) : bool := negb (c =? Chr.underscore)%N.

(** ** Vocabulary of the run properties *)

(** The kinds of events. *)
Inductive kind :=
| Probe | Act | Pause | Wait | Navigation | Enumeration | Open | Capture
| Save | Setup | Close | Timer | LoginReport | Note.

Definition kind_of (e : event) : kind :=
  match e with
  | Ev a _ =>
      match a with
      | IsVisible _ _ | Count _ _ => Probe
      | Fill _ _ _ | Click _ _ => Act
      | Sleep _ => Pause
      | WaitForTimeout _ => Wait
      | Goto _ => Navigation
      | WaitForSelector _ _ | LocatorAll _ | TextContent _ => Enumeration
      | RowClick _ => Open
      | ExpectDownload _ | AwaitDownload | SaveAs _ _ => Capture
      | StorageState => Save
      | StartPlaywright | LaunchChrome | LaunchChromium | NewContext _
      | NewPage => Setup
      | BrowserClose => Close
      | Mkdir _ => Setup
      end
  | EvWaitFor _ => Timer
  | EvLog LogAuthenticationSuccessful => LoginReport
  | EvLog _ => Note
  end.

Definition kind_eqb (a b : kind) : bool :=
  match a, b with
  | Probe, Probe | Act, Act | Pause, Pause | Wait, Wait
  | Navigation, Navigation | Enumeration, Enumeration | Open, Open
  | Capture, Capture | Save, Save | Setup, Setup | Close, Close
  | Timer, Timer | LoginReport, LoginReport | Note, Note => true
  | _, _ => false
  end.

Definition has_kind (ks : list kind) (k : kind) : bool := existsb (kind_eqb k) ks.

(** The event is of one of the kinds [ks]. *)
Definition of_kinds (ks : list kind) (e : event) : Prop :=
  has_kind ks (kind_of e) = true.

(** Every event a program can produce satisfies [P]. *)
Definition always {W A} (P : event -> Prop) (m : M W A) : Prop :=
  forall w, Forall P (events (m w)).


(** A probe for the affordance in the primary document or in a frame that
    is not the main frame. *)
Definition primary_or_frame_probe (page : Page) (e : event) : bool :=
  match probed e with
  | Some (OnPage p) => p =? page_id page
  | Some (OnFrame f) => negb (f =? main_frame page)
  | None => false
  end.

Definition nested_frames (page : Page) (frames : list nat) : list nat :=
  filter (fun f => negb (f =? main_frame page)) frames.


(** The contexts of a session: the primary document, the nested frames of
    the primary page and the popup windows. *)
Definition all_contexts {W} (B : Browser W) (page : Page) (w : W) : list target :=
  OnPage (page_id page)
  :: map OnFrame (nested_frames page (page_frames B w))
  ++ map OnPage (tl (context_pages B w)).

(** The seconds a program sleeps never exceed [n]. *)
Definition sleeps_at_most {W A} (n : nat) (m : M W A) : Prop :=
  forall w, total_sleep (events (m w)) <= n.


(** Neither a session save nor the report of a successful login. *)
Definition quiet (e : event) : Prop :=
  is_save e = false /\ is_login_report e = false.

(** A program whose events are quiet, except that it ends with the report
    of a successful login exactly when it returns [true]. *)
Definition reports_login {W} (m : M W bool) : Prop :=
  forall w, exists q,
    Forall quiet q /\
    ((outcome (m w) = Ok true
      /\ events (m w) = q ++ [EvLog LogAuthenticationSuccessful])
     \/ (outcome (m w) <> Ok true /\ events (m w) = q)).

(** The same for the pair that [ensure_authenticated] returns. *)
Definition reports_just_logged_in {W} (m : M W (bool * bool)) : Prop :=
  forall w, exists q,
    Forall quiet q /\
    ((outcome (m w) = Ok (true, true)
      /\ events (m w) = q ++ [EvLog LogAuthenticationSuccessful])
     \/ ((forall a, outcome (m w) <> Ok (a, true)) /\ events (m w) = q)).

(** Every trace of the program keeps the discipline of session saves. *)
Definition keeps_checkpoints {W A} (m : M W A) : Prop :=
  forall w, checkpointed (events (m w)).

(** The kinds of events the processing of one item can produce. *)
Definition item_kinds : list kind :=
  [Open; Wait; Probe; Act; Note; Pause; LoginReport; Timer; Save; Capture;
   Navigation].

(** What [except Exception] around the session makes of its outcome. *)
Definition guarded (rs : result RunResult) : result RunResult :=
  match rs with
  | Raise e => if is_exception e then Ok empty_result else Raise e
  | Ok rr => Ok rr
  end.


(** ** Vocabulary of the further properties *)

(** [int(s)] for a string of decimal digits. *)
Definition digits_value (s : pystr) : nat :=
  fold_left (fun v c => 10 * v + (N.to_nat c - 48)) s 0.

(** The ordinal a stored file name starts with: its leading digits, read
    as a number. *)
Definition ordinal_of (name : pystr) : nat :=
  digits_value (firstn (fst (span_digits name)) name).

(** Strictly increasing, and at least [lo]. *)
Fixpoint increasing_from (lo : nat) (l : list nat) : Prop :=
  match l with
  | [] => True
  | x :: l' => lo <= x /\ increasing_from (S x) l'
  end.

(** The separator between the slug and the sanitized name. *)
Definition double_underscore : pystr := [Chr.underscore; Chr.underscore].

(** What the enumeration records of one accepted row of [rows], when the
    first of [rows] has ordinal [first]: its ordinal points at the row's
    handle, and its text is longer than ten characters. *)
Definition row_recorded (rows : list nat) (first : nat) (res : ResultRow) : Prop :=
  first <= index res < first + length rows
  /\ nth_error rows (index res - first) = Some (row_element res)
  /\ 10 < length (text res).

Definition is_login_selector (l : locator) : bool :=
  match l with
  | input_type_password | input_name_password | button_sign_in | button_login =>
      true
  | _ => false
  end.

(** A count of one of the four login selectors, in the primary document or
    in a frame that is not the main frame. *)
Definition login_form_probe (page : Page) (e : event) : bool :=
  match e with
  | Ev (Count (OnPage p) l) _ => (p =? page_id page) && is_login_selector l
  | Ev (Count (OnFrame f) l) _ =>
      negb (f =? main_frame page) && is_login_selector l
  | _ => false
  end.

(** The credential [v] was typed with success. *)
Definition typed (v : credential) (e : event) : bool :=
  match e with
  | Ev a r =>
      match a in action T return result T -> bool with
      | Fill _ _ v' =>
          fun r =>
            match r, v', v with
            | Ok _, the_username, the_username
            | Ok _, the_password, the_password => true
            | _, _, _ => false
            end
      | _ => fun _ => false
      end r
  | _ => false
  end.

(** A button was pressed with success. *)
Definition pressed (e : event) : bool :=
  match e with
  | Ev a r =>
      match a in action T return result T -> bool with
      | Click _ _ => fun r => match r with Ok _ => true | _ => false end
      | _ => fun _ => false
      end r
  | _ => false
  end.

(** The selectors [_fill_login_form] tries for a credential. *)
Definition selectors_for (v : credential) : list locator :=
  match v with
  | the_username => username_selectors
  | the_password => password_selectors
  end.

(** An event of [_fill_login_form] in the context [t]: its log line, a
    visibility check of one of its selectors, a credential typed into one
    of the selectors of that credential, or a submit button pressed. *)
Definition form_step (t : target) (e : event) : Prop :=
  match e with
  | Ev (IsVisible t' l) _ =>
      t' = t
      /\ In l (username_selectors ++ password_selectors ++ submit_selectors)
  | Ev (Fill t' l v) _ => t' = t /\ In l (selectors_for v)
  | Ev (Click t' l) _ => t' = t /\ In l submit_selectors
  | EvLog m => m = LogFillingLoginForm t
  | _ => False
  end.

(** No [effect] happens before the first [cause]. *)
Fixpoint only_after (cause effect : event -> bool) (tr : trace) : bool :=
  match tr with
  | [] => true
  | e :: tr' =>
      if cause e then true
      else negb (effect e) && only_after cause effect tr'
  end.

(** The log line of [_fill_login_form], written when the filler is
    entered and before any field is tried. *)
Definition is_filling (e : event) : bool :=
  match e with EvLog (LogFillingLoginForm _) => true | _ => false end.

(** What a positive verdict of the engine rests on: a check saw the
    affordance; and when a login is reported, the run has a successful
    three-second wait before which a login-form probe found a form and the
    filler was entered, and after which a check saw the affordance. *)
Definition backed (logged : bool) (tr : trace) : Prop :=
  existsb affordance_seen tr = true
  /\ (logged = true ->
      exists pre post,
        tr = pre ++ Ev (Sleep 3) (Ok tt) :: post
        /\ existsb login_form_seen pre = true
        /\ existsb is_filling pre = true
        /\ existsb affordance_seen post = true).

(** The context [_handle_login] enters the filler for, after the events
    [pre]: the primary document when the login-form check (which scans the
    frames too) was positive; else the first nested frame, else the first
    popup, whose count of password fields is positive. *)
Definition login_context (page : Page) (pre : trace) (t : target) : Prop :=
  (t = OnPage (page_id page)
   /\ exists q,
        pre = q ++ [EvLog LogFoundLoginFormOnMainPage]
        /\ existsb login_form_seen q = true)
  \/ (exists f n q,
        t = OnFrame f /\ f <> main_frame page /\ 0 < n
        /\ pre = q ++ [Ev (Count (OnFrame f) input_type_password) (Ok n);
                       EvLog (LogFoundLoginFormInFrame f)]
        /\ existsb login_form_seen q = false)
  \/ (exists p n q,
        t = OnPage p /\ 0 < n
        /\ pre = q ++ [Ev (Count (OnPage p) input_type_password) (Ok n);
                       EvLog (LogFoundLoginFormInPopup p)]
        /\ existsb login_form_seen q = false).

(** An event in which no login form was found, nothing was typed or
    pressed, and the filler was not entered. *)
Definition calm (e : event) : Prop :=
  login_form_seen e = false /\ is_login_action e = false
  /\ is_filling e = false.

(** The values [f] picks from the events of a run, in order. *)
Fixpoint pick {A} (f : event -> option A) (tr : trace) : list A :=
  match tr with
  | [] => []
  | e :: tr' =>
      match f e with
      | Some a => a :: pick f tr'
      | None => pick f tr'
      end
  end.

(** The row a click opened, or tried to. *)
Definition clicked_row (e : event) : option nat :=
  match e with Ev (RowClick row) _ => Some row | _ => None end.

(** The row whose text was asked for. *)
Definition asked_row (e : event) : option nat :=
  match e with Ev (TextContent row) _ => Some row | _ => None end.

(** The rows the page listed. *)
Definition listed_rows (e : event) : option (list nat) :=
  match e with
  | Ev a r =>
      match a in action T return result T -> option (list nat) with
      | LocatorAll _ => fun r => match r with Ok rows => Some rows | _ => None end
      | _ => fun _ => None
      end r
  | _ => None
  end.

(** The row whose text was asked for and accepted. *)
Definition accepted_row (e : event) : option nat :=
  if row_found e then asked_row e else None.

(** The result a request for the text of a row gives when the row has
    ordinal [i]: none when the request fails, when there is no text or when
    the stripped text has at most ten characters. *)
Definition kept_row (i : nat) (e : event) : option ResultRow :=
  match e with
  | Ev a r =>
      match a in action T return result T -> option ResultRow with
      | TextContent row =>
          fun r =>
            match r with
            | Ok (Some (c :: content)) =>
                let stripped := strip is_space (c :: content) in
                if 10 <? length stripped
                then Some {| index := i; text := stripped;
                             row_element := row |}
                else None
            | _ => None
            end
      | _ => fun _ => None
      end r
  | _ => None
  end.

(** The results that the requests for row texts in [tr] give, the first
    of them having ordinal [i]. *)
Fixpoint rows_kept (i : nat) (tr : trace) : list ResultRow :=
  match tr with
  | [] => []
  | e :: tr' =>
      match asked_row e with
      | Some _ =>
          match kept_row i e with
          | Some res => res :: rows_kept (S i) tr'
          | None => rows_kept (S i) tr'
          end
      | None => rows_kept i tr'
      end
  end.

Definition is_capture (e : event) : bool :=
  match e with
  | Ev (ExpectDownload _) _ | Ev AwaitDownload _ | Ev (SaveAs _ _) _ => true
  | _ => false
  end.

Definition is_row_click (e : event) : bool :=
  match e with Ev (RowClick _) _ => true | _ => false end.

Definition is_close (e : event) : bool :=
  match e with Ev BrowserClose _ => true | _ => false end.

(** The rows a run opened. *)
Definition rows_opened (tr : trace) : nat := length (filter is_row_click tr).

(** [context.new_page()] gave a page. *)
Definition page_opened (e : event) : bool :=
  match e with
  | Ev a r =>
      match a in action T return result T -> bool with
      | NewPage => fun r => match r with Ok _ => true | Raise _ => false end
      | _ => fun _ => false
      end r
  | _ => false
  end.

(** The times a run entered [_fill_login_form]; nothing need have been
    typed or pressed there. *)
Definition filler_entries (tr : trace) : nat := length (filter is_filling tr).

(** *** The command line (lines 519-546)

    [main] compares what [download_all_pdfs] returns, a dict, with the
    integer 0.  Python defines [>] between two integers; between a dict and
    an integer it raises [TypeError], an [Exception]. *)
Inductive pyvalue :=
| PyInt (n : Z)
| PyDict (d : RunResult).

Definition py_gt (a b : pyvalue) : result bool :=
  match a, b with
  | PyInt x, PyInt y => Ok (y <? x)%Z
  | _, _ => Raise Error
  end.

(** The line [main] logs before it returns. *)
Inductive main_report :=
| ReportDownloaded (n : pyvalue)
| ReportNothingDownloaded
| ReportInterrupted
| ReportUnexpectedError.

Section Main.
Context {W : Type} (B : Browser W).
Variable quote : pystr -> pystr.

(** [main], from the parsed arguments on: the downloader is constructed
    before the [try], so an error of the constructor leaves [main].
    [KeyboardInterrupt] is not among the exceptions of the model, so the
    handler that logs [ReportInterrupted] is never entered. *)
Definition main (today query : pystr) (no_headless : bool)
    (download_dir : option pystr) (limit : option Z) : M W main_report :=
  constructed <- init B today (negb no_headless) download_dir limit ;;
  let downloader := fst (constructed : Downloader * bool) in
  try_except is_exception
    (successful_downloads <- download_all_pdfs B quote downloader query ;;
     positive <- lift (py_gt (PyDict successful_downloads) (PyInt 0)) ;;
     if (positive : bool)
     then ret (ReportDownloaded (PyDict successful_downloads))
     else ret ReportNothingDownloaded)
    (fun _ => ret ReportUnexpectedError).
End Main.


(** ** Examples for the further properties *)

(** A table whose first row is too short to be a result. *)
Definition gap_table : list pystr :=
  [py "Lot"; py "Warranty deed 1"; py "Warranty deed 2"].

(** The first result of the table of two deeds. *)
Definition first_deed : ResultRow :=
  {| index := 1; text := py "Warranty deed 1"; row_element := 1 |}.

(** What the run on the two deeds returns. *)
Definition both_deeds_stored : RunResult :=
  {| count := 2;
     files := [py "01_Lot_7__deed_7.pdf"; py "02_Lot_7__deed_7.pdf"] |}.

(** * Checks of the model on examples *)

Example slug_ex1 :
  create_query_slug (py "  Lot 7   Sunset Ridge! ") = py "Lot_7_Sunset_Ridge".
Proof. reflexivity. Qed.
Example slug_ex2 : create_query_slug (py "Twin-Lakes #2") = py "Twin-Lakes_2".
Proof. reflexivity. Qed.
Example fmt_ex1 : format_02d 7 = py "07". Proof. reflexivity. Qed.
Example fmt_ex2 : format_02d 123 = py "123". Proof. reflexivity. Qed.
Example fmt_ex3 : format_02d 40 = py "40". Proof. reflexivity. Qed.
Example name_ex1 :
  final_filename 3 (py "Lot_7") (Some (py "a:b/c.pdf")) = py "03_Lot_7__a_b_c.pdf".
Proof. reflexivity. Qed.
Example name_ex2 :
  final_filename 3 (py "Lot_7") None = py "03_Lot_7__document_3.pdf".
Proof. reflexivity. Qed.
Example pat_ex1 : matches_pattern is_word (py "03_Lot_7__a_b_c.pdf") = true.
Proof. reflexivity. Qed.
Example pat_ex2 : matches_pattern is_word (py "3_Lot_7__a_b_c.pdf") = false.
Proof. reflexivity. Qed.

(** * Properties of the sanitizers *)

Section Sanitizers.
Local Open Scope N_scope.

(** Turn a statement on character classes into linear arithmetic. *)
Ltac chars :=
  unfold is_slug_char, is_word, slug_keep, is_illegal, is_space, is_alpha,
    is_digit, in_range, Chr.underscore, Chr.hyphen, Chr.lt, Chr.gt,
    Chr.colon, Chr.dquote, Chr.slash, Chr.backslash, Chr.pipe,
    Chr.question, Chr.star, Chr.zero, Chr.lf in *;
  repeat rewrite ?orb_true_iff, ?orb_false_iff, ?andb_true_iff,
    ?andb_false_iff, ?negb_true_iff, ?negb_false_iff, ?N.eqb_eq,
    ?N.eqb_neq, ?N.leb_le, ?N.leb_gt in *;
  lia.

Lemma underscore_legal : is_illegal Chr.underscore = false.
Proof. reflexivity. Qed.

Lemma slug_char_legal c : is_slug_char c = true -> is_illegal c = false.
Proof. intros H. destruct (is_illegal c) eqn:E; [exfalso; chars | reflexivity]. Qed.

Lemma digit_legal c : is_digit c = true -> is_illegal c = false.
Proof. intros H. destruct (is_illegal c) eqn:E; [exfalso; chars | reflexivity]. Qed.

Lemma slug_char_not_space c : is_slug_char c = true -> is_space c = false.
Proof. intros H. destruct (is_space c) eqn:E; [exfalso; chars | reflexivity]. Qed.

Lemma slug_char_keep c :
  is_slug_char c = true -> slug_keep c = negb (c =? Chr.underscore).
Proof.
  intros H.
  destruct (slug_keep c) eqn:E1; destruct (c =? Chr.underscore) eqn:E2;
    try reflexivity; exfalso; chars.
Qed.

Lemma keep_not_space_slug_char c :
  slug_keep c = true -> is_space c = false -> is_slug_char c = true.
Proof.
  intros H1 H2.
  destruct (is_slug_char c) eqn:E; [reflexivity | exfalso; chars].
Qed.

Lemma underscore_slug_char : is_slug_char Chr.underscore = true.
Proof. reflexivity. Qed.
End Sanitizers.

Section SanitizerFacts.
Lemma Forall_firstn {A} (P : A -> Prop) n l :
  Forall P l -> Forall P (firstn n l).
Proof.
  intros H. revert n. induction H; intros [|n]; simpl; constructor; auto.
Qed.

Lemma sanitize_filename_firstn s :
  sanitize_filename s = firstn 200 (map replace_illegal s).
Proof.
  unfold sanitize_filename. fold replace_illegal.
  destruct (200 <? length (map replace_illegal s)) eqn:E; [reflexivity|].
  apply Nat.ltb_ge in E. now rewrite firstn_all2.
Qed.

Lemma replace_illegal_legal c : legal (replace_illegal c).
Proof.
  unfold legal, replace_illegal.
  destruct (is_illegal c) eqn:E; [apply underscore_legal | exact E].
Qed.

Lemma replace_illegal_fixed c : legal c -> replace_illegal c = c.
Proof. unfold legal, replace_illegal. now intros ->. Qed.

Lemma sanitize_filename_legal s : Forall legal (sanitize_filename s).
Proof.
  rewrite sanitize_filename_firstn. apply Forall_firstn.
  induction s; simpl; constructor; auto using replace_illegal_legal.
Qed.

Lemma sanitize_filename_length s :
  length (sanitize_filename s) = Nat.min 200 (length s).
Proof.
  rewrite sanitize_filename_firstn, length_firstn, length_map. reflexivity.
Qed.

Lemma sanitize_legal_short s :
  Forall legal s -> length s <= 200 -> sanitize_filename s = s.
Proof.
  intros Hl Hn. rewrite sanitize_filename_firstn.
  rewrite firstn_all2 by now rewrite length_map.
  induction Hl; simpl; [reflexivity|].
  simpl in Hn. rewrite replace_illegal_fixed by assumption.
  f_equal. apply IHHl. lia.
Qed.

Lemma lstrip_Forall (P : char -> Prop) p s : Forall P s -> Forall P (lstrip p s).
Proof.
  induction 1; simpl; [constructor|].
  destruct (p x); [assumption | now constructor].
Qed.

Lemma strip_Forall (P : char -> Prop) p s : Forall P s -> Forall P (strip p s).
Proof.
  intros H. unfold strip, rstrip.
  apply Forall_rev, lstrip_Forall, Forall_rev, lstrip_Forall, H.
Qed.

Lemma lstrip_none p s : Forall (fun c => p c = false) s -> lstrip p s = s.
Proof. destruct 1 as [|c s Hc _]; simpl; [reflexivity | now rewrite Hc]. Qed.

Lemma strip_none p s : Forall (fun c => p c = false) s -> strip p s = s.
Proof.
  intros H. unfold strip, rstrip.
  rewrite (lstrip_none p H).
  rewrite lstrip_none by now apply Forall_rev.
  apply rev_involutive.
Qed.

Lemma collapse_from_slug b s :
  Forall (fun c => slug_keep c = true) s -> Forall slug_char (collapse_from b s).
Proof.
  intros H. revert b. induction H as [|c s Hc _ IH]; intros b; simpl.
  - constructor.
  - destruct (is_space c) eqn:E.
    + destruct b; [apply IH | constructor; [reflexivity | apply IH]].
    + constructor; [now apply keep_not_space_slug_char | apply IH].
Qed.

Lemma collapse_from_none b s :
  Forall (fun c => is_space c = false) s -> collapse_from b s = s.
Proof.
  intros H. revert b. induction H as [|c s Hc _ IH]; intros b; simpl.
  - reflexivity.
  - rewrite Hc. now rewrite IH.
Qed.

Lemma create_query_slug_chars q : Forall slug_char (create_query_slug q).
Proof.
  unfold create_query_slug, collapse_spaces.
  apply Forall_firstn, collapse_from_slug, strip_Forall.
  apply Forall_forall. intros c Hc. now apply filter_In in Hc.
Qed.

Lemma create_query_slug_length q : length (create_query_slug q) <= 50.
Proof. unfold create_query_slug. apply firstn_le_length. Qed.

(** A slug put through [create_query_slug] loses its underscores and
    nothing else. *)
Lemma create_query_slug_of_slug s :
  Forall slug_char s -> length s <= 50 ->
  create_query_slug s = filter not_underscore s.
Proof.
  intros Hs Hn. unfold create_query_slug, collapse_spaces.
  assert (E : filter slug_keep s = filter not_underscore s).
  { apply filter_ext_in. intros c Hc. apply slug_char_keep.
    rewrite Forall_forall in Hs. now apply Hs. }
  rewrite E.
  assert (Hns : Forall (fun c => is_space c = false) (filter not_underscore s)).
  { apply Forall_forall. intros c Hc. apply filter_In in Hc.
    apply slug_char_not_space. rewrite Forall_forall in Hs. now apply Hs. }
  rewrite (strip_none is_space Hns), (collapse_from_none _ Hns).
  apply firstn_all2.
  pose proof (filter_length_le not_underscore s). lia.
Qed.

Lemma filter_fixed {A} (f : A -> bool) l :
  filter f l = l <-> Forall (fun x => f x = true) l.
Proof.
  split.
  - induction l as [|a l IH]; simpl; intros H; [constructor|].
    destruct (f a) eqn:E.
    + injection H as H. constructor; auto.
    + pose proof (filter_length_le f l) as L. rewrite H in L. simpl in L. lia.
  - induction 1 as [|a l Ha _ IH]; simpl; [reflexivity|].
    now rewrite Ha, IH.
Qed.

(** Digits of the ordinal *)
Lemma digit_char_digit d : d < 10 -> is_digit (digit_char d) = true.
Proof.
  intros H. unfold is_digit, in_range, digit_char, Chr.zero.
  apply andb_true_iff. split; apply N.leb_le; lia.
Qed.

Lemma decimal_digits fuel : forall n acc,
  Forall (fun c => is_digit c = true) acc ->
  Forall (fun c => is_digit c = true) (decimal fuel n acc).
Proof.
  induction fuel as [|fuel IH]; intros n acc H; simpl; [assumption|].
  assert (D : is_digit (digit_char (n mod 10)) = true).
  { apply digit_char_digit. apply Nat.mod_upper_bound. lia. }
  destruct (n <? 10); [now constructor | apply IH; now constructor].
Qed.

Lemma decimal_length fuel : forall n acc,
  length acc <= length (decimal fuel n acc).
Proof.
  induction fuel as [|fuel IH]; intros n acc; simpl; [lia|].
  destruct (n <? 10); simpl; [lia|].
  specialize (IH (n / 10) (digit_char (n mod 10) :: acc)). simpl in IH. lia.
Qed.

Lemma decimal_unfold fuel n acc :
  decimal (S fuel) n acc =
  if n <? 10 then digit_char (n mod 10) :: acc
  else decimal fuel (n / 10) (digit_char (n mod 10) :: acc).
Proof. reflexivity. Qed.

Lemma str_of_nat_nonempty n : 1 <= length (str_of_nat n).
Proof.
  unfold str_of_nat. rewrite decimal_unfold.
  destruct (n <? 10); [simpl; lia|].
  pose proof (decimal_length n (n / 10) [digit_char (n mod 10)]) as L.
  cbn [length] in L. lia.
Qed.

Lemma str_of_nat_small n : n < 100 -> length (str_of_nat n) <= 2.
Proof.
  intros H. unfold str_of_nat. rewrite decimal_unfold.
  destruct (n <? 10) eqn:E; [simpl; lia|].
  apply Nat.ltb_ge in E. destruct n as [|n]; [lia|].
  rewrite decimal_unfold.
  assert (L : S n / 10 < 10) by (apply Nat.Div0.div_lt_upper_bound; lia).
  apply Nat.ltb_lt in L. rewrite L. cbn [length]. lia.
Qed.

Lemma format_02d_digits index :
  Forall (fun c => is_digit c = true) (format_02d index).
Proof.
  unfold format_02d. apply Forall_app. split.
  - apply Forall_forall. intros c Hc. apply repeat_spec in Hc. now subst.
  - apply decimal_digits. constructor.
Qed.

Lemma format_02d_length index : 2 <= length (format_02d index).
Proof.
  unfold format_02d. rewrite length_app, repeat_length.
  pose proof (str_of_nat_nonempty index). lia.
Qed.

Lemma format_02d_small index : index < 100 -> length (format_02d index) = 2.
Proof.
  intros H. unfold format_02d. rewrite length_app, repeat_length.
  pose proof (str_of_nat_nonempty index). pose proof (str_of_nat_small H). lia.
Qed.

Lemma suggested_or_default_nonempty suggested index :
  1 <= length (suggested_or_default suggested index).
Proof.
  destruct suggested as [[|c s]|]; simpl; lia.
Qed.

Lemma span_digits_prefix pad c rest :
  Forall (fun c => is_digit c = true) pad -> is_digit c = false ->
  span_digits (pad ++ c :: rest) = (length pad, c :: rest).
Proof.
  intros H Hc. induction H as [|d pad Hd _ IH]; simpl.
  - now rewrite Hc.
  - now rewrite Hd, IH.
Qed.

Lemma match_slug_tail_here cls fuel c rest :
  c <> Chr.lf ->
  match_slug_tail cls fuel (Chr.underscore :: Chr.underscore :: c :: rest) = true.
Proof.
  intros H. destruct fuel; simpl; apply N.eqb_neq in H; now rewrite H.
Qed.

Lemma match_slug_tail_next cls fuel x s :
  2 <= length s -> cls x = true -> match_slug_tail cls fuel s = true ->
  match_slug_tail cls (S fuel) (x :: s) = true.
Proof.
  intros L Hx Hs. destruct s as [|b [|c t]]; simpl in L; try lia.
  cbn [match_slug_tail].
  destruct ((x =? Chr.underscore)%N && (b =? Chr.underscore)%N
            && negb (c =? Chr.lf)%N); [reflexivity|].
  now rewrite Hx, Hs.
Qed.

Lemma match_slug_tail_slug cls slug : forall fuel c rest,
  Forall (fun x => cls x = true) slug -> length slug <= fuel -> c <> Chr.lf ->
  match_slug_tail cls fuel
    (slug ++ Chr.underscore :: Chr.underscore :: c :: rest) = true.
Proof.
  induction slug as [|x slug IH]; intros fuel c rest H L Hc.
  - now apply match_slug_tail_here.
  - inversion H; subst. destruct fuel as [|fuel]; simpl in L; [lia|].
    simpl app. apply match_slug_tail_next; auto.
    + rewrite length_app. simpl. lia.
    + apply IH; auto. lia.
Qed.
End SanitizerFacts.

(** ** The stored file name *)

(** C8, as stated, fails: a hyphen of the query survives in the slug, and
    the pattern of the specification has no hyphen in its slug class. *)
Lemma hyphen_breaks_pattern :
  final_filename 1 (create_query_slug (py "Twin-Lakes")) (Some (py "deed.pdf"))
  = py "01_Twin-Lakes__deed.pdf"
  /\ matches_pattern is_word (py "01_Twin-Lakes__deed.pdf") = false.
Proof. split; reflexivity. Qed.

(** C8 (amended): the stored name is the ordinal in at least two decimal
    digits, an underscore, the query slug, two underscores and the sanitized
    suggested name.  The slug has at most 50 characters, each a letter, a
    digit, an underscore or a hyphen; the sanitized name has between 1 and
    200 characters; no character of the stored name is in the illegal class;
    the name is at most 253 characters longer than its ordinal prefix, so at
    most 255 for ordinals below 100; and it matches the pattern with the
    hyphen added to the slug class, provided the sanitized name does not
    begin with a line feed. *)
Theorem stored_filename_shape (index : nat) (query : pystr)
    (suggested : option pystr) :
  let slug := create_query_slug query in
  let safe := sanitize_filename (suggested_or_default suggested index) in
  let name := final_filename index slug suggested in
  name = format_02d index ++ Chr.underscore :: slug
         ++ Chr.underscore :: Chr.underscore :: safe
  /\ Forall (fun c => is_digit c = true) (format_02d index)
  /\ 2 <= length (format_02d index)
  /\ Forall slug_char slug /\ length slug <= 50
  /\ 1 <= length safe <= 200
  /\ Forall legal name
  /\ length name <= length (format_02d index) + 253
  /\ (index < 100 -> length name <= 255)
  /\ (hd Chr.lf safe <> Chr.lf -> matches_pattern is_slug_char name = true).
Proof.
  intros slug safe name.
  assert (E : name = format_02d index ++ Chr.underscore :: slug
                     ++ Chr.underscore :: Chr.underscore :: safe) by reflexivity.
  pose proof (format_02d_digits index) as Hd.
  pose proof (format_02d_length index) as Hl.
  pose proof (create_query_slug_chars query) as Hs.
  pose proof (create_query_slug_length query) as Hsl.
  assert (Hsafe : 1 <= length safe <= 200).
  { unfold safe. rewrite sanitize_filename_length.
    pose proof (suggested_or_default_nonempty suggested index). lia. }
  assert (Hlen : length name = length (format_02d index) + 1 + length slug
                               + 2 + length safe).
  { rewrite E. rewrite length_app. cbn [length]. rewrite length_app.
    cbn [length]. lia. }
  repeat split; try assumption; try lia.
  - rewrite E. apply Forall_app. split.
    + eapply Forall_impl; [|exact Hd]. intros c. apply digit_legal.
    + constructor; [reflexivity|]. apply Forall_app. split.
      * eapply Forall_impl; [|exact Hs]. intros c. apply slug_char_legal.
      * constructor; [reflexivity|]. constructor; [reflexivity|].
        apply sanitize_filename_legal.
  - fold slug in Hsl. lia.
  - intros Hi. rewrite Hlen, (format_02d_small Hi). fold slug in Hsl. lia.
  - intros Hlf. rewrite E. unfold matches_pattern.
    rewrite span_digits_prefix by (assumption || reflexivity).
    apply Nat.leb_le in Hl. rewrite Hl. cbn [andb]. rewrite N.eqb_refl. cbn [andb].
    destruct safe as [|c rest]; [simpl in Hsafe; lia|].
    apply match_slug_tail_slug; auto.
Qed.

Lemma stored_filename_shape_witness :
  7 < 100 /\
  length (final_filename 7 (create_query_slug (py "Lot 7 Sunset-Ridge"))
            (Some (py "deed:7.pdf"))) <= 255.
Proof.
  split; [lia|].
  apply (stored_filename_shape 7 (py "Lot 7 Sunset-Ridge") (Some (py "deed:7.pdf"))).
  lia.
Defined.

(** ** Idempotence *)

(** C9, as stated, fails for the slug: the underscore that stands for white
    space is itself deleted by a second pass. *)
Lemma slug_not_fixed_point :
  create_query_slug (py "Lot 7") = py "Lot_7"
  /\ create_query_slug (create_query_slug (py "Lot 7")) = py "Lot7"
  /\ create_query_slug (create_query_slug (py "Lot 7"))
     <> create_query_slug (py "Lot 7").
Proof. repeat split; try reflexivity. discriminate. Qed.

(** C9 (amended): [sanitize_filename] is a fixed point on its own outputs;
    [create_query_slug] applied to a slug deletes its underscores and
    changes nothing else, so a slug is a fixed point exactly when it has no
    underscore. *)
Theorem sanitizers_on_own_outputs :
  (forall s, sanitize_filename (sanitize_filename s) = sanitize_filename s)
  /\ (forall q, create_query_slug (create_query_slug q)
                = filter not_underscore (create_query_slug q))
  /\ (forall q, create_query_slug (create_query_slug q) = create_query_slug q
                <-> ~ In Chr.underscore (create_query_slug q)).
Proof.
  assert (S2 : forall q, create_query_slug (create_query_slug q)
                         = filter not_underscore (create_query_slug q)).
  { intros q. apply create_query_slug_of_slug.
    - apply create_query_slug_chars.
    - apply create_query_slug_length. }
  split; [|split; [exact S2|]].
  - intros s. apply sanitize_legal_short.
    + apply sanitize_filename_legal.
    + rewrite sanitize_filename_length. lia.
  - intros q. rewrite S2. split.
    + intros H Hin. apply filter_fixed in H. rewrite Forall_forall in H.
      specialize (H _ Hin). discriminate H.
    + intros H. apply filter_fixed, Forall_forall. intros c Hc.
      unfold not_underscore.
      destruct (N.eqb_spec c Chr.underscore); [subst; contradiction | reflexivity].
Qed.

(** * Properties of the engine and of the orchestrator *)

Section Reasoning.
Context {W : Type} (B : Browser W).
Variable quote : pystr -> pystr.

Lemma always_ret {A} P (a : A) : always P (ret a : M W A).
Proof. intros w. constructor. Qed.

Lemma always_raise {A} P e : always P (@raise W A e).
Proof. intros w. constructor. Qed.

Lemma always_observe {A} P (f : W -> A) : always P (observe f : M W A).
Proof. intros w. constructor. Qed.

Lemma always_log P m : P (EvLog m) -> always P (@log W m).
Proof. intros H w. repeat constructor. exact H. Qed.

Lemma always_call {A} P (a : action A) :
  (forall r, P (Ev a r)) -> always P (call B a).
Proof.
  intros H w. unfold call, events. destruct (exec B a w). simpl.
  repeat constructor. apply H.
Qed.

Lemma always_bind {A C} P (m : M W A) (k : A -> M W C) :
  always P m -> (forall a, always P (k a)) -> always P (bind m k).
Proof.
  intros Hm Hk w. unfold bind, events. specialize (Hm w). unfold events in Hm.
  destruct (m w) as [[[a|e] w1] t1]; simpl in *; [|assumption].
  specialize (Hk a w1). unfold events in Hk.
  destruct (k a w1) as [[r w2] t2]. simpl in *. apply Forall_app. now split.
Qed.

Lemma always_try_except {A} P c (m : M W A) h :
  always P m -> (forall e, always P (h e)) -> always P (try_except c m h).
Proof.
  intros Hm Hh w. unfold try_except, events. specialize (Hm w).
  unfold events in Hm.
  destruct (m w) as [[[a|e] w1] t1]; simpl in *; [assumption|].
  destruct (c e); simpl; [|assumption].
  specialize (Hh e w1). unfold events in Hh.
  destruct (h e w1) as [[r w2] t2]. simpl in *. apply Forall_app. now split.
Qed.

Lemma always_attempt {A} P (m : M W A) : always P m -> always P (attempt m).
Proof.
  intros Hm w. specialize (Hm w). unfold attempt, events in *.
  destruct (m w) as [[r w1] t1]. exact Hm.
Qed.

Lemma always_lift {A} P (r : result A) : always P (@lift W A r).
Proof. destruct r; [apply always_ret | apply always_raise]. Qed.

Lemma always_wait_for {A} P fired timeout (m : M W A) :
  P (EvWaitFor timeout) -> always P m -> always P (wait_for fired timeout m).
Proof.
  intros Ht Hm w. specialize (Hm w). unfold wait_for, events in *.
  destruct timeout as [|n]; [now repeat constructor|].
  destruct (m w) as [[r w1] t1]. simpl in *. now constructor.
Qed.

Lemma always_run {A} P (m : M W A) w r w' tr :
  always P m -> m w = (r, w', tr) -> Forall P tr.
Proof. intros H E. specialize (H w). now rewrite E in H. Qed.
Arguments always_run {A P m w r w' tr}.

(** *** The check for the affordance *)

Lemma frames_download_visible_run page frames : forall w r w' tr,
  frames_download_visible B page frames w = (r, w', tr) ->
  r = Ok (existsb affordance_seen tr)
  /\ Forall (fun e => primary_or_frame_probe page e = true) tr
  /\ (r = Ok false ->
      map probed tr = map (fun f => Some (OnFrame f)) (nested_frames page frames)).
Proof.
  induction frames as [|frame frames IH]; intros w r w' tr H; cbn in H.
  - inversion H. repeat split; constructor.
  - cbn [nested_frames filter]. fold (nested_frames page frames).
    destruct (frame =? main_frame page) eqn:Em; [now apply (IH _ _ _ _ H)|].
    assert (P : forall r0, primary_or_frame_probe page
              (Ev (IsVisible (OnFrame frame) role_download_first) r0) = true).
    { intros r0. unfold primary_or_frame_probe. cbn. now rewrite Em. }
    unfold bind, try_except, call in H.
    destruct (exec B (IsVisible (OnFrame frame) role_download_first) w)
      as [[[|]|e] w1]; cbn in H.
    + inversion H; subst. repeat split; [now repeat constructor | discriminate].
    + destruct (frames_download_visible B page frames w1) as [[r2 w2] t2] eqn:E.
      apply IH in E. destruct E as [E1 [E2 E3]]. inversion H; subst.
      repeat split; [now constructor|]. intros Hr. cbn. f_equal. now apply E3.
    + destruct (frames_download_visible B page frames w1) as [[r2 w2] t2] eqn:E.
      apply IH in E. destruct E as [E1 [E2 E3]]. inversion H; subst.
      repeat split; [now constructor|]. intros Hr. cbn. f_equal. now apply E3.
Qed.

Lemma is_authenticated_run page w r w' tr :
  _is_authenticated B page w = (r, w', tr) ->
  r = Ok (existsb affordance_seen tr).
Proof.
  unfold _is_authenticated, try_except, bind, call, observe. intros H.
  destruct (exec B (IsVisible (OnPage (page_id page)) role_download_first) w)
    as [[[|]|e] w1]; cbn in H.
  - now inversion H.
  - destruct (frames_download_visible B page (page_frames B w1) w1)
      as [[r2 w2] t2] eqn:E.
    apply frames_download_visible_run in E. destruct E as [E _]. subst r2.
    cbn in H. now inversion H.
  - now inversion H.
Qed.

(** *** Decomposing a run *)

Lemma bind_run {A C} (m : M W A) (k : A -> M W C) w r w' tr :
  bind m k w = (r, w', tr) ->
  (exists a w1 t1 t2,
      m w = (Ok a, w1, t1) /\ k a w1 = (r, w', t2) /\ tr = t1 ++ t2)
  \/ (exists e, m w = (Raise e, w', tr) /\ r = Raise e).
Proof.
  unfold bind. destruct (m w) as [[[a|e] w1] t1].
  - destruct (k a w1) as [[r2 w2] t2] eqn:E. intros H. inversion H; subst.
    left. now exists a, w1, t1, t2.
  - intros H. inversion H; subst. right. now exists e.
Qed.

Lemma try_except_run {A} c (m : M W A) h w r w' tr :
  try_except c m h w = (r, w', tr) ->
  (exists a, m w = (Ok a, w', tr) /\ r = Ok a)
  \/ (exists e, m w = (Raise e, w', tr) /\ r = Raise e /\ c e = false)
  \/ (exists e w1 t1 t2,
        m w = (Raise e, w1, t1) /\ c e = true /\
        h e w1 = (r, w', t2) /\ tr = t1 ++ t2).
Proof.
  unfold try_except. destruct (m w) as [[[a|e] w1] t1].
  - intros H. inversion H; subst. left. now exists a.
  - destruct (c e) eqn:Ec.
    + destruct (h e w1) as [[r2 w2] t2] eqn:E. intros H. inversion H; subst.
      right. right. now exists e, w1, t1, t2.
    + intros H. inversion H; subst. right. left. now exists e.
Qed.

Lemma call_run {A} (a : action A) w r w' tr :
  call B a w = (r, w', tr) -> tr = [Ev a r] /\ exec B a w = (r, w').
Proof.
  unfold call. destruct (exec B a w) as [r1 w1]. intros H.
  inversion H; subst. now split.
Qed.

Lemma ret_run {A} (a : A) (w : W) r w' tr :
  ret a w = (r, w', tr) -> r = Ok a /\ w' = w /\ tr = [].
Proof. unfold ret. intros H. inversion H. auto. Qed.

Lemma bind_ret_l {A C} (a : A) (k : A -> M W C) w : bind (ret a) k w = k a w.
Proof. unfold bind, ret. now destruct (k a w) as [[r w1] t1]. Qed.

Lemma existsb_false_app {A} (f : A -> bool) l1 l2 :
  existsb f (l1 ++ l2) = false -> existsb f l1 = false /\ existsb f l2 = false.
Proof. rewrite existsb_app. apply orb_false_iff. Qed.

Lemma kind_eqb_eq a b : kind_eqb a b = true <-> a = b.
Proof. destruct a, b; simpl; split; congruence. Qed.

Lemma of_kinds_weaken ks ks' e :
  forallb (has_kind ks') ks = true -> of_kinds ks e -> of_kinds ks' e.
Proof.
  unfold of_kinds, has_kind at 2. intros Hi H.
  apply existsb_exists in H. destruct H as [k [Hk E]].
  apply kind_eqb_eq in E. subst k.
  rewrite forallb_forall in Hi. now apply Hi.
Qed.

Lemma always_weaken {A} (P Q : event -> Prop) (m : M W A) :
  (forall e, P e -> Q e) -> always P m -> always Q m.
Proof. intros H Hm w. eapply Forall_impl; [exact H | apply Hm]. Qed.

Lemma always_kinds {A} ks ks' (m : M W A) :
  forallb (has_kind ks') ks = true ->
  always (of_kinds ks) m -> always (of_kinds ks') m.
Proof. intros H. apply always_weaken. intros e. now apply of_kinds_weaken. Qed.

(** Structural steps of a proof that a program only produces events of
    some kinds; [sub] closes the goals for the programs called. *)
Ltac invariant_step ev sub :=
  first
    [ solve [sub]
    | apply always_ret | apply always_raise | apply always_observe
    | apply always_lift
    | apply always_log; ev
    | apply always_call; intros; ev
    | apply always_attempt
    | apply always_wait_for; [ev|]
    | apply always_bind; [|intros ?]
    | apply always_try_except; [|intros ?]
    | match goal with
      | |- always _ (if ?b then _ else _) => destruct b
      | |- always _ (match ?x with _ => _ end) => destruct x
      | |- always _ (let (_, _) := ?x in _) => destruct x
      end ].

Ltac kinds_step sub := invariant_step ltac:(reflexivity) sub.

Ltac kinds sub := repeat kinds_step sub.

Ltac by_kinds L := (eapply always_kinds; [|apply L]; reflexivity).

Ltac loop_kinds IH := kinds ltac:(apply IH).

Lemma frames_download_visible_kinds page frames :
  always (of_kinds [Probe]) (frames_download_visible B page frames).
Proof. induction frames as [|f frames IH]; cbn; loop_kinds IH. Qed.

Lemma is_authenticated_kinds page :
  always (of_kinds [Probe]) (_is_authenticated B page).
Proof.
  unfold _is_authenticated. kinds ltac:(apply frames_download_visible_kinds).
Qed.

Lemma any_selector_present_kinds t sels :
  always (of_kinds [Probe]) (any_selector_present B t sels).
Proof. induction sels as [|s sels IH]; cbn; loop_kinds IH. Qed.

Lemma frames_have_login_forms_kinds page frames :
  always (of_kinds [Probe]) (frames_have_login_forms B page frames).
Proof.
  induction frames as [|f frames IH]; cbn;
    kinds ltac:(apply IH || apply any_selector_present_kinds).
Qed.

Lemma has_login_forms_kinds page :
  always (of_kinds [Probe]) (_has_login_forms B page).
Proof.
  unfold _has_login_forms.
  kinds ltac:(apply frames_have_login_forms_kinds
              || apply any_selector_present_kinds).
Qed.

Lemma first_visible_kinds t sels act :
  (forall s, always (of_kinds [Probe; Act; Note]) (act s)) ->
  always (of_kinds [Probe; Act; Note]) (first_visible B t sels act).
Proof.
  intros Hact. induction sels as [|s sels IH]; cbn;
    kinds ltac:(apply IH || apply Hact).
Qed.

Lemma fill_login_form_kinds t :
  always (of_kinds [Probe; Act; Note]) (_fill_login_form B t).
Proof.
  unfold _fill_login_form.
  kinds ltac:(apply first_visible_kinds; intros; kinds idtac).
Qed.

Lemma popups_handle_login_kinds popups :
  always (of_kinds [Probe; Act; Note]) (popups_handle_login B popups).
Proof.
  induction popups as [|p popups IH]; cbn;
    kinds ltac:(apply IH || apply fill_login_form_kinds).
Qed.

Lemma frames_handle_login_kinds page frames :
  always (of_kinds [Probe; Act; Note]) (frames_handle_login B page frames).
Proof.
  induction frames as [|f frames IH]; cbn;
    kinds ltac:(apply IH || apply fill_login_form_kinds).
Qed.

Lemma handle_login_kinds page :
  always (of_kinds [Probe; Act; Note]) (_handle_login B page).
Proof.
  unfold _handle_login.
  kinds ltac:(apply fill_login_form_kinds || apply popups_handle_login_kinds
              || apply frames_handle_login_kinds
              || by_kinds has_login_forms_kinds).
Qed.

Lemma auth_attempts_kinds page n : forall k,
  always (of_kinds [Probe; Act; Note; Pause; LoginReport])
    (auth_attempts B page n k).
Proof.
  induction n as [|n IH]; intros k; cbn;
    kinds ltac:(apply IH || by_kinds is_authenticated_kinds
                || by_kinds has_login_forms_kinds
                || by_kinds handle_login_kinds).
Qed.

Lemma ensure_authenticated_kinds page timeout :
  always (of_kinds [Probe; Act; Note; Pause; LoginReport; Timer])
    (ensure_authenticated B page timeout).
Proof.
  unfold ensure_authenticated, _auth_loop.
  kinds ltac:(by_kinds auth_attempts_kinds).
Qed.

(** C2 (amended): on every check the engine probes the primary document
    and, when the affordance is not visible there, the nested frames of
    the primary page in order until one shows it; it probes nothing else,
    so a popup window is never scanned.  The check is positive exactly
    when one of these probes sees the affordance, and a negative check
    whose probe of the primary document answered has probed the primary
    document and every nested frame. *)
Theorem affordance_check_scans_page_and_frames page w r w' tr :
  _is_authenticated B page w = (r, w', tr) ->
  Forall (fun e => primary_or_frame_probe page e = true) tr
  /\ r = Ok (existsb affordance_seen tr)
  /\ (forall w1,
        exec B (IsVisible (OnPage (page_id page)) role_download_first) w
        = (Ok false, w1) ->
        r = Ok false ->
        map probed tr
        = map Some (OnPage (page_id page)
                    :: map OnFrame (nested_frames page (page_frames B w1)))).
Proof.
  intros H. split; [|split; [now apply is_authenticated_run in H|]].
  - unfold _is_authenticated, try_except, bind, call, observe in H.
    assert (P : forall r0, primary_or_frame_probe page
              (Ev (IsVisible (OnPage (page_id page)) role_download_first) r0)
              = true).
    { intros r0. unfold primary_or_frame_probe. cbn. apply Nat.eqb_refl. }
    destruct (exec B (IsVisible (OnPage (page_id page)) role_download_first) w)
      as [[[|]|e] w1]; cbn in H.
    + inversion H; subst. now repeat constructor.
    + destruct (frames_download_visible B page (page_frames B w1) w1)
        as [[r2 w2] t2] eqn:E.
      apply frames_download_visible_run in E. destruct E as [E1 [E2 _]].
      subst r2. cbn in H. inversion H; subst. now constructor.
    + inversion H; subst. now repeat constructor.
  - intros w1 E1 Hr.
    unfold _is_authenticated, try_except, bind, call, observe in H.
    rewrite E1 in H. cbn in H.
    destruct (frames_download_visible B page (page_frames B w1) w1)
      as [[r2 w2] t2] eqn:E.
    apply frames_download_visible_run in E. destruct E as [E2 [_ E3]].
    subst r2. cbn in H. inversion H; subst. cbn. f_equal.
    rewrite map_map. apply E3. congruence.
Qed.

(** *** What the kinds tell *)

Lemma login_action_kind e : is_login_action e = true -> kind_of e = Act.
Proof. destruct e as [A a r|t|m]; [destruct a|..]; cbn; congruence. Qed.

Lemma save_kind e : is_save e = true -> kind_of e = Save.
Proof. destruct e as [A a r|t|m]; [destruct a|..]; cbn; congruence. Qed.

Lemma login_report_kind e : is_login_report e = true -> kind_of e = LoginReport.
Proof.
  destruct e as [A a r|t|m]; [destruct a|..|destruct m]; cbn; congruence.
Qed.

Lemma timer_kind e : is_timer e = true -> kind_of e = Timer.
Proof. destruct e as [A a r|t|m]; [destruct a|..|destruct m]; cbn; congruence. Qed.

Lemma own_timeout_kind e :
  has_own_timeout e = true ->
  kind_of e = Navigation \/ kind_of e = Enumeration \/ kind_of e = Capture.
Proof.
  destruct e as [A a r|t|m]; [destruct a|..]; cbn; intros; try discriminate; auto.
Qed.

Lemma sleep_kind e : seconds_slept e <> 0 -> kind_of e = Pause.
Proof.
  destruct e as [A a r|t|m]; [destruct a|..|destruct m]; cbn; congruence.
Qed.

Lemma row_found_kind e : row_found e = true -> kind_of e = Enumeration.
Proof.
  destruct e as [A a r|t|m]; [destruct a|..|destruct m]; cbn; congruence.
Qed.

Lemma goto_kind e : is_goto e = true -> kind_of e = Navigation.
Proof. destruct e as [A a r|t|m]; [destruct a|..]; cbn; congruence. Qed.

(** An event of kinds [ks] fails a test [f] that only events of a kind
    outside [ks] pass. *)
Lemma of_kinds_excludes (f : event -> bool) k ks e :
  (forall e, f e = true -> kind_of e = k) ->
  has_kind ks k = false -> of_kinds ks e -> f e = false.
Proof.
  intros Hf Hk He. destruct (f e) eqn:E; [|reflexivity].
  apply Hf in E. unfold of_kinds in He. congruence.
Qed.

Lemma Forall_excludes (f : event -> bool) k ks tr :
  (forall e, f e = true -> kind_of e = k) ->
  has_kind ks k = false -> Forall (of_kinds ks) tr ->
  Forall (fun e => f e = false) tr.
Proof.
  intros Hf Hk. apply Forall_impl. intros e. now apply of_kinds_excludes with k.
Qed.

Lemma existsb_none {A} (f : A -> bool) l :
  Forall (fun x => f x = false) l -> existsb f l = false.
Proof. induction 1 as [|x l Hx _ IH]; cbn; [reflexivity | now rewrite Hx]. Qed.


(** *** The login-form probes *)

Lemma any_selector_present_run t sels : forall w r w' tr,
  any_selector_present B t sels w = (r, w', tr) ->
  match r with
  | Ok true => existsb login_form_seen tr = true
  | Ok false => True
  | Raise e => exists l, In (Ev (Count t l) (Raise e)) tr
  end.
Proof.
  induction sels as [|s sels IH]; intros w r w' tr H; cbn in H.
  - now inversion H.
  - unfold bind, call in H.
    destruct (exec B (Count t s) w) as [[n|e] w1]; cbn in H.
    + destruct n as [|n]; cbn in H.
      * destruct (any_selector_present B t sels w1) as [[r2 w2] t2] eqn:E.
        apply IH in E. inversion H; subst.
        destruct r as [[|]|e]; auto.
        destruct E as [l Hl]. exists l. now right.
      * now inversion H.
    + inversion H; subst. exists s. now left.
Qed.

Lemma frames_have_login_forms_run page frames : forall w r w' tr,
  frames_have_login_forms B page frames w = (r, w', tr) ->
  exists b, r = Ok b /\ (b = true -> existsb login_form_seen tr = true).
Proof.
  induction frames as [|f frames IH]; intros w r w' tr H;
    cbn [frames_have_login_forms] in H.
  - inversion H. exists false. split; [reflexivity | discriminate].
  - destruct (f =? main_frame page); [now apply (IH _ _ _ _ H)|].
    unfold bind, try_except in H.
    destruct (any_selector_present B (OnFrame f) login_selectors w)
      as [[[[|]|e] w1] t1] eqn:E; cbn in H.
    + apply any_selector_present_run in E. inversion H; subst.
      exists true. split; [reflexivity|]. intros _. now rewrite app_nil_r.
    + destruct (frames_have_login_forms B page frames w1) as [[r2 w2] t2] eqn:E2.
      apply IH in E2. destruct E2 as [b [-> Hb]]. inversion H; subst.
      exists b. split; [reflexivity|]. intros Hbt.
      rewrite existsb_app, (Hb Hbt). apply orb_true_r.
    + destruct (frames_have_login_forms B page frames w1) as [[r2 w2] t2] eqn:E2.
      apply IH in E2. destruct E2 as [b [-> Hb]]. inversion H; subst.
      exists b. split; [reflexivity|]. intros Hbt.
      rewrite !existsb_app, (Hb Hbt). apply orb_true_r.
Qed.

Lemma has_login_forms_run page w r w' tr :
  _has_login_forms B page w = (r, w', tr) ->
  match r with
  | Ok true => existsb login_form_seen tr = true
  | Ok false => True
  | Raise Error => existsb (crashed page) tr = true
  | Raise _ => True
  end.
Proof.
  unfold _has_login_forms, bind, observe. intros H.
  destruct (any_selector_present B (OnPage (page_id page)) login_selectors w)
    as [[[[|]|e] w1] t1] eqn:E; cbn in H;
    apply any_selector_present_run in E.
  - inversion H; subst. now rewrite app_nil_r.
  - destruct (frames_have_login_forms B page (page_frames B w1) w1)
      as [[r2 w2] t2] eqn:E2.
    apply frames_have_login_forms_run in E2. destruct E2 as [b [-> Hb]].
    inversion H; subst. destruct b; [|exact I].
    rewrite existsb_app, Hb by reflexivity. apply orb_true_r.
  - inversion H; subst. destruct e; try exact I.
    destruct E as [l Hl]. apply existsb_exists. eexists. split; [exact Hl|].
    cbn. apply Nat.eqb_refl.
Qed.

(** An attempt loop that sees neither the affordance nor a login form, and
    in which no unguarded call fails, ends in a time-out or is cancelled. *)
Lemma auth_attempts_idle page n : forall k w r w' tr,
  auth_attempts B page n k w = (r, w', tr) ->
  existsb affordance_seen tr = false ->
  existsb login_form_seen tr = false ->
  existsb (crashed page) tr = false ->
  r = Raise TimeoutError \/ r = Raise CancelledError.
Proof.
  induction n as [|n IH]; intros k w r w' tr H Ha Hf Hc;
    cbn [auth_attempts] in H.
  - inversion H. now left.
  - apply bind_run in H.
    destruct H as [(a & w1 & t1 & t2 & E1 & E2 & ->)|(e & E1 & ->)].
    2:{ apply is_authenticated_run in E1. discriminate. }
    apply is_authenticated_run in E1.
    apply existsb_false_app in Ha. destruct Ha as [Ha1 Ha2].
    apply existsb_false_app in Hf. destruct Hf as [_ Hf].
    apply existsb_false_app in Hc. destruct Hc as [_ Hc].
    rewrite Ha1 in E1. injection E1 as ->.
    apply bind_run in E2.
    destruct E2 as [(forms & w2 & t3 & t4 & E2 & E3 & ->)|(e & E2 & ->)].
    2:{ apply has_login_forms_run in E2. destruct e; auto. congruence. }
    apply has_login_forms_run in E2.
    apply existsb_false_app in Ha2. destruct Ha2 as [_ Ha2].
    apply existsb_false_app in Hf. destruct Hf as [Hf1 Hf2].
    apply existsb_false_app in Hc. destruct Hc as [_ Hc].
    destruct forms; [congruence|].
    cbv beta iota in E3. rewrite bind_ret_l in E3.
    apply bind_run in E3.
    destruct E3 as [(u & w3 & t5 & t6 & E3 & E4 & E5)|(e & E3 & ->)].
    + apply call_run in E3. destruct E3 as [-> _]. subst t4.
      cbn in Ha2, Hf2, Hc. destruct u.
      eapply IH; eauto.
    + apply call_run in E3. destruct E3 as [-> _].
      destruct e; auto. cbn in Hc. discriminate.
Qed.

(** *** Sleeping *)

Lemma total_sleep_app a b : total_sleep (a ++ b) = total_sleep a + total_sleep b.
Proof.
  unfold total_sleep. induction a as [|e a IH]; cbn [app fold_right]; lia.
Qed.

Lemma sleeps_weaken {A} n n' (m : M W A) :
  n <= n' -> sleeps_at_most n m -> sleeps_at_most n' m.
Proof. intros L H w. specialize (H w). lia. Qed.

Lemma sleeps_bind {A C} n1 n2 (m : M W A) (k : A -> M W C) :
  sleeps_at_most n1 m -> (forall a, sleeps_at_most n2 (k a)) ->
  sleeps_at_most (n1 + n2) (bind m k).
Proof.
  intros Hm Hk w. specialize (Hm w). unfold bind, events in *.
  destruct (m w) as [[[a|e] w1] t1]; cbn [snd] in *; [|lia].
  specialize (Hk a w1). unfold events in Hk.
  destruct (k a w1) as [[r w2] t2]. cbn [snd] in *.
  rewrite total_sleep_app. lia.
Qed.

Lemma sleeps_kinds {A} ks (m : M W A) :
  has_kind ks Pause = false -> always (of_kinds ks) m -> sleeps_at_most 0 m.
Proof.
  intros Hk Hm w. specialize (Hm w).
  induction Hm as [|e t He _ IH]; [cbn; lia|].
  change (seconds_slept e + total_sleep t <= 0).
  destruct (Nat.eq_dec (seconds_slept e) 0) as [E|E]; [lia|].
  apply sleep_kind in E. unfold of_kinds in He. congruence.
Qed.

Lemma sleeps_call s : sleeps_at_most s (call B (Sleep s)).
Proof.
  intros w. unfold call, events. destruct (exec B (Sleep s) w). cbn. lia.
Qed.

Lemma sleeps_ret {A} (a : A) : sleeps_at_most 0 (ret a : M W A).
Proof. intros w. cbn. lia. Qed.

Lemma auth_attempts_sleeps page n : forall k,
  sleeps_at_most (n * 5) (auth_attempts B page n k).
Proof.
  induction n as [|n IH]; intros k; cbn [auth_attempts].
  - intros w. cbn. lia.
  - apply sleeps_weaken with (0 + (0 + (3 + (2 + n * 5)))); [lia|].
    apply sleeps_bind.
    { apply sleeps_kinds with [Probe]; [reflexivity | apply is_authenticated_kinds]. }
    intros [|].
    { apply sleeps_weaken with 0; [lia|].
      apply sleeps_kinds with [Note]; [reflexivity | kinds idtac]. }
    apply sleeps_bind.
    { apply sleeps_kinds with [Probe]; [reflexivity | apply has_login_forms_kinds]. }
    intros forms. apply sleeps_bind.
    + destruct forms; [|apply sleeps_weaken with 0; [lia | apply sleeps_ret]].
      apply sleeps_weaken with (0 + (0 + (3 + 0))); [lia|].
      apply sleeps_bind.
      { apply sleeps_kinds with [Note]; [reflexivity | kinds idtac]. }
      intros _. apply sleeps_bind.
      { apply sleeps_kinds with [Probe; Act; Note];
          [reflexivity | apply handle_login_kinds]. }
      intros [|]; [|apply sleeps_weaken with 0; [lia | apply sleeps_ret]].
      apply sleeps_bind; [apply sleeps_call|]. intros _.
      apply sleeps_kinds with [Probe; Note; LoginReport]; [reflexivity|].
      kinds ltac:(by_kinds is_authenticated_kinds).
    + intros [|].
      * apply sleeps_weaken with 0; [lia | apply sleeps_ret].
      * apply sleeps_bind; [apply sleeps_call | intros _; apply IH].
Qed.

(** *** The single time-out guard *)

Lemma ensure_authenticated_run page timeout w r w' tr :
  ensure_authenticated B page timeout w = (r, w', tr) ->
  (timeout = 0 /\ r = Ok (false, false) /\ w' = w
   /\ tr = [EvWaitFor 0; EvLog (LogAuthenticationTimedOut 0)])
  \/ (0 < timeout /\
      exists r0 t0,
        auth_attempts B page 6 0 w = (r0, w', t0) /\
        ((exists b, r0 = Ok b /\ r = Ok (true, b)
                    /\ tr = EvWaitFor timeout :: t0)
         \/ (r0 = Raise Error /\ r = Raise Error
             /\ tr = EvWaitFor timeout :: t0)
         \/ (r0 = Raise CancelledError /\ timer_fired B w' = false
             /\ r = Raise CancelledError /\ tr = EvWaitFor timeout :: t0)
         \/ ((r0 = Raise TimeoutError
              \/ (r0 = Raise CancelledError /\ timer_fired B w' = true)) /\
             r = Ok (false, false) /\
             tr = EvWaitFor timeout :: t0
                  ++ [EvLog (LogAuthenticationTimedOut timeout)]))).
Proof.
  unfold ensure_authenticated, try_except, bind, wait_for, _auth_loop.
  destruct timeout as [|n].
  { cbn. intros H. inversion H; subst. left. repeat split. }
  destruct (auth_attempts B page 6 0 w) as [[[b|[]] w1] t1]; cbn;
    [| | |destruct (timer_fired B w1) eqn:F; cbn];
    intros H; inversion H; subst; right; (split; [lia|]);
    eexists; eexists; (split; [reflexivity|]).
  - left. exists b. now rewrite app_nil_r.
  - right. left. auto.
  - right. right. right. auto.
  - right. right. right. auto.
  - right. right. left. auto.
Qed.

(** *** Kinds of the orchestrator's events *)

Lemma perform_search_kinds query :
  always (of_kinds [Navigation; Wait]) (perform_search B quote query).
Proof. unfold perform_search. kinds idtac. Qed.

Lemma collect_rows_kinds rows : forall i acc,
  always (of_kinds [Enumeration]) (collect_rows B rows i acc).
Proof.
  induction rows as [|row rows IH]; intros i acc; cbn [collect_rows];
    kinds ltac:(apply IH).
Qed.

Lemma get_search_results_kinds :
  always (of_kinds [Enumeration]) (get_search_results B).
Proof. unfold get_search_results. kinds ltac:(apply collect_rows_kinds). Qed.

Lemma save_session_kinds : always (of_kinds [Save]) (save_session B).
Proof. unfold save_session. kinds idtac. Qed.

Lemma recover_kinds url : always (of_kinds [Navigation; Wait]) (recover B url).
Proof. unfold recover. kinds idtac. Qed.

Lemma setup_browser_kinds : always (of_kinds [Setup]) (setup_browser B).
Proof. unfold setup_browser. kinds idtac. Qed.

Lemma download_pdf_from_result_kinds page result slug url :
  always (of_kinds item_kinds) (download_pdf_from_result B page result slug url).
Proof.
  unfold download_pdf_from_result.
  kinds ltac:(by_kinds ensure_authenticated_kinds || by_kinds save_session_kinds).
Qed.

Lemma process_results_kinds page results slug url : forall acc,
  always (of_kinds item_kinds) (process_results B page results slug url acc).
Proof.
  induction results as [|result results IH]; intros acc;
    cbn [process_results];
    kinds ltac:(apply IH || apply download_pdf_from_result_kinds
                || by_kinds recover_kinds).
Qed.

(** *** The single time-out guard, in an invocation and at its call *)

Lemma ensure_authenticated_timer page timeout :
  always (fun e => is_timer e = true -> e = EvWaitFor timeout)
    (ensure_authenticated B page timeout).
Proof.
  assert (L : always (fun e => is_timer e = true -> e = EvWaitFor timeout)
                (auth_attempts B page 6 0)).
  { apply always_weaken
      with (P := of_kinds [Probe; Act; Note; Pause; LoginReport]);
      [|apply auth_attempts_kinds].
    intros e K X. apply timer_kind in X. unfold of_kinds in K.
    rewrite X in K. discriminate K. }
  unfold ensure_authenticated, _auth_loop.
  repeat invariant_step ltac:(intros; cbn in *; congruence) ltac:(exact L).
Qed.

(** C3 (amended): an invocation that never sees the affordance nor a
    login-form signal, and in which no call outside a [try] fails with an
    error of the browser, returns exactly [(False, False)], unless the
    task is cancelled from outside, which leaves it as a cancellation.
    Every invocation arms one timer, with the time-out it was given,
    around the whole loop; no step of the loop carries a time-out of its
    own; the loop sleeps at most 6 x 5 seconds; and the one call of the
    engine, in [download_pdf_from_result], gives it a time-out of 30
    seconds. *)
Theorem single_timeout_guard page timeout w r w' tr :
  ensure_authenticated B page timeout w = (r, w', tr) ->
  (existsb affordance_seen tr = false ->
   existsb login_form_seen tr = false ->
   existsb (crashed page) tr = false ->
   r = Ok (false, false)
   \/ (r = Raise CancelledError /\ timer_fired B w' = false))
  /\ filter is_timer tr = [EvWaitFor timeout]
  /\ existsb has_own_timeout tr = false
  /\ total_sleep tr <= 6 * 5
  /\ (forall result slug url w1 r1 w2 t1,
        download_pdf_from_result B page result slug url w1 = (r1, w2, t1) ->
        Forall (fun e => is_timer e = true -> e = EvWaitFor 30) t1).
Proof.
  intros H.
  assert (Call : forall result slug url w1 r1 w2 t1,
            download_pdf_from_result B page result slug url w1 = (r1, w2, t1) ->
            Forall (fun e => is_timer e = true -> e = EvWaitFor 30) t1).
  { intros result slug url w1 r1 w2 t1 E.
    eapply always_run; [|exact E]. unfold download_pdf_from_result.
    repeat invariant_step
      ltac:(intros; cbn in *; congruence)
      ltac:(first [ apply ensure_authenticated_timer
                  | apply always_weaken with (P := of_kinds [Save]);
                    [|apply save_session_kinds];
                    intros e K X; apply timer_kind in X;
                    unfold of_kinds in K; rewrite X in K; discriminate K ]). }
  apply ensure_authenticated_run in H.
  destruct H as [(-> & -> & -> & ->)|(Pos & r0 & t0 & E & H)].
  { split; [intros _ _ _; now left|]. repeat split; try reflexivity.
    - cbn. lia.
    - exact Call. }
  pose proof (auth_attempts_kinds page 6 0 w) as K. rewrite E in K.
  cbn [events snd] in K.
  pose proof (auth_attempts_sleeps page 6 0 w) as S. rewrite E in S.
  cbn [events snd] in S.
  assert (T : filter is_timer t0 = []).
  { assert (K1 : Forall (fun e => is_timer e = false) t0)
      by (eapply Forall_excludes; [exact timer_kind | | exact K]; reflexivity).
    clear - K1. induction K1 as [|e t He _ IH]; cbn; [reflexivity|].
    now rewrite He. }
  assert (O : existsb has_own_timeout t0 = false).
  { apply existsb_none. eapply Forall_impl; [|exact K].
    intros e He. destruct (has_own_timeout e) eqn:X; [|reflexivity].
    apply own_timeout_kind in X. unfold of_kinds in He.
    destruct X as [X|[X|X]]; rewrite X in He; discriminate. }
  assert (Tail : forall t, filter is_timer
                   (t0 ++ [EvLog (LogAuthenticationTimedOut t)]) = []).
  { intros t. rewrite filter_app, T. reflexivity. }
  split; [|destruct H as [(b & -> & -> & ->)|[(-> & -> & ->)
                          |[(-> & _ & -> & ->)|(_ & -> & ->)]]];
           cbn [filter is_timer existsb has_own_timeout orb];
           rewrite ?Tail, ?T, ?existsb_app, ?O;
           (split; [reflexivity|]); (split; [reflexivity|]);
           (split; [|exact Call]);
           change (total_sleep (EvWaitFor timeout :: ?t)) with (total_sleep t);
           rewrite ?total_sleep_app; cbn; lia].
  intros Ha Hf Hc.
  destruct H as [(b & -> & -> & ->)|[(-> & -> & ->)
                 |[(-> & F & -> & ->)|(_ & -> & ->)]]];
    [| |right; now split|now left]; exfalso; cbn in Ha, Hf, Hc;
    destruct (auth_attempts_idle _ _ _ _ E Ha Hf Hc); discriminate.
Qed.

(** *** Session saves follow logins *)

Lemma quiet_kinds ks e :
  has_kind ks Save = false -> has_kind ks LoginReport = false ->
  of_kinds ks e -> quiet e.
Proof.
  intros H1 H2 He. split.
  - now apply of_kinds_excludes with Save ks; auto using save_kind.
  - now apply of_kinds_excludes with LoginReport ks; auto using login_report_kind.
Qed.

Lemma always_quiet {A} ks (m : M W A) :
  has_kind ks Save = false -> has_kind ks LoginReport = false ->
  always (of_kinds ks) m -> always quiet m.
Proof. intros H1 H2. apply always_weaken. intros e. now apply quiet_kinds. Qed.

Lemma checkpointed_quiet tr : Forall quiet tr -> checkpointed tr.
Proof. induction 1 as [|e tr [H1 H2] _ IH]; now constructor. Qed.

Lemma checkpointed_app t1 t2 :
  checkpointed t1 -> checkpointed t2 -> checkpointed (t1 ++ t2).
Proof. induction 1; intros H2; cbn; auto; now constructor; auto. Qed.

Lemma checkpointed_login q r t :
  Forall quiet q -> checkpointed t ->
  checkpointed ((q ++ [EvLog LogAuthenticationSuccessful])
                ++ Ev StorageState r :: t).
Proof.
  intros Hq Ht. rewrite <- app_assoc. apply checkpointed_app.
  - now apply checkpointed_quiet.
  - now constructor.
Qed.

Lemma reports_quiet (m : M W bool) :
  always quiet m -> (forall w, outcome (m w) <> Ok true) -> reports_login m.
Proof. intros Hq Hr w. exists (events (m w)). split; [apply Hq | right; auto]. Qed.

Lemma reports_bind_quiet {A} (m : M W A) (k : A -> M W bool) :
  always quiet m -> (forall a, reports_login (k a)) -> reports_login (bind m k).
Proof.
  intros Hm Hk w. specialize (Hm w). unfold bind, outcome, events in *.
  destruct (m w) as [[[a|e] w1] t1]; cbn [fst snd] in *.
  - destruct (Hk a w1) as [q [Hq H]]. unfold outcome, events in H.
    destruct (k a w1) as [[r w2] t2]. cbn [fst snd] in *.
    exists (t1 ++ q). split; [apply Forall_app; now split|].
    destruct H as [[-> ->]|[Hr ->]]; [left | right]; now rewrite ?app_assoc.
  - exists t1. split; [assumption|]. right. split; [discriminate | reflexivity].
Qed.

Lemma reports_bind_reports (m : M W bool) (k : bool -> M W bool) :
  reports_login m -> k true = ret true -> reports_login (k false) ->
  reports_login (bind m k).
Proof.
  intros Hm Ht Hf w. destruct (Hm w) as [q [Hq H]].
  unfold bind, outcome, events in *.
  destruct (m w) as [[[[|]|e] w1] t1]; cbn [fst snd] in *.
  - destruct H as [[_ ->]|[Hr _]]; [|congruence].
    rewrite Ht. cbn. exists q. split; [assumption|]. left.
    now rewrite app_nil_r.
  - destruct H as [[Hr _]|[_ ->]]; [discriminate|].
    destruct (Hf w1) as [q2 [Hq2 H2]]. unfold outcome, events in H2.
    destruct (k false w1) as [[r w2] t2]. cbn [fst snd] in *.
    exists (q ++ q2). split; [apply Forall_app; now split|].
    destruct H2 as [[-> ->]|[Hr ->]]; [left | right]; now rewrite ?app_assoc.
  - destruct H as [[Hr _]|[_ ->]]; [discriminate|].
    exists q. split; [assumption|]. right. split; [discriminate | reflexivity].
Qed.

Ltac quiet_by L :=
  (eapply always_quiet; [| |apply L]; reflexivity).

Lemma auth_attempts_reports page n : forall k,
  reports_login (auth_attempts B page n k).
Proof.
  induction n as [|n IH]; intros k; cbn [auth_attempts].
  - apply reports_quiet; [apply always_raise | discriminate].
  - apply reports_bind_quiet; [quiet_by is_authenticated_kinds|].
    intros [|].
    { apply reports_quiet; [|discriminate].
      eapply always_quiet with (ks := [Note]); [reflexivity..|kinds idtac]. }
    apply reports_bind_quiet; [quiet_by has_login_forms_kinds|].
    intros forms. apply reports_bind_reports; [|reflexivity|].
    + destruct forms; [|apply reports_quiet; [apply always_ret | discriminate]].
      apply reports_bind_quiet.
      { eapply always_quiet with (ks := [Note]); [reflexivity..|kinds idtac]. }
      intros _. apply reports_bind_quiet; [quiet_by handle_login_kinds|].
      intros [|]; [|apply reports_quiet; [apply always_ret | discriminate]].
      apply reports_bind_quiet.
      { eapply always_quiet with (ks := [Pause]); [reflexivity..|kinds idtac]. }
      intros _. apply reports_bind_quiet; [quiet_by is_authenticated_kinds|].
      intros [|]; [|apply reports_quiet; [apply always_ret | discriminate]].
      intros w. exists []. split; [constructor|]. left. now split.
    + apply reports_bind_quiet; [|intros _; apply IH].
      eapply always_quiet with (ks := [Pause]); [reflexivity..|kinds idtac].
Qed.

Lemma ensure_authenticated_reports page timeout :
  reports_just_logged_in (ensure_authenticated B page timeout).
Proof.
  intros w.
  destruct (ensure_authenticated B page timeout w) as [[r w'] tr] eqn:E.
  apply ensure_authenticated_run in E.
  destruct E as [(-> & -> & -> & ->)|(_ & r0 & t0 & E & H)].
  { exists [EvWaitFor 0; EvLog (LogAuthenticationTimedOut 0)].
    split; [now repeat constructor|]. right.
    split; [discriminate | reflexivity]. }
  destruct (auth_attempts_reports page 6 0 w) as [q [Hq Hs]].
  rewrite E in Hs. unfold outcome, events in *. cbn [fst snd] in *.
  assert (Qt : quiet (EvWaitFor timeout)) by now split.
  destruct H as [(b & -> & -> & ->)|[(-> & -> & ->)
                 |[(-> & _ & -> & ->)|(Hr & -> & ->)]]].
  - destruct Hs as [[Hb ->]|[Hb ->]].
    + injection Hb as ->. exists (EvWaitFor timeout :: q).
      split; [now constructor|]. left. now split.
    + exists (EvWaitFor timeout :: q). split; [now constructor|]. right.
      split; [|reflexivity]. intros a Ha. injection Ha as _ ->. congruence.
  - destruct Hs as [[Hb _]|[_ ->]]; [discriminate|].
    exists (EvWaitFor timeout :: q). split; [now constructor|]. right.
    split; [discriminate | reflexivity].
  - destruct Hs as [[Hb _]|[_ ->]]; [discriminate|].
    exists (EvWaitFor timeout :: q). split; [now constructor|]. right.
    split; [discriminate | reflexivity].
  - destruct Hs as [[Hb _]|[_ ->]]; [destruct Hr as [Hr|[Hr _]]; congruence|].
    exists (EvWaitFor timeout :: q ++ [EvLog (LogAuthenticationTimedOut timeout)]).
    split.
    + constructor; [assumption|]. apply Forall_app. split; [assumption|].
      now repeat constructor.
    + right. split; [discriminate | reflexivity].
Qed.

Lemma keeps_quiet {A} (m : M W A) : always quiet m -> keeps_checkpoints m.
Proof. intros H w. apply checkpointed_quiet, H. Qed.

Lemma keeps_bind {A C} (m : M W A) (k : A -> M W C) :
  keeps_checkpoints m -> (forall a, keeps_checkpoints (k a)) ->
  keeps_checkpoints (bind m k).
Proof.
  intros Hm Hk w. specialize (Hm w). unfold bind, events in *.
  destruct (m w) as [[[a|e] w1] t1]; cbn [snd] in *; [|assumption].
  specialize (Hk a w1). unfold events in Hk.
  destruct (k a w1) as [[r w2] t2]. cbn [snd] in *. now apply checkpointed_app.
Qed.

Lemma keeps_try_except {A} c (m : M W A) h :
  keeps_checkpoints m -> (forall e, keeps_checkpoints (h e)) ->
  keeps_checkpoints (try_except c m h).
Proof.
  intros Hm Hh w. specialize (Hm w). unfold try_except, events in *.
  destruct (m w) as [[[a|e] w1] t1]; cbn [snd] in *; [assumption|].
  destruct (c e); cbn [snd]; [|assumption].
  specialize (Hh e w1). unfold events in Hh.
  destruct (h e w1) as [[r w2] t2]. cbn [snd] in *. now apply checkpointed_app.
Qed.

Lemma keeps_attempt {A} (m : M W A) :
  keeps_checkpoints m -> keeps_checkpoints (attempt m).
Proof.
  intros Hm w. specialize (Hm w). unfold attempt, events in *.
  now destruct (m w) as [[r w1] t1].
Qed.

(** After a program that reports logins, a continuation that starts with
    the session save whenever a login is reported keeps the discipline. *)
Lemma keeps_after_login {C} (m : M W (bool * bool)) (k : bool * bool -> M W C) :
  reports_just_logged_in m ->
  (forall w, exists rs t,
      events (k (true, true) w) = Ev StorageState rs :: t /\ checkpointed t) ->
  (forall a, keeps_checkpoints (k (a, false))) ->
  keeps_checkpoints (bind m k).
Proof.
  intros Hm Ht Hf w. destruct (Hm w) as [q [Hq H]].
  unfold bind, outcome, events in *.
  destruct (m w) as [[[[a j]|e] w1] t1]; cbn [fst snd] in *.
  - destruct H as [[Hr ->]|[Hr ->]].
    + injection Hr as -> ->. destruct (Ht w1) as (rs & t & E & Hc).
      destruct (k (true, true) w1) as [[r w2] t2]. cbn [snd] in *. subst t2.
      now apply checkpointed_login.
    + destruct j; [now destruct (Hr a)|].
      specialize (Hf a w1). unfold events in Hf.
      destruct (k (a, false) w1) as [[r w2] t2]. cbn [snd] in *.
      apply checkpointed_app; [now apply checkpointed_quiet | assumption].
  - destruct H as [[Hr _]|[_ ->]]; [discriminate|].
    now apply checkpointed_quiet.
Qed.

Lemma save_session_run w r w' tr :
  save_session B w = (r, w', tr) ->
  exists rs, tr = [Ev StorageState rs]
             /\ (r = Ok tt \/ r = Raise CancelledError).
Proof.
  unfold save_session, try_except, call.
  destruct (exec B StorageState w) as [[[]|[]] w1]; cbn; intros H;
    inversion H; subst; eexists; split; try reflexivity; auto.
Qed.

Lemma download_pdf_from_result_keeps page result slug url :
  keeps_checkpoints (download_pdf_from_result B page result slug url).
Proof.
  unfold download_pdf_from_result.
  apply keeps_try_except; [|intros _; apply keeps_quiet, always_ret].
  apply keeps_bind.
  { apply keeps_quiet. eapply always_quiet with (ks := [Open]);
      [reflexivity..|kinds idtac]. }
  intros _. apply keeps_bind.
  { apply keeps_quiet. eapply always_quiet with (ks := [Wait]);
      [reflexivity..|kinds idtac]. }
  intros _. apply keeps_bind; [apply keeps_quiet, always_observe|].
  intros current_url.
  destruct (negb (contains (py "/doc/") current_url));
    [apply keeps_quiet, always_ret|].
  assert (Rest : forall u : unit,
    always (of_kinds [Probe; Capture; Act; Navigation; Wait])
      (visible <- call B (IsVisible (OnPage (page_id page)) role_download_free) ;;
       if visible
       then
         call B (ExpectDownload 30000%N) ;;;
         call B (Click (OnPage (page_id page)) role_download_free) ;;;
         download <- call B AwaitDownload ;;
         call B (SaveAs download
                   (final_filename (index result) slug
                      (suggested_filename download))) ;;;
         call B (Goto url) ;;;
         call B (WaitForTimeout 2000%N) ;;;
         ret (Some (final_filename (index result) slug
                      (suggested_filename download)))
       else ret None)).
  { intros _. kinds idtac. }
  apply keeps_after_login; [apply ensure_authenticated_reports| |].
  - intros w. cbn [negb]. unfold bind at 1.
    destruct (save_session B w) as [[r1 w1] t1] eqn:E.
    apply save_session_run in E. destruct E as (rs & -> & [->| ->]).
    + pose proof (Rest tt w1) as R. unfold events in R.
      match goal with |- context [(?m w1)] => destruct (m w1) as [[r2 w2] t2] end.
      cbn [snd] in *. exists rs, t2. split; [reflexivity|].
      apply checkpointed_quiet. eapply Forall_impl; [|exact R].
      intros e. now apply quiet_kinds.
    + exists rs, []. split; [reflexivity | constructor].
  - intros [|]; cbn [negb]; [|apply keeps_quiet, always_ret].
    apply keeps_bind; [apply keeps_quiet, always_ret|]. intros u.
    apply keeps_quiet. eapply always_quiet; [| |apply (Rest u)]; reflexivity.
Qed.

(** *** The items loop *)

Lemma attempt_run {A} (m : M W A) w r w' tr :
  attempt m w = (r, w', tr) -> exists r1, r = Ok r1 /\ m w = (r1, w', tr).
Proof.
  unfold attempt. destruct (m w) as [[r1 w1] t1]. intros H.
  inversion H; subst. now exists r1.
Qed.

Lemma recover_run url w r w' tr : recover B url w = (r, w', tr) -> r = Ok tt.
Proof.
  unfold recover. intros H. apply try_except_run in H.
  destruct H as [(a & _ & ->)|[(e & _ & _ & F)|(e & w1 & t1 & t2 & _ & _ & H & _)]].
  - now destruct a.
  - discriminate.
  - now inversion H.
Qed.

Lemma process_results_keeps page results slug url : forall acc,
  keeps_checkpoints (process_results B page results slug url acc).
Proof.
  assert (Q : forall u, keeps_checkpoints (recover B u)).
  { intros u. apply keeps_quiet. eapply always_quiet; [| |apply recover_kinds];
      reflexivity. }
  induction results as [|result results IH]; intros acc; cbn [process_results].
  - apply keeps_quiet, always_ret.
  - apply keeps_bind.
    { apply keeps_attempt, download_pdf_from_result_keeps. }
    intros [fn|e].
    + apply keeps_bind.
      { apply keeps_quiet. eapply always_quiet with (ks := [Wait]);
          [reflexivity..|kinds idtac]. }
      intros [u|e]; [apply IH|].
      destruct (is_exception e); [|apply keeps_quiet, always_raise].
      apply keeps_bind; [apply Q | intros _; apply IH].
    + destruct (is_exception e); [|apply keeps_quiet, always_raise].
      apply keeps_bind; [apply Q | intros _; apply IH].
Qed.

Lemma not_exception e : is_exception e = false -> e = CancelledError.
Proof. now destruct e. Qed.

Lemma process_results_run page results slug url : forall acc w r w' tr,
  process_results B page results slug url acc w = (r, w', tr) ->
  fst acc = length (snd acc) ->
  match r with
  | Ok acc' =>
      fst acc' = length (snd acc') /\ fst acc' <= fst acc + length results
  | Raise e => e = CancelledError
  end.
Proof.
  induction results as [|result results IH]; intros acc w r w' tr H Hacc;
    cbn [process_results] in H.
  - inversion H; subst. cbn. split; [assumption | lia].
  - assert (Next : forall acc1 w1 r1 w2 t1,
              process_results B page results slug url acc1 w1 = (r1, w2, t1) ->
              fst acc1 = length (snd acc1) -> fst acc1 <= S (fst acc) ->
              match r1 with
              | Ok acc' =>
                  fst acc' = length (snd acc')
                  /\ fst acc' <= fst acc + length (result :: results)
              | Raise e => e = CancelledError
              end).
    { intros acc1 w1 r1 w2 t1 E L1 L2. apply IH in E; [|assumption].
      destruct r1; [|assumption]. cbn [length]. destruct E. split; [assumption|lia]. }
    assert (Rec : forall acc1 w1 r1 w2 t1,
              (recover B url ;;;
               process_results B page results slug url acc1) w1 = (r1, w2, t1) ->
              fst acc1 = length (snd acc1) -> fst acc1 <= S (fst acc) ->
              match r1 with
              | Ok acc' =>
                  fst acc' = length (snd acc')
                  /\ fst acc' <= fst acc + length (result :: results)
              | Raise e => e = CancelledError
              end).
    { intros acc1 w1 r1 w2 t1 E L1 L2. apply bind_run in E.
      destruct E as [(u & w3 & t3 & t4 & E1 & E2 & _)|(e & E1 & _)].
      - now apply Next in E2.
      - apply recover_run in E1. discriminate. }
    apply bind_run in H.
    destruct H as [(d & w1 & t1 & t2 & E1 & E2 & _)|(e & E1 & _)].
    2:{ apply attempt_run in E1. destruct E1 as (? & ? & _). discriminate. }
    apply attempt_run in E1. destruct E1 as (d1 & Hd & _).
    injection Hd as ->.
    destruct d1 as [fn|e].
    + set (acc' := match fn with
                   | Some name =>
                       if truthy fn then (S (fst acc), snd acc ++ [name]) else acc
                   | None => acc
                   end) in *.
      assert (L1 : fst acc' = length (snd acc')).
      { unfold acc'. destruct fn as [name|]; [|assumption].
        destruct (truthy (Some name)); [|assumption].
        cbn [fst snd]. rewrite length_app. cbn [length]. lia. }
      assert (L2 : fst acc' <= S (fst acc)).
      { unfold acc'. destruct fn as [name|]; [|lia].
        destruct (truthy (Some name)); cbn [fst]; lia. }
      apply bind_run in E2.
      destruct E2 as [(p & w3 & t3 & t4 & E3 & E4 & _)|(e & E3 & _)].
      2:{ apply attempt_run in E3. destruct E3 as (? & ? & _). discriminate. }
      apply attempt_run in E3. destruct E3 as (p1 & Hp & _).
      injection Hp as ->.
      destruct p1 as [u|e]; [now apply Next in E4|].
      destruct (is_exception e) eqn:Ee; [now apply Rec in E4|].
      inversion E4; subst. now apply not_exception.
    + destruct (is_exception e) eqn:Ee.
      * apply Rec in E2; [assumption.. | lia].
      * inversion E2; subst. now apply not_exception.
Qed.

(** *** Enumeration and the limit *)

Lemma results_found_app a b :
  results_found (a ++ b) = results_found a + results_found b.
Proof. unfold results_found. now rewrite filter_app, length_app. Qed.

Lemma results_found_kinds ks tr :
  has_kind ks Enumeration = false -> Forall (of_kinds ks) tr ->
  results_found tr = 0.
Proof.
  intros Hk H. unfold results_found.
  induction H as [|e t He _ IH]; cbn [filter]; [reflexivity|].
  rewrite (of_kinds_excludes row_found row_found_kind Hk He). exact IH.
Qed.

Lemma collect_rows_run rows : forall i acc w r w' tr,
  collect_rows B rows i acc w = (r, w', tr) ->
  exists res, r = Ok res /\ length res = length acc + results_found tr.
Proof.
  induction rows as [|row rows IH]; intros i acc w r w' tr H;
    cbn [collect_rows] in H.
  - inversion H; subst. exists acc. split; [reflexivity | cbn; lia].
  - unfold bind at 1, try_except, call in H.
    destruct (exec B (TextContent row) w) as [[t|e] w1]; cbn [catch_all] in H.
    + destruct t as [[|c content]|];
        try (destruct (collect_rows B rows (S i) acc w1) as [[r2 w2] t2] eqn:E;
             apply IH in E; destruct E as (res & -> & L);
             inversion H; subst; exists res; split; [reflexivity|];
             cbn [app]; unfold results_found in *; cbn; lia).
      destruct (10 <? length (strip is_space (c :: content))) eqn:Len.
      * match type of H with context [collect_rows B rows (S i) ?a w1] =>
          destruct (collect_rows B rows (S i) a w1) as [[r2 w2] t2] eqn:E end.
        apply IH in E. destruct E as (res & -> & L).
        inversion H; subst. exists res. split; [reflexivity|].
        rewrite length_app in L. cbn [app length] in *.
        unfold results_found in *. cbn [filter row_found]. rewrite Len.
        cbn [length]. lia.
      * destruct (collect_rows B rows (S i) acc w1) as [[r2 w2] t2] eqn:E.
        apply IH in E. destruct E as (res & -> & L).
        inversion H; subst. exists res. split; [reflexivity|].
        cbn [app]. unfold results_found in *. cbn [filter row_found].
        rewrite Len. lia.
    + cbn in H.
      destruct (collect_rows B rows (S i) acc w1) as [[r2 w2] t2] eqn:E.
      apply IH in E. destruct E as (res & -> & L).
      inversion H; subst. exists res. split; [reflexivity|].
      cbn [app]. unfold results_found in *. cbn. lia.
Qed.

Lemma get_search_results_run w r w' tr :
  get_search_results B w = (r, w', tr) ->
  match r with
  | Ok res => length res = results_found tr
  | Raise e => e = CancelledError
  end.
Proof.
  unfold get_search_results. intros H. apply try_except_run in H.
  assert (Body : forall r1 w1 t1,
    (call B (WaitForSelector tr_has_td 10000%N) ;;;
     result_rows <- call B (LocatorAll tr_has_td) ;;
     collect_rows B result_rows 1 []) w = (r1, w1, t1) ->
    match r1 with
    | Ok res => length res = results_found t1
    | Raise _ => results_found t1 = 0
    end).
  { intros r1 w1 t1 E. apply bind_run in E.
    destruct E as [(u & w2 & t2 & t3 & E1 & E2 & ->)|(e & E1 & ->)];
      apply call_run in E1; destruct E1 as [-> _]; [|reflexivity].
    apply bind_run in E2.
    destruct E2 as [(rows & w3 & t4 & t5 & E2 & E3 & ->)|(e & E2 & ->)];
      apply call_run in E2; destruct E2 as [-> _]; [|reflexivity].
    apply collect_rows_run in E3. destruct E3 as (res & -> & L).
    cbn [length] in L. rewrite !results_found_app. cbn. exact L. }
  destruct H as [(a & E & ->)|[(e & E & -> & F)|(e & w1 & t1 & t2 & E & _ & H & ->)]].
  - now apply Body in E.
  - now apply not_exception.
  - apply Body in E. inversion H; subst. rewrite app_nil_r. cbn. lia.
Qed.

Lemma slice_to_length {A} l (rs : list A) :
  length (slice_to l rs) <= length rs
  /\ ((0 < l)%Z -> (Z.of_nat (length (slice_to l rs)) <= l)%Z).
Proof.
  unfold slice_to. destruct (0 <=? l)%Z eqn:E; rewrite length_firstn; split; lia.
Qed.

Lemma apply_limit_length {A} lim (rs : list A) :
  length (apply_limit lim rs) <= length rs
  /\ (forall l, lim = Some l -> (0 < l)%Z ->
        (Z.of_nat (length (apply_limit lim rs)) <= l)%Z).
Proof.
  unfold apply_limit. destruct lim as [l|]; [|split; [lia | discriminate]].
  destruct (negb (l =? 0)%Z && (l <? Z.of_nat (length rs))%Z) eqn:E.
  - destruct (slice_to_length l rs) as [H1 H2]. split; [assumption|].
    intros l0 Hl. now injection Hl as ->.
  - split; [lia|]. intros l0 Hl Hp. injection Hl as ->.
    apply andb_false_iff in E. destruct E as [E|E].
    + apply negb_false_iff, Z.eqb_eq in E. lia.
    + apply Z.ltb_ge in E. lia.
Qed.

(** *** A whole session *)

Lemma perform_search_run query w r w' tr :
  perform_search B quote query w = (r, w', tr) ->
  exists found, r = Ok found \/ r = Raise CancelledError.
Proof.
  unfold perform_search. intros H. apply try_except_run in H.
  destruct H as [(a & _ & ->)|[(e & _ & -> & F)|(e & w1 & t1 & t2 & _ & _ & H & _)]].
  - exists a. now left.
  - exists false. right. f_equal. now apply not_exception.
  - inversion H; subst. exists false. now left.
Qed.

(** What a session leaves behind once the browser runs: a part that keeps
    the discipline of saves, then the end-of-run save if the items loop
    was reached and came to its end. *)
Lemma run_session_run self page query w r w' tr :
  run_session B quote self page query w = (r, w', tr) ->
  Forall (of_kinds (Enumeration :: item_kinds)) tr
  /\ exists body rest,
      tr = body ++ rest /\ checkpointed body
      /\ (rest = [] \/ exists rs, rest = [Ev StorageState rs])
      /\ (results_found tr = 0 -> existsb is_save tr = false)
      /\ match r with
         | Ok rr =>
             count rr = length (files rr)
             /\ count rr <= results_found tr
             /\ (forall l, limit self = Some l -> (0 < l)%Z ->
                   (Z.of_nat (count rr) <= l)%Z)
             /\ (0 < results_found tr -> rest <> [])
         | Raise e => e = CancelledError
         end.
Proof.
  intros H. split.
  { assert (K : always (of_kinds (Enumeration :: item_kinds))
                  (run_session B quote self page query)).
    { unfold run_session.
      kinds ltac:(by_kinds perform_search_kinds
                  || by_kinds get_search_results_kinds
                  || by_kinds process_results_kinds
                  || by_kinds save_session_kinds). }
    now apply (always_run K H). }
  assert (Quiet : forall t, Forall (of_kinds [Navigation; Wait; Enumeration]) t ->
                  checkpointed t /\ existsb is_save t = false).
  { intros t Ht. split.
    - apply checkpointed_quiet. eapply Forall_impl; [|exact Ht].
      intros e. now apply quiet_kinds.
    - apply existsb_none. eapply Forall_excludes; [exact save_kind| |exact Ht].
      reflexivity. }
  unfold run_session in H. apply bind_run in H.
  destruct H as [(found & w1 & t1 & t2 & E1 & E2 & ->)|(e & E1 & ->)].
  2:{ pose proof (always_run (perform_search_kinds query) E1) as K1.
      apply perform_search_run in E1. destruct E1 as [f0 [E1|E1]]; [discriminate|].
      injection E1 as ->.
      assert (K : Forall (of_kinds [Navigation; Wait; Enumeration]) tr).
      { eapply Forall_impl; [|exact K1]. intros e. now apply of_kinds_weaken. }
      destruct (Quiet _ K) as [Q1 Q2].
      exists tr, []. rewrite app_nil_r. repeat split; auto. }
  pose proof (always_run (perform_search_kinds query) E1) as K1.
  assert (F1 : results_found t1 = 0) by now apply results_found_kinds in K1.
  destruct found; cbn [negb] in E2.
  2:{ inversion E2; subst. rewrite app_nil_r.
      assert (K : Forall (of_kinds [Navigation; Wait; Enumeration]) t1).
      { eapply Forall_impl; [|exact K1]. intros e. now apply of_kinds_weaken. }
      destruct (Quiet _ K) as [Q1 Q2].
      exists t1, []. rewrite app_nil_r, F1. cbn. repeat split; auto; lia. }
  apply bind_run in E2.
  destruct E2 as [(url & w2 & t3 & t4 & E2 & E3 & ->)|(e & E2 & ->)];
    [|discriminate E2].
  inversion E2; subst. clear E2. cbn [app].
  apply bind_run in E3.
  destruct E3 as [(results & w3 & t5 & t6 & E3 & E4 & ->)|(e & E3 & ->)].
  2:{ pose proof (always_run get_search_results_kinds E3) as K2.
      apply get_search_results_run in E3. subst e.
      assert (K : Forall (of_kinds [Navigation; Wait; Enumeration]) (t1 ++ t4)).
      { apply Forall_app. split; (eapply Forall_impl; [|eassumption]);
          intros e; now apply of_kinds_weaken. }
      destruct (Quiet _ K) as [Q1 Q2].
      exists (t1 ++ t4), []. rewrite app_nil_r. repeat split; auto. }
  pose proof (always_run get_search_results_kinds E3) as K2.
  apply get_search_results_run in E3.
  assert (K : Forall (of_kinds [Navigation; Wait; Enumeration]) (t1 ++ t5)).
  { apply Forall_app. split; (eapply Forall_impl; [|eassumption]);
      intros e; now apply of_kinds_weaken. }
  destruct (Quiet _ K) as [Q1 Q2].
  destruct results as [|result results].
  { inversion E4; subst. rewrite app_nil_r.
    assert (Z0 : results_found (t1 ++ t5) = 0)
      by (rewrite results_found_app, F1, <- E3; reflexivity).
    exists (t1 ++ t5), []. rewrite app_nil_r, Z0. cbn.
    repeat split; auto; lia. }
  set (all := result :: results) in *.
  assert (Pos : 0 < results_found t5) by (rewrite <- E3; cbn; lia).
  apply bind_run in E4.
  destruct E4 as [(acc & w4 & t7 & t8 & E4 & E5 & ->)|(e & E4 & ->)].
  2:{ pose proof (process_results_keeps page (apply_limit (limit self) all)
                    (create_query_slug query) (page_url B w2) (0, []) w3) as C.
      rewrite E4 in C. cbn [events snd] in C.
      apply process_results_run in E4; [|reflexivity]. subst e.
      exists (t1 ++ t5 ++ t6), []. rewrite app_nil_r.
      repeat split; auto.
      - rewrite app_assoc. now apply checkpointed_app.
      - rewrite !results_found_app. lia. }
  pose proof (process_results_keeps page (apply_limit (limit self) all)
                (create_query_slug query) (page_url B w2) (0, []) w3) as C.
  rewrite E4 in C. cbn [events snd] in C.
  pose proof (always_run (process_results_kinds _ _ _ _ _) E4) as K3.
  assert (F3 : results_found t7 = 0) by now apply results_found_kinds in K3.
  apply process_results_run in E4; [|reflexivity].
  cbn [fst snd length] in E4. destruct E4 as [L1 L2].
  destruct (apply_limit_length (limit self) all) as [A1 A2].
  apply bind_run in E5.
  destruct E5 as [(u & w5 & t9 & t10 & E5 & E6 & ->)|(e & E5 & ->)];
    apply save_session_run in E5; destruct E5 as (rs & -> & E5).
  - inversion E6; subst. rewrite app_nil_r.
    exists (t1 ++ t5 ++ t7), [Ev StorageState rs].
    rewrite !results_found_app, F1, F3. cbn [results_found filter row_found length].
    repeat split; auto.
    + now rewrite <- !app_assoc.
    + rewrite app_assoc. now apply checkpointed_app.
    + right. now exists rs.
    + lia.
    + cbn [count]. lia.
    + cbn [count]. intros l Hl Hp. specialize (A2 l Hl Hp). lia.
    + discriminate.
  - destruct E5 as [E5|E5]; [discriminate|]. injection E5 as ->.
    exists (t1 ++ t5 ++ t7), [Ev StorageState rs].
    rewrite !results_found_app, F1, F3. cbn [results_found filter row_found length].
    repeat split; auto.
    + now rewrite <- !app_assoc.
    + rewrite app_assoc. now apply checkpointed_app.
    + right. now exists rs.
    + lia.
Qed.

(** *** A whole run *)

Lemma download_all_pdfs_run self query w r w' tr :
  download_all_pdfs B quote self query w = (r, w', tr) ->
  (exists e, setup_browser B w = (Raise e, w', tr) /\ r = guarded (Raise e))
  \/ (exists page w1 ts rs w2 t2 rc,
        setup_browser B w = (Ok page, w1, ts) /\
        run_session B quote self page query w1 = (rs, w2, t2) /\
        tr = ts ++ t2 ++ [Ev BrowserClose rc] /\
        r = match rc with Raise e => Raise e | Ok _ => guarded rs end).
Proof.
  unfold download_all_pdfs, bind at 1, attempt at 1.
  destruct (setup_browser B w) as [[[page|e] w1] ts] eqn:E1.
  - unfold bind, attempt, try_except, call, lift.
    destruct (run_session B quote self page query w1) as [[rs w2] t2] eqn:E2.
    intros H. right. exists page, w1, ts, rs, w2, t2.
    destruct rs as [rr|e].
    + destruct (exec B BrowserClose w2) as [[[]|e] w3]; cbn in H;
        inversion H; subst; eexists; repeat split;
        rewrite ?app_nil_r; first [assumption | reflexivity].
    + destruct (is_exception e) eqn:Ee; cbn in H;
        destruct (exec B BrowserClose w2) as [[[]|e'] w3]; cbn in H;
        inversion H; subst; eexists; repeat split;
        cbn [guarded]; rewrite ?Ee, ?app_nil_r;
        first [assumption | reflexivity].
  - intros H. left. exists e. cbn [guarded].
    destruct (is_exception e); cbn in H; inversion H; subst;
      rewrite ?app_nil_r; split; reflexivity.
Qed.



(** C7 (amended): in every run the session state is written immediately
    after each report of a successful login and nowhere else inside the
    run, and once more at its end, right before the browser is closed,
    when the items loop was reached and came to its end.  A run whose
    enumeration finds no result (the search failed, or there were no
    rows) writes no session state at all. *)
Theorem session_saved_after_login_and_at_end self query w r w' tr :
  download_all_pdfs B quote self query w = (r, w', tr) ->
  exists body rest,
    tr = body ++ rest /\ checkpointed body
    /\ (rest = [] \/ exists rs rc, rest = [Ev StorageState rs; Ev BrowserClose rc])
    /\ (results_found tr = 0 -> existsb is_save tr = false)
    /\ (forall rr, r = Ok rr -> 0 < results_found tr -> rest <> []).
Proof.
  intros H. apply download_all_pdfs_run in H.
  destruct H as [(e & E & ->)|(page & w1 & ts & rs & w2 & t2 & rc & E1 & E2 & -> & ->)].
  - pose proof (always_run setup_browser_kinds E) as K.
    exists tr, []. rewrite app_nil_r.
    assert (F : results_found tr = 0) by now apply results_found_kinds in K.
    repeat split; auto.
    + apply checkpointed_quiet. eapply Forall_impl; [|exact K].
      intros x. now apply quiet_kinds.
    + intros _. apply existsb_none.
      eapply Forall_excludes; [exact save_kind| |exact K]. reflexivity.
    + intros rr _ Hp. lia.
  - pose proof (always_run setup_browser_kinds E1) as K.
    assert (F : results_found ts = 0) by now apply results_found_kinds in K.
    assert (Qs : checkpointed ts).
    { apply checkpointed_quiet. eapply Forall_impl; [|exact K].
      intros x. now apply quiet_kinds. }
    assert (Ss : existsb is_save ts = false).
    { apply existsb_none.
      eapply Forall_excludes; [exact save_kind| |exact K]. reflexivity. }
    assert (Qc : checkpointed [Ev BrowserClose rc]) by now repeat constructor.
    assert (RF : results_found (ts ++ t2 ++ [Ev BrowserClose rc])
                 = results_found t2).
    { rewrite !results_found_app, F. cbn. lia. }
    apply run_session_run in E2.
    destruct E2 as (_ & body & rest & -> & Cb & Hrest & Hz & R).
    rewrite RF. destruct Hrest as [->|(rs0 & ->)].
    + rewrite app_nil_r in *.
      exists (ts ++ body ++ [Ev BrowserClose rc]), [].
      rewrite !app_nil_r. split; [reflexivity|].
      split; [auto using checkpointed_app|]. split; [now left|]. split.
      * intros Z. rewrite !existsb_app, Ss, (Hz Z). reflexivity.
      * intros rr Hr Hp. destruct rc as [[]|e]; [|discriminate].
        destruct rs as [rr'|e]; [|subst e; discriminate].
        destruct R as (_ & _ & _ & R). now apply R.
    + exists (ts ++ body), [Ev StorageState rs0; Ev BrowserClose rc].
      split; [now rewrite <- !app_assoc|].
      split; [now apply checkpointed_app|].
      split; [right; now exists rs0, rc|]. split.
      * intros Z. specialize (Hz Z).
        rewrite existsb_app in Hz. cbn in Hz.
        rewrite orb_true_r in Hz. discriminate.
      * discriminate.
Qed.
(** *** Where the login form is filled *)

Ltac acts sub := repeat invariant_step ltac:(intros; cbn in *; congruence) sub.

Lemma first_visible_acts_on t sels act :
  (forall s, always (fun e => forall c, acted_on e = Some c -> c = t) (act s)) ->
  always (fun e => forall c, acted_on e = Some c -> c = t)
    (first_visible B t sels act).
Proof.
  intros Hact. induction sels as [|s sels IH]; cbn [first_visible];
    acts ltac:(apply IH || apply Hact).
Qed.

Lemma fill_login_form_acts_on t :
  always (fun e => forall c, acted_on e = Some c -> c = t) (_fill_login_form B t).
Proof.
  unfold _fill_login_form.
  acts ltac:(apply first_visible_acts_on; intros; acts idtac).
Qed.

(** Whenever the first question of [_handle_login] is answered with yes,
    whichever context the form was seen in, every credential it types and
    every button it presses is in the primary document. *)
Lemma handle_login_acts_on_primary page w :
  outcome (_has_login_forms B page w) = Ok true ->
  Forall (fun e => forall c, acted_on e = Some c -> c = OnPage (page_id page))
    (events (_handle_login B page w)).
Proof.
  intros H. unfold _handle_login, bind at 1. unfold outcome, events in *.
  pose proof (has_login_forms_kinds page w) as K. unfold events in K.
  destruct (_has_login_forms B page w) as [[r w1] t1]. cbn [fst snd] in *.
  subst r.
  assert (F : always (fun e => forall c, acted_on e = Some c
                                         -> c = OnPage (page_id page))
                (log LogFoundLoginFormOnMainPage ;;;
                 _fill_login_form B (OnPage (page_id page)) ;;; ret true)).
  { acts ltac:(apply fill_login_form_acts_on). }
  specialize (F w1). unfold events in F.
  match goal with |- context [(?m w1)] => destruct (m w1) as [[r2 w2] t2] end.
  cbn [snd] in *. apply Forall_app. split; [|assumption].
  eapply Forall_impl; [|exact K]. intros e He c Hc.
  assert (A : is_login_action e = true) by (unfold is_login_action; now rewrite Hc).
  apply login_action_kind in A. unfold of_kinds in He. rewrite A in He.
  discriminate.
Qed.

End Reasoning.

(** * Further properties of the code *)

Section Names.

Lemma digit_char_value d :
  d < 10 -> N.to_nat (digit_char d) - 48 = d.
Proof. unfold digit_char, Chr.zero. lia. Qed.

Lemma value_of_decimal fuel : forall n acc,
  n < fuel ->
  fold_left (fun v c => 10 * v + (N.to_nat c - 48)) (decimal fuel n acc) 0
  = fold_left (fun v c => 10 * v + (N.to_nat c - 48)) acc n.
Proof.
  induction fuel as [|fuel IH]; intros n acc L; [lia|].
  rewrite decimal_unfold.
  assert (D : n mod 10 < 10) by (apply Nat.mod_upper_bound; lia).
  destruct (n <? 10) eqn:E.
  - apply Nat.ltb_lt in E. cbn [fold_left].
    rewrite digit_char_value by assumption.
    rewrite Nat.mod_small by assumption. reflexivity.
  - apply Nat.ltb_ge in E. rewrite IH.
    + cbn [fold_left]. rewrite digit_char_value by assumption.
      f_equal. pose proof (Nat.div_mod_eq n 10). lia.
    + assert (n / 10 < n) by (apply Nat.div_lt; lia). lia.
Qed.

Lemma value_of_padding k s :
  digits_value (repeat Chr.zero k ++ s) = digits_value s.
Proof. induction k as [|k IH]; [reflexivity | exact IH]. Qed.

Lemma format_02d_value index : digits_value (format_02d index) = index.
Proof.
  unfold format_02d. rewrite value_of_padding. unfold digits_value, str_of_nat.
  rewrite value_of_decimal by lia. reflexivity.
Qed.

Lemma ordinal_of_final_filename i s g : ordinal_of (final_filename i s g) = i.
Proof.
  unfold ordinal_of, final_filename, format_filename.
  change (py "_" ++ ?x) with (Chr.underscore :: x).
  rewrite span_digits_prefix by (apply format_02d_digits || reflexivity).
  cbn [fst]. rewrite firstn_app, Nat.sub_diag, firstn_all, app_nil_r.
  apply format_02d_value.
Qed.

(** X1: the ordinal can be read back from a stored file name, whatever the
    slug and the suggested name are; so two captures with different
    ordinals never get the same file name. *)
Theorem ordinal_read_back (index : nat) (slug : pystr) (suggested : option pystr) :
  ordinal_of (final_filename index slug suggested) = index
  /\ (forall index' slug' suggested',
        final_filename index slug suggested
        = final_filename index' slug' suggested' -> index = index').
Proof.
  split; [apply ordinal_of_final_filename|].
  intros i s g E.
  rewrite <- (ordinal_of_final_filename index slug suggested), E.
  apply ordinal_of_final_filename.
Qed.


(** ** The limit *)

Lemma apply_limit_firstn {A} (lim : option Z) (results : list A) :
  exists k, apply_limit lim results = firstn k results.
Proof.
  unfold apply_limit, slice_to. destruct lim as [l|].
  2:{ exists (length results). now rewrite firstn_all. }
  destruct (negb (l =? 0)%Z && (l <? Z.of_nat (length results))%Z).
  - destruct (0 <=? l)%Z; eexists; reflexivity.
  - exists (length results). now rewrite firstn_all.
Qed.

(** X2: the results that are processed are always a prefix of the results
    found.  Without a limit, or with limit 0, it is the whole list; a
    positive limit keeps the first [limit] results; a negative limit [-k]
    drops the last [k] (all of them when there are no more than [k]). *)
Theorem limit_keeps_a_prefix {A} (lim : option Z) (results : list A) :
  (exists rest, results = apply_limit lim results ++ rest)
  /\ length (apply_limit lim results)
     = match lim with
       | None => length results
       | Some l =>
           if (l =? 0)%Z then length results
           else if (0 <? l)%Z then Nat.min (Z.to_nat l) (length results)
           else length results - Z.to_nat (- l)
       end.
Proof.
  unfold apply_limit, slice_to. destruct lim as [l|].
  2:{ split; [exists []; now rewrite app_nil_r | reflexivity]. }
  destruct (Z.eqb_spec l 0) as [->|N]; cbn [negb andb].
  { split; [exists []; now rewrite app_nil_r | reflexivity]. }
  destruct (Z.ltb_spec l (Z.of_nat (length results))) as [Lt|Ge].
  - destruct (Z.leb_spec 0 l) as [P|Ng].
    + split; [eexists; symmetry; apply firstn_skipn|].
      rewrite length_firstn. destruct (Z.ltb_spec 0 l); lia.
    + split; [eexists; symmetry; apply firstn_skipn|].
      rewrite length_firstn. destruct (Z.ltb_spec 0 l); lia.
  - split; [exists []; now rewrite app_nil_r|].
    destruct (Z.ltb_spec 0 l); lia.
Qed.

(** ** Quote marks around the query *)

Lemma lstrip_all p s : Forall (fun c => p c = true) s -> lstrip p s = [].
Proof. induction 1 as [|c s Hc _ IH]; cbn; [reflexivity | now rewrite Hc]. Qed.

Lemma lstrip_prefix p a s :
  Forall (fun c => p c = true) a -> lstrip p (a ++ s) = lstrip p s.
Proof. induction 1 as [|c a Hc _ IH]; cbn; [reflexivity | now rewrite Hc]. Qed.

Lemma rstrip_suffix p s b :
  Forall (fun c => p c = true) b -> rstrip p (s ++ b) = rstrip p s.
Proof.
  intros H. unfold rstrip. rewrite rev_app_distr.
  rewrite lstrip_prefix by now apply Forall_rev. reflexivity.
Qed.

Lemma strip_wrapped p a q b :
  Forall (fun c => p c = true) a -> Forall (fun c => p c = true) b ->
  strip p (a ++ q ++ b) = strip p q.
Proof.
  intros Ha Hb. unfold strip. rewrite lstrip_prefix by assumption.
  induction q as [|c q IH]; cbn [app lstrip].
  - now rewrite lstrip_all.
  - destruct (p c); [exact IH|].
    now rewrite app_comm_cons, rstrip_suffix.
Qed.

(** X3: quote marks around the query do not change the search: a query
    wrapped in any number of double or single quotes is sent to the same
    URL as the bare query. *)
Theorem search_url_ignores_quotes (quote : pystr -> pystr)
    (opening query closing : pystr) :
  Forall (fun c => is_quote_mark c = true) opening ->
  Forall (fun c => is_quote_mark c = true) closing ->
  search_url quote (opening ++ query ++ closing) = search_url quote query.
Proof.
  intros Ho Hc. unfold search_url. now rewrite strip_wrapped.
Qed.

Lemma search_url_ignores_quotes_witness :
  search_url (fun q => q) ([Chr.dquote] ++ py "Lot 7" ++ [Chr.dquote])
  = search_url (fun q => q) (py "Lot 7").
Proof.
  apply search_url_ignores_quotes; repeat constructor.
Defined.


(** ** Separators of the slug *)


Lemma keep_not_underscore c : slug_keep c = true -> (Chr.underscore =? c)%N = false.
Proof.
  intros H. apply N.eqb_neq. intros <-. discriminate H.
Qed.

Lemma contains_cons needle c s :
  contains needle (c :: s) = starts_with needle (c :: s) || contains needle s.
Proof. reflexivity. Qed.

(** The output of the white-space collapse has no two underscores in a row
    and, inside a run of white space, does not begin with one. *)
Lemma collapse_from_separators s : forall b,
  Forall (fun c => slug_keep c = true) s ->
  contains double_underscore (collapse_from b s) = false
  /\ (b = true -> starts_with [Chr.underscore] (collapse_from b s) = false).
Proof.
  induction s as [|c s IH]; intros b H; [now split|].
  inversion H as [|? ? Hc Hs]; subst. cbn [collapse_from].
  destruct (is_space c) eqn:Sp.
  - destruct b.
    + now apply IH.
    + destruct (IH true Hs) as [I1 I2]. split; [|discriminate].
      rewrite contains_cons, I1, orb_false_r.
      unfold double_underscore. cbn [starts_with]. rewrite N.eqb_refl.
      cbn [andb]. now apply I2.
  - destruct (IH false Hs) as [I1 _]. split.
    + rewrite contains_cons, I1, orb_false_r.
      unfold double_underscore. cbn [starts_with].
      now rewrite (keep_not_underscore _ Hc).
    + intros _. cbn [starts_with]. now rewrite (keep_not_underscore _ Hc).
Qed.

Lemma starts_with_firstn needle : forall k s,
  starts_with needle (firstn k s) = true -> starts_with needle s = true.
Proof.
  induction needle as [|a needle IH]; intros k s H; [reflexivity|].
  destruct k as [|k]; [discriminate|]. destruct s as [|c s]; [discriminate|].
  cbn [firstn starts_with] in *. apply andb_true_iff in H. destruct H as [H1 H2].
  rewrite H1. cbn [andb]. now apply IH with k.
Qed.

Lemma contains_firstn needle : forall k s,
  contains needle s = false -> contains needle (firstn k s) = false.
Proof.
  intros k s. revert k. induction s as [|c s IH]; intros k H.
  - now rewrite firstn_nil.
  - destruct k as [|k]; [cbn in *; destruct needle; [discriminate H | reflexivity]|].
    rewrite contains_cons in H. apply orb_false_iff in H. destruct H as [H1 H2].
    cbn [firstn]. rewrite contains_cons, (IH k H2), orb_false_r.
    destruct (starts_with needle (c :: firstn k s)) eqn:E; [|reflexivity].
    apply (starts_with_firstn needle (S k) (c :: s)) in E. congruence.
Qed.

Lemma lstrip_head p s :
  match lstrip p s with c :: _ => p c = false | [] => True end.
Proof.
  induction s as [|c s IH]; cbn; [exact I|].
  destruct (p c) eqn:E; [exact IH | exact E].
Qed.

Lemma lstrip_snoc p s c : p c = false -> lstrip p (s ++ [c]) = lstrip p s ++ [c].
Proof.
  intros H. induction s as [|a s IH]; cbn; [now rewrite H|].
  destruct (p a); [exact IH | reflexivity].
Qed.

Lemma rstrip_head p c s : p c = false -> exists s', rstrip p (c :: s) = c :: s'.
Proof.
  intros H. unfold rstrip. cbn [rev]. rewrite lstrip_snoc by assumption.
  rewrite rev_app_distr. cbn. eauto.
Qed.

Lemma strip_head p s :
  match strip p s with c :: _ => p c = false | [] => True end.
Proof.
  unfold strip. pose proof (lstrip_head p s) as H.
  destruct (lstrip p s) as [|c t]; [exact I|].
  destruct (rstrip_head p c t H) as [s' ->]. exact H.
Qed.

(** X4: a slug never begins with an underscore, never has two underscores
    in a row and holds no white space: every underscore stands for one run
    of white space inside the query. *)
Theorem slug_separators (query : pystr) :
  starts_with [Chr.underscore] (create_query_slug query) = false
  /\ contains double_underscore (create_query_slug query) = false
  /\ Forall (fun c => is_space c = false) (create_query_slug query).
Proof.
  assert (K : Forall (fun c => slug_keep c = true)
                (strip is_space (filter slug_keep query))).
  { apply strip_Forall, Forall_forall. intros c Hc. now apply filter_In in Hc. }
  split; [|split].
  - unfold create_query_slug, collapse_spaces.
    pose proof (strip_head is_space (filter slug_keep query)) as Hh.
    destruct (strip is_space (filter slug_keep query)) as [|c t]; [reflexivity|].
    inversion K; subst. cbn [collapse_from]. rewrite Hh. cbn [firstn starts_with].
    now rewrite keep_not_underscore.
  - unfold create_query_slug, collapse_spaces.
    apply contains_firstn. now apply collapse_from_separators.
  - eapply Forall_impl; [|apply create_query_slug_chars].
    intros c. apply slug_char_not_space.
Qed.

End Names.

Section Further.
Context {W : Type} (B : Browser W).
Variable quote : pystr -> pystr.

Ltac step_with ev sub :=
  first
    [ solve [sub]
    | apply always_ret | apply always_raise | apply always_observe
    | apply always_lift
    | apply always_log; ev
    | apply always_call; intros; ev
    | apply always_attempt
    | apply always_wait_for; [ev|]
    | apply always_bind; [|intros ?]
    | apply always_try_except; [|intros ?]
    | match goal with
      | |- always _ (if ?b then _ else _) => destruct b
      | |- always _ (match ?x with _ => _ end) => destruct x
      | |- always _ (let (_, _) := ?x in _) => destruct x
      end ].

Ltac of_kinds_with sub := repeat step_with ltac:(reflexivity) sub.

Ltac from_kinds L := (eapply always_kinds; [|apply L]; reflexivity).

(** ** Enumeration *)

Lemma increasing_from_weaken lo lo' l :
  lo' <= lo -> increasing_from lo l -> increasing_from lo' l.
Proof. destruct l; cbn; [auto|]. intros L [H1 H2]. split; [lia | assumption]. Qed.

Lemma collect_rows_records rows : forall i acc w r w' tr,
  collect_rows B rows i acc w = (r, w', tr) ->
  exists new,
    r = Ok (acc ++ new)
    /\ increasing_from i (map index new)
    /\ Forall (row_recorded rows i) new.
Proof.
  induction rows as [|row rows IH]; intros i acc w r w' tr H;
    cbn [collect_rows] in H.
  - inversion H; subst. exists []. rewrite app_nil_r. repeat split; constructor.
  - assert (Skip : forall acc1 w1 r1 w2 t1,
              collect_rows B rows (S i) acc1 w1 = (r1, w2, t1) ->
              acc1 = acc ->
              exists new, r1 = Ok (acc ++ new)
                          /\ increasing_from i (map index new)
                          /\ Forall (row_recorded (row :: rows) i) new).
    { intros acc1 w1 r1 w2 t1 E ->. apply IH in E.
      destruct E as (new & -> & Inc & F). exists new. split; [reflexivity|].
      split; [apply increasing_from_weaken with (S i); [lia | assumption]|].
      eapply Forall_impl; [|exact F]. intros res (R1 & R2 & R3).
      unfold row_recorded. cbn [length]. repeat split; try lia.
      replace (index res - i) with (S (index res - S i)) by lia. exact R2. }
    apply bind_run in H.
    destruct H as [(t & w1 & t1 & t2 & _ & E & _)|(e & E & _)].
    2:{ apply try_except_run in E.
        destruct E as [(a & _ & F)|[(e0 & _ & _ & F)|(e0 & w1 & t1 & t2 & _ & _ & F & _)]];
          discriminate. }
    destruct t as [[|c content]|]; try (eapply Skip; [exact E | reflexivity]).
    destruct (10 <? length (strip is_space (c :: content))) eqn:Len;
      [|eapply Skip; [exact E | reflexivity]].
    apply IH in E. destruct E as (new & -> & Inc & F).
    eexists ({| index := i; text := strip is_space (c :: content);
                row_element := row |} :: new).
    split; [now rewrite <- app_assoc|]. split; [cbn; split; [lia | assumption]|].
    constructor.
    + unfold row_recorded. cbn [index text row_element length].
      rewrite Nat.sub_diag. apply Nat.ltb_lt in Len. repeat split; lia || reflexivity.
    + eapply Forall_impl; [|exact F]. intros res (R1 & R2 & R3).
      unfold row_recorded. cbn [length]. repeat split; try lia.
      replace (index res - i) with (S (index res - S i)) by lia. exact R2.
Qed.

Lemma collect_rows_exact rows : forall i acc w r w' tr,
  collect_rows B rows i acc w = (r, w', tr) ->
  r = Ok (acc ++ rows_kept i tr) /\ pick asked_row tr = rows
  /\ pick listed_rows tr = [].
Proof.
  induction rows as [|row rows IH]; intros i acc w r w' tr H;
    cbn [collect_rows] in H.
  - inversion H; subst. cbn. now rewrite app_nil_r.
  - apply bind_run in H.
    destruct H as [(t & w1 & t1 & t2 & E1 & E & ->)|(e & E1 & _)].
    2:{ apply try_except_run in E1.
        destruct E1 as [(a & _ & F)|[(e0 & _ & _ & F)|(e0 & w1 & t1 & t2 & _ & _ & F & _)]];
          discriminate. }
    assert (T1 : exists rr,
               t1 = [Ev (TextContent row) rr]
               /\ t = match rr with Ok x => x | Raise _ => None end).
    { apply try_except_run in E1.
      destruct E1 as [(a & E1 & Ea)|[(e0 & _ & _ & F)|(e0 & w2 & t3 & t4 & E1 & _ & E3 & ->)]];
        [|discriminate F|].
      - injection Ea as <-. apply call_run in E1. destruct E1 as [-> _].
        now exists (Ok t).
      - apply call_run in E1. destruct E1 as [-> _]. inversion E3; subst.
        now exists (Raise e0). }
    destruct T1 as (rr & -> & ->).
    cbn [app rows_kept asked_row listed_rows pick].
    destruct rr as [[[|c content]|]|e]; cbn [kept_row] in *;
      cbv beta iota zeta in E |- *;
      try (destruct (10 <? length (strip is_space (c :: content))));
      apply IH in E; destruct E as (-> & Ep & El);
      (split; [now rewrite <- ?app_assoc | split; [now f_equal | exact El]]).
Qed.

Lemma pick_app {A} (f : event -> option A) a b :
  pick f (a ++ b) = pick f a ++ pick f b.
Proof.
  induction a as [|e a IH]; cbn; [reflexivity|].
  destruct (f e); cbn; now rewrite IH.
Qed.

(** X5: [get_search_results] asks every row the page listed for its text,
    once and in document order, and numbers the rows from 1.  Its results
    are exactly the rows whose request was answered with a text whose
    stripped form is longer than ten characters, each with the ordinal of
    its row, that stripped text and the handle of the row; a row whose text
    cannot be read, or has no text, is skipped and its ordinal left out.
    So the ordinals increase strictly and each points at the handle of its
    row in the list the page returned.  A failure to find or list the rows
    gives the empty list without any row being asked; only a cancellation
    is raised. *)
Theorem enumeration_keeps_document_order w r w' tr :
  get_search_results B w = (r, w', tr) ->
  match r with
  | Ok results =>
      results = rows_kept 1 tr
      /\ pick asked_row tr = concat (pick listed_rows tr)
      /\ increasing_from 1 (map index results)
      /\ exists rows,
           Forall (row_recorded rows 1) results
           /\ (results = [] \/ In (Ev (LocatorAll tr_has_td) (Ok rows)) tr)
  | Raise e => e = CancelledError
  end.
Proof.
  intros H. unfold get_search_results in H. apply try_except_run in H.
  destruct H as [(a & E & ->)|[(e & E & -> & F)|(e & w1 & t1 & t2 & E & _ & H & ->)]].
  - apply bind_run in E.
    destruct E as [(u & w2 & t2 & t3 & E1 & E2 & ->)|(e & _ & F)]; [|discriminate].
    apply call_run in E1. destruct E1 as [-> _].
    apply bind_run in E2.
    destruct E2 as [(rows & w3 & t4 & t5 & E2 & E3 & ->)|(e & _ & F)]; [|discriminate].
    apply call_run in E2. destruct E2 as [-> _].
    destruct (collect_rows_exact _ _ _ _ E3) as (X & Asked & Listed).
    apply collect_rows_records in E3. destruct E3 as (new & E3 & Inc & F).
    injection E3 as ->. injection X as X.
    split; [exact X|]. split.
    { cbn. rewrite Asked, Listed. cbn. now rewrite app_nil_r. }
    split; [exact Inc|]. exists rows. split; [exact F|].
    right. apply in_or_app. right. now left.
  - now destruct e.
  - inversion H; subst. rewrite app_nil_r.
    assert (Q : rows_kept 1 t1 = [] /\ pick asked_row t1 = concat (pick listed_rows t1)).
    { apply bind_run in E.
      destruct E as [(u & w2 & t2 & t3 & E1 & E2 & ->)|(e0 & E1 & _)];
        apply call_run in E1; destruct E1 as [-> _]; [|now split].
      apply bind_run in E2.
      destruct E2 as [(rows & w3 & t4 & t5 & E2 & E3 & ->)|(e0 & E2 & _)];
        apply call_run in E2; destruct E2 as [-> _]; [|now split].
      apply collect_rows_exact in E3. destruct E3 as [F _]. discriminate F. }
    destruct Q as [Q1 Q2].
    split; [now symmetry|]. split; [exact Q2|]. split; [exact I|].
    exists []. split; [constructor | now left].
Qed.


(** ** Search and set-up *)


(** X7: [setup_browser] launches the bundled Chromium only after the launch
    of the system Chrome failed with an [Exception]; when it returns a page,
    exactly one of the two launches succeeded, a context was created and the
    page is the one the context opened.  The context is created from the
    stored session exactly when the storage-state file exists. *)
Theorem setup_falls_back_to_chromium stored w r w' tr :
  (forall s, storage_state_exists B s = stored) ->
  setup_browser B w = (r, w', tr) ->
  (forall rc, In (Ev LaunchChromium rc) tr ->
     exists e, In (Ev LaunchChrome (Raise e)) tr /\ is_exception e = true)
  /\ (forall s rn, In (Ev (NewContext s) rn) tr -> s = stored)
  /\ (forall page, r = Ok page ->
        In (Ev NewPage (Ok page)) tr
        /\ In (Ev (NewContext stored) (Ok tt)) tr
        /\ (In (Ev LaunchChrome (Ok tt)) tr
            <-> ~ In (Ev LaunchChromium (Ok tt)) tr)).
Proof.
  intros St H.
  assert (Tail : forall w1 pre r1 w2 t1,
    (forall rc, In (Ev LaunchChromium rc) pre ->
       exists e, In (Ev LaunchChrome (Raise e)) pre /\ is_exception e = true) ->
    (forall s rn, ~ In (Ev (NewContext s) rn) pre) ->
    (In (Ev LaunchChrome (Ok tt)) pre <-> ~ In (Ev LaunchChromium (Ok tt)) pre) ->
    (storage <- observe (storage_state_exists B) ;;
     call B (NewContext storage) ;;; call B NewPage) w1 = (r1, w2, t1) ->
    (forall rc, In (Ev LaunchChromium rc) (pre ++ t1) ->
       exists e, In (Ev LaunchChrome (Raise e)) (pre ++ t1) /\ is_exception e = true)
    /\ (forall s rn, In (Ev (NewContext s) rn) (pre ++ t1) -> s = stored)
    /\ (forall page, r1 = Ok page ->
          In (Ev NewPage (Ok page)) (pre ++ t1)
          /\ In (Ev (NewContext stored) (Ok tt)) (pre ++ t1)
          /\ (In (Ev LaunchChrome (Ok tt)) (pre ++ t1)
              <-> ~ In (Ev LaunchChromium (Ok tt)) (pre ++ t1)))).
  { intros w1 pre r1 w2 t1 P1 P2 P4. unfold bind, observe, call. rewrite St.
    destruct (exec B (NewContext stored) w1) as [[[]|e2] w3].
    - destruct (exec B NewPage w3) as [r3 w4]. cbn. intros X. inversion X; subst.
      split; [|split].
      + intros rc X0. apply in_app_or in X0. destruct X0 as [X0|[X0|[X0|[]]]];
          try discriminate X0.
        destruct (P1 _ X0) as (e & I1 & I2). exists e. split; [|assumption].
        apply in_or_app. now left.
      + intros s rn X0. apply in_app_or in X0. destruct X0 as [X0|[X0|[X0|[]]]];
          try discriminate X0; [now apply P2 in X0|]. now inversion X0.
      + intros page ->.
        split; [apply in_or_app; right; right; now left|].
        split; [apply in_or_app; right; now left|].
        rewrite !in_app_iff. cbn. split.
        * intros [X0|[X0|[X0|[]]]]; try discriminate X0.
          intros [Y|[Y|[Y|[]]]]; try discriminate Y. now apply P4 in X0.
        * intros N. left. apply P4. intros Y. apply N. now left.
    - cbn. intros X. inversion X; subst. split; [|split; [|discriminate]].
      + intros rc X0. apply in_app_or in X0. destruct X0 as [X0|[X0|[]]];
          try discriminate X0.
        destruct (P1 _ X0) as (e & I1 & I2). exists e. split; [|assumption].
        apply in_or_app. now left.
      + intros s rn X0. apply in_app_or in X0. destruct X0 as [X0|[X0|[]]];
          [now apply P2 in X0|]. now inversion X0. }
  assert (Short : forall t : trace,
    (forall rc, ~ In (Ev LaunchChromium rc) t) ->
    (forall s rn, ~ In (Ev (NewContext s) rn) t) ->
    (forall rc, In (Ev LaunchChromium rc) t ->
       exists e, In (Ev LaunchChrome (Raise e)) t /\ is_exception e = true)
    /\ (forall s rn, In (Ev (NewContext s) rn) t -> s = stored)).
  { intros t N1 N2. split; [intros rc X; now apply N1 in X|].
    intros s rn X. now apply N2 in X. }
  unfold setup_browser in H. apply bind_run in H.
  destruct H as [(u & w0 & t0 & t1 & E0 & H & ->)|(e & E0 & ->)];
    apply call_run in E0; destruct E0 as [-> _].
  2:{ destruct (Short [Ev StartPlaywright (Raise e)]) as [S1 S2].
      - intros rc [X|[]]. discriminate X.
      - intros s rn [X|[]]. discriminate X.
      - split; [exact S1|]. split; [exact S2 | discriminate]. }
  apply bind_run in H.
  destruct H as [(u1 & w1 & t2 & t3 & E1 & H & ->)|(e & E1 & ->)].
  - rewrite app_assoc. apply try_except_run in E1.
    destruct E1 as [(a & E1 & _)|[(e & E1 & F & _)|(e & w2 & t4 & t5 & E1 & Ex & E2 & ->)]];
      try discriminate F.
    + apply call_run in E1. destruct E1 as [-> _]. destruct a, u.
      eapply Tail; [| | |exact H].
      * intros rc [X|[X|[]]]; discriminate X.
      * intros s rn [X|[X|[]]]; discriminate X.
      * cbn. split; [intros _ [X|[X|[]]]; discriminate X | intros _; right; now left].
    + apply call_run in E1. destruct E1 as [-> _].
      apply call_run in E2. destruct E2 as [-> _]. destruct u1, u.
      eapply Tail; [| | |exact H].
      * intros rc _. exists e. split; [right; now left | assumption].
      * intros s rn [X|[X|[X|[]]]]; discriminate X.
      * cbn. split.
        -- intros [X|[X|[X|[]]]]; discriminate X.
        -- intros N. exfalso. apply N. right. right. now left.
  - apply try_except_run in E1.
    destruct E1 as [(a & _ & F)|[(e1 & E1 & _ & Ex)|(e1 & w2 & t4 & t5 & E1 & Ex & E2 & ->)]];
      try discriminate F.
    + apply call_run in E1. destruct E1 as [-> _].
      destruct (Short ([Ev StartPlaywright (Ok u)] ++ [Ev LaunchChrome (Raise e1)]))
        as [S1 S2].
      * intros rc [X|[X|[]]]; discriminate X.
      * intros s rn [X|[X|[]]]; discriminate X.
      * split; [exact S1|]. split; [exact S2 | discriminate].
    + apply call_run in E1. destruct E1 as [-> _].
      apply call_run in E2. destruct E2 as [-> _].
      split; [|split; [|discriminate]].
      * intros rc _. exists e1. split; [right; now left | assumption].
      * intros s rn [X|[X|[X|[]]]]; discriminate X.
Qed.


(** ** The login-form check *)

Lemma any_selector_present_exact (P : event -> Prop) t sels : forall w r w' tr,
  (forall l rr, In l sels -> P (Ev (Count t l) rr)) ->
  any_selector_present B t sels w = (r, w', tr) ->
  Forall P tr
  /\ match r with
     | Ok b => b = existsb login_form_seen tr
     | Raise e =>
         existsb login_form_seen tr = false
         /\ exists l pre, tr = pre ++ [Ev (Count t l) (Raise e)]
     end.
Proof.
  induction sels as [|s sels IH]; intros w r w' tr HP H;
    cbn [any_selector_present] in H.
  - inversion H; subst. split; [constructor | reflexivity].
  - apply bind_run in H.
    destruct H as [(n & w1 & t1 & t2 & E1 & E2 & ->)|(e & E1 & ->)];
      apply call_run in E1; destruct E1 as [-> _].
    + destruct n as [|n]; cbn [Nat.ltb Nat.leb] in E2.
      * apply IH in E2; [|intros l rr Hl; apply HP; now right].
        destruct E2 as [F R]. split; [constructor; [apply HP; now left | exact F]|].
        destruct r as [b|e]; [exact R|]. destruct R as (R1 & l & pre & ->).
        split; [exact R1|]. exists l, (Ev (Count t s) (Ok 0) :: pre). reflexivity.
      * inversion E2; subst.
        split; [repeat constructor; apply HP; now left | reflexivity].
    + split; [repeat constructor; apply HP; now left|].
      split; [reflexivity|]. exists s, []. reflexivity.
Qed.

Lemma frames_have_login_forms_exact page frames : forall w r w' tr,
  frames_have_login_forms B page frames w = (r, w', tr) ->
  Forall (fun e => login_form_probe page e = true) tr
  /\ r = Ok (existsb login_form_seen tr).
Proof.
  induction frames as [|f frames IH]; intros w r w' tr H;
    cbn [frames_have_login_forms] in H.
  - inversion H; subst. split; [constructor | reflexivity].
  - destruct (f =? main_frame page) eqn:Em; [now apply IH in H|].
    assert (HP : forall l rr, In l login_selectors ->
                 login_form_probe page (Ev (Count (OnFrame f) l) rr) = true).
    { intros l rr Hl. cbn. rewrite Em. cbn.
      destruct Hl as [<-|[<-|[<-|[<-|[]]]]]; reflexivity. }
    apply bind_run in H.
    destruct H as [(found & w1 & t1 & t2 & E1 & E2 & ->)|(e & E1 & _)].
    2:{ apply try_except_run in E1.
        destruct E1 as [(a & _ & F)|[(e0 & _ & _ & F)|(e0 & w1 & t1 & t2 & _ & _ & F & _)]];
          discriminate. }
    apply try_except_run in E1.
    destruct E1 as [(a & E1 & Ea)|[(e0 & _ & _ & F)|(e0 & w2 & t3 & t4 & E1 & _ & E3 & ->)]];
      [|discriminate|].
    + injection Ea as <-.
      apply (@any_selector_present_exact (fun e => login_form_probe page e = true) _ _ _ _ _ _ HP) in E1. destruct E1 as [F1 R1].
      destruct found.
      * inversion E2; subst. rewrite app_nil_r. split; [exact F1 | now rewrite <- R1].
      * apply IH in E2. destruct E2 as [F2 ->].
        split; [apply Forall_app; now split|].
        now rewrite existsb_app, <- R1.
    + apply (@any_selector_present_exact (fun e => login_form_probe page e = true) _ _ _ _ _ _ HP) in E1. destruct E1 as [F1 [R1 _]].
      inversion E3; subst. rewrite app_nil_r in *. cbv beta iota in E2.
      apply IH in E2. destruct E2 as [F2 ->].
      split; [apply Forall_app; now split|]. now rewrite existsb_app, R1.
Qed.

Lemma has_login_forms_exact page w r w' tr :
  _has_login_forms B page w = (r, w', tr) ->
  Forall (fun e => login_form_probe page e = true) tr
  /\ match r with
     | Ok b => b = existsb login_form_seen tr
     | Raise e =>
         exists l pre,
           tr = pre ++ [Ev (Count (OnPage (page_id page)) l) (Raise e)]
     end.
Proof.
  intros H. unfold _has_login_forms in H.
  assert (HP : forall l rr, In l login_selectors ->
               login_form_probe page
                 (Ev (Count (OnPage (page_id page)) l) rr) = true).
  { intros l rr Hl. cbn. rewrite Nat.eqb_refl. cbn.
    destruct Hl as [<-|[<-|[<-|[<-|[]]]]]; reflexivity. }
  apply bind_run in H.
  destruct H as [(found & w1 & t1 & t2 & E1 & E2 & ->)|(e & E1 & ->)];
    apply (@any_selector_present_exact (fun e => login_form_probe page e = true) _ _ _ _ _ _ HP) in E1; destruct E1 as [F1 R1].
  - destruct found.
    + inversion E2; subst. rewrite app_nil_r. split; [exact F1 | exact R1].
    + apply bind_run in E2.
      destruct E2 as [(frames & w2 & t3 & t4 & E2 & E3 & ->)|(e & E2 & _)];
        [|discriminate E2].
      inversion E2; subst. apply frames_have_login_forms_exact in E3.
      destruct E3 as [F2 ->]. cbn [app].
      split; [apply Forall_app; now split|]. now rewrite existsb_app, <- R1.
  - split; [exact F1|]. now destruct R1.
Qed.

(** X8: the check for login forms counts the four login selectors in the
    primary document and then in the nested frames of the primary page; it
    never looks into a popup.  It answers [True] exactly when one of its
    counts is positive.  A count that fails in a frame is skipped with the
    rest of that frame; a count that fails in the primary document ends the
    check with that error. *)
Theorem login_form_check_scans_page_and_frames page w r w' tr :
  _has_login_forms B page w = (r, w', tr) ->
  Forall (fun e => login_form_probe page e = true) tr
  /\ match r with
     | Ok b => b = existsb login_form_seen tr
     | Raise e =>
         exists l pre,
           tr = pre ++ [Ev (Count (OnPage (page_id page)) l) (Raise e)]
     end.
Proof. apply has_login_forms_exact. Qed.

Lemma filter_none {A} (f : A -> bool) l :
  Forall (fun x => f x = false) l -> filter f l = [].
Proof.
  induction 1 as [|x l Hx _ IH]; [reflexivity|]. cbn. now rewrite Hx.
Qed.

(** ** Filling the login form *)

Lemma first_visible_exact t (a : locator -> action unit) (P : event -> Prop)
    (done : event -> bool) sels :
  (forall l rr, In l sels -> P (Ev (IsVisible t l) rr)) ->
  (forall l rr, In l sels -> P (Ev (a l) rr)) ->
  (forall l rr, done (Ev (IsVisible t l) rr) = false) ->
  (forall l e, done (Ev (a l) (Raise e)) = false) ->
  forall w r w' tr,
    first_visible B t sels (fun s => call B (a s)) w = (r, w', tr) ->
    r = Ok tt /\ Forall P tr /\ length (filter done tr) <= 1.
Proof.
  intros Pv Pa Dv Da.
  induction sels as [|s sels IH]; intros w r w' tr H; cbn [first_visible] in H.
  - inversion H; subst. repeat split; [constructor | cbn; lia].
  - assert (Pv' : forall l rr, In l sels -> P (Ev (IsVisible t l) rr))
      by (intros; apply Pv; now right).
    assert (Pa' : forall l rr, In l sels -> P (Ev (a l) rr))
      by (intros; apply Pa; now right).
    specialize (IH Pv' Pa').
    apply bind_run in H.
    destruct H as [(acted & w1 & t1 & t2 & E1 & E2 & ->)|(e & E1 & _)].
    2:{ apply try_except_run in E1.
        destruct E1 as [(x & _ & F)|[(e0 & _ & _ & F)|(e0 & w1 & t1 & t2 & _ & _ & F & _)]];
          discriminate. }
    apply try_except_run in E1.
    destruct E1 as [(x & E1 & Ex)|[(e0 & _ & _ & F)|(e0 & w2 & t3 & t4 & E1 & _ & E3 & ->)]];
      [|discriminate|].
    + injection Ex as <-.
      apply bind_run in E1.
      destruct E1 as [(v & w2 & t3 & t4 & E1 & E3 & ->)|(e & _ & F)]; [|discriminate].
      apply call_run in E1. destruct E1 as [-> _].
      destruct v.
      * apply bind_run in E3.
        destruct E3 as [(u & w3 & t5 & t6 & E3 & E4 & ->)|(e & _ & F)]; [|discriminate].
        apply call_run in E3. destruct E3 as [-> _].
        inversion E4; subst. inversion E2; subst.
        repeat split.
        -- repeat constructor; [apply Pv | apply Pa]; now left.
        -- cbn. rewrite Dv. destruct (done _); cbn; lia.
      * inversion E3; subst. cbv beta iota in E2. apply IH in E2.
        destruct E2 as (-> & F & L). repeat split.
        -- constructor; [apply Pv; now left | exact F].
        -- cbn. now rewrite Dv.
    + inversion E3; subst. rewrite app_nil_r. cbv beta iota in E2.
      apply IH in E2. destruct E2 as (-> & F & L).
      apply bind_run in E1.
      destruct E1 as [(v & w3 & t5 & t6 & E1 & E4 & ->)|(e & E1 & _)].
      * apply call_run in E1. destruct E1 as [-> _].
        destruct v; [|discriminate E4].
        apply bind_run in E4.
        destruct E4 as [(u & w4 & t7 & t8 & _ & F4 & _)|(e & E4 & _)];
          [discriminate F4|].
        apply call_run in E4. destruct E4 as [-> _].
        repeat split.
        -- repeat constructor; [apply Pv; now left | apply Pa; now left | exact F].
        -- cbn. now rewrite Dv, Da.
      * apply call_run in E1. destruct E1 as [-> _].
        repeat split.
        -- constructor; [apply Pv; now left | exact F].
        -- cbn. now rewrite Dv.
Qed.

Lemma fill_login_form_exact t w r w' tr :
  _fill_login_form B t w = (r, w', tr) ->
  r = Ok tt
  /\ (exists rest, tr = EvLog (LogFillingLoginForm t) :: rest)
  /\ Forall (form_step t) tr
  /\ length (filter (typed the_username) tr) <= 1
  /\ length (filter (typed the_password) tr) <= 1
  /\ length (filter pressed tr) <= 1.
Proof.
  intros H. unfold _fill_login_form in H.
  apply try_except_run in H.
  assert (Body : forall r w' tr,
    (log (LogFillingLoginForm t) ;;;
     first_visible B t username_selectors
       (fun s => call B (Fill t s the_username)) ;;;
     first_visible B t password_selectors
       (fun s => call B (Fill t s the_password)) ;;;
     first_visible B t submit_selectors
       (fun s => call B (Click t s))) w = (r, w', tr) ->
    r = Ok tt
    /\ (exists rest, tr = EvLog (LogFillingLoginForm t) :: rest)
    /\ Forall (form_step t) tr
    /\ length (filter (typed the_username) tr) <= 1
    /\ length (filter (typed the_password) tr) <= 1
    /\ length (filter pressed tr) <= 1).
  { clear. intros r w' tr H.
    apply bind_run in H.
    destruct H as [(u0 & w0 & t0 & tr0 & E0 & H & ->)|(e & E0 & _)];
      [|discriminate E0].
    inversion E0; subst. clear E0.
    apply bind_run in H.
    destruct H as [(u1 & w1 & t1 & tr1 & E1 & H & ->)|(e & E1 & ->)].
    2:{ apply (@first_visible_exact t (fun s => Fill t s the_username)
                 (fun _ => True) (fun _ => false)) in E1; auto.
        destruct E1 as [F _]. discriminate F. }
    apply (@first_visible_exact t (fun s => Fill t s the_username)
             (fun e => form_step t e /\ typed the_password e = false
                       /\ pressed e = false)
             (typed the_username)) in E1;
      [| intros l rr Hl; split; [split; [reflexivity|] | split; reflexivity];
         apply in_or_app; now left
       | intros l rr Hl; split; [split; [reflexivity | exact Hl]|];
         split; [now destruct rr | reflexivity]
       | reflexivity | reflexivity ].
    destruct E1 as (_ & F1 & L1).
    apply bind_run in H.
    destruct H as [(u2 & w2 & t2 & tr2 & E2 & H & ->)|(e & E2 & ->)].
    2:{ apply (@first_visible_exact t (fun s => Fill t s the_password)
                 (fun _ => True) (fun _ => false)) in E2; auto.
        destruct E2 as [F _]. discriminate F. }
    apply (@first_visible_exact t (fun s => Fill t s the_password)
             (fun e => form_step t e /\ typed the_username e = false
                       /\ pressed e = false)
             (typed the_password)) in E2;
      [| intros l rr Hl; split; [split; [reflexivity|] | split; reflexivity];
         apply in_or_app; right; apply in_or_app; now left
       | intros l rr Hl; split; [split; [reflexivity | exact Hl]|];
         split; [now destruct rr | reflexivity]
       | reflexivity | reflexivity ].
    destruct E2 as (_ & F2 & L2).
    apply (@first_visible_exact t (fun s => Click t s)
             (fun e => form_step t e /\ typed the_username e = false
                       /\ typed the_password e = false)
             pressed) in H;
      [| intros l rr Hl; split; [split; [reflexivity|] | split; reflexivity];
         apply in_or_app; right; apply in_or_app; now right
       | intros l rr Hl; split; [split; [reflexivity | exact Hl]|];
         split; reflexivity
       | reflexivity | reflexivity ].
    destruct H as (-> & F3 & L3).
    split; [reflexivity|]. cbn [app].
    split; [eexists; reflexivity|].
    split.
    { constructor; [reflexivity|].
      rewrite !Forall_app. repeat split;
        (eapply Forall_impl; [|eassumption]); cbv beta; tauto. }
    assert (U2 : filter (typed the_username) t2 = [])
      by (apply filter_none; eapply Forall_impl; [|exact F2]; cbv beta; tauto).
    assert (U3 : filter (typed the_username) tr2 = [])
      by (apply filter_none; eapply Forall_impl; [|exact F3]; cbv beta; tauto).
    assert (P1 : filter (typed the_password) t1 = [])
      by (apply filter_none; eapply Forall_impl; [|exact F1]; cbv beta; tauto).
    assert (P3 : filter (typed the_password) tr2 = [])
      by (apply filter_none; eapply Forall_impl; [|exact F3]; cbv beta; tauto).
    assert (C1 : filter pressed t1 = [])
      by (apply filter_none; eapply Forall_impl; [|exact F1]; cbv beta; tauto).
    assert (C2 : filter pressed t2 = [])
      by (apply filter_none; eapply Forall_impl; [|exact F2]; cbv beta; tauto).
    change (EvLog (LogFillingLoginForm t) :: t1 ++ t2 ++ tr2)
      with ([EvLog (LogFillingLoginForm t)] ++ t1 ++ t2 ++ tr2).
    rewrite !filter_app, !length_app, U2, U3, P1, P3, C1, C2.
    cbn. repeat split; lia. }
  destruct H as [(x & E & ->)|[(e & E & -> & C)|(e & w1 & t1 & t2 & E & _ & _ & _)]];
    apply Body in E; destruct E as (E & R); try discriminate E.
  split; [exact E | exact R].
Qed.


(** X9: [_fill_login_form] never raises, whatever the browser answers, a
    cancellation included.  It starts with its log line, and every call it
    makes is in the context it was given: a visibility check of one of its
    selectors, a credential typed into a selector of that credential, or a
    submit button pressed.  It types the user name at most once with
    success, the password at most once, and presses at most one button with
    success. *)
Theorem login_form_filled_at_most_once t w r w' tr :
  _fill_login_form B t w = (r, w', tr) ->
  r = Ok tt
  /\ (exists rest, tr = EvLog (LogFillingLoginForm t) :: rest)
  /\ Forall (form_step t) tr
  /\ length (filter (typed the_username) tr) <= 1
  /\ length (filter (typed the_password) tr) <= 1
  /\ length (filter pressed tr) <= 1.
Proof. apply fill_login_form_exact. Qed.

(** ** What backs the verdict of the engine *)

Lemma only_after_app c f t1 t2 :
  only_after c f t1 = true ->
  existsb c t1 = true \/ only_after c f t2 = true ->
  only_after c f (t1 ++ t2) = true.
Proof.
  induction t1 as [|e t1 IH]; cbn; intros H1 H2.
  - destruct H2 as [H2|H2]; [discriminate | exact H2].
  - destruct (c e); [reflexivity|]. cbn in H2.
    apply andb_true_iff in H1. destruct H1 as [-> H1]. cbn. now apply IH.
Qed.

Lemma only_after_idle c f t : existsb f t = false -> only_after c f t = true.
Proof.
  induction t as [|e t IH]; cbn; [reflexivity|]. intros H.
  apply orb_false_iff in H. destruct H as [-> H].
  destruct (c e); [reflexivity | now apply IH].
Qed.

Lemma probes_are_idle tr :
  Forall (of_kinds [Probe]) tr -> existsb is_login_action tr = false.
Proof.
  intros F. apply existsb_none.
  apply Forall_excludes with (k := Act) (ks := [Probe]);
    [exact login_action_kind | reflexivity | exact F].
Qed.

Lemma filler_entries_app a b : filler_entries (a ++ b) = filler_entries a + filler_entries b.
Proof. unfold filler_entries. now rewrite filter_app, length_app. Qed.

Lemma filling_kind e : is_filling e = true -> kind_of e = Note.
Proof.
  destruct e as [A a r| |m]; [destruct a|..]; cbn; try congruence.
  now destruct m.
Qed.

Lemma filler_entries_none tr :
  Forall (fun e => is_filling e = false) tr -> filler_entries tr = 0.
Proof. intros F. unfold filler_entries. now rewrite filter_none. Qed.

Lemma filler_entries_kinds ks tr :
  has_kind ks Note = false -> Forall (of_kinds ks) tr -> filler_entries tr = 0.
Proof.
  intros Hk F. apply filler_entries_none.
  apply Forall_excludes with (k := Note) (ks := ks);
    [exact filling_kind | exact Hk | exact F].
Qed.

Lemma first_visible_calls t (a : locator -> action unit) sels :
  always (fun e => is_filling e = false)
    (first_visible B t sels (fun s => call B (a s))).
Proof.
  induction sels as [|s sels IH]; cbn [first_visible];
    repeat step_with ltac:(reflexivity) ltac:(apply IH).
Qed.

Lemma fill_login_form_logs_once t w r w' tr :
  _fill_login_form B t w = (r, w', tr) -> r = Ok tt /\ filler_entries tr = 1.
Proof.
  intros H. split; [now apply fill_login_form_exact in H|].
  unfold _fill_login_form in H.
  match type of H with
  | context [bind (log _) ?k] =>
      assert (K : forall u, always (fun e => is_filling e = false) (k u))
  end.
  { intros u. cbv beta.
    repeat step_with ltac:(reflexivity) ltac:(apply first_visible_calls). }
  match type of H with
  | try_except _ ?m _ _ = _ =>
      assert (Body : forall r1 w1 t1, m w = (r1, w1, t1) -> filler_entries t1 = 1)
  end.
  { intros r1 w1 t1 E. apply bind_run in E.
    destruct E as [(u & w2 & ta & tb & E1 & E2 & ->)|(e & E1 & _)];
      [|discriminate E1].
    inversion E1; subst. rewrite filler_entries_app.
    rewrite (filler_entries_none (tr := tb)); [reflexivity|].
    eapply always_run; [apply (K tt) | exact E2]. }
  apply try_except_run in H.
  destruct H as [(a & E & _)|[(e & E & _)|(e & w1 & t1 & t2 & E & _ & H & ->)]];
    apply Body in E; try exact E.
  inversion H; subst. now rewrite app_nil_r.
Qed.

Lemma calm_none q :
  Forall calm q ->
  existsb login_form_seen q = false /\ existsb is_login_action q = false
  /\ existsb is_filling q = false.
Proof.
  intros F. repeat split; apply existsb_none;
    (eapply Forall_impl; [|exact F]); unfold calm; cbv beta; tauto.
Qed.

Lemma calm_probes q :
  Forall (of_kinds [Probe]) q -> existsb login_form_seen q = false ->
  Forall calm q.
Proof.
  induction 1 as [|e q K _ IH]; cbn; intros S; [constructor|].
  apply orb_false_iff in S. destruct S as [S1 S2].
  constructor; [|now apply IH]. repeat split; [exact S1| |].
  - apply of_kinds_excludes with (k := Act) (ks := [Probe]);
      [exact login_action_kind | reflexivity | exact K].
  - apply of_kinds_excludes with (k := Note) (ks := [Probe]);
      [exact filling_kind | reflexivity | exact K].
Qed.

(** ** One context per call of the login handler *)

(** The [try] of the frames loop and of the popups loop of
    [_handle_login], for the context [t] and the log line [m]. *)
Lemma login_try_exact t m w r w' tr :
  try_except catch_all
    (n <- call B (Count t input_type_password) ;;
     if 0 <? n
     then log m ;;; _fill_login_form B t ;;; ret true
     else ret false)
    (fun _ => ret false) w = (r, w', tr) ->
  (r = Ok false /\ Forall calm tr)
  \/ (r = Ok true /\
      exists n post w0,
        0 < n
        /\ tr = [Ev (Count t input_type_password) (Ok n); EvLog m] ++ post
        /\ _fill_login_form B t w0 = (Ok tt, w', post)).
Proof.
  intros H. apply try_except_run in H.
  destruct H as [(x & E & ->)|[(e & _ & _ & F)|(e & w1 & t1 & t2 & E & _ & H & ->)]];
    [|discriminate F|].
  - apply bind_run in E.
    destruct E as [(n & w1 & t1 & t2 & E1 & E2 & ->)|(e & _ & F)];
      [|discriminate F].
    apply call_run in E1. destruct E1 as [-> _].
    destruct (0 <? n) eqn:N.
    + apply bind_run in E2.
      destruct E2 as [(u & w2 & t3 & t4 & E2 & E3 & ->)|(e & E2 & _)];
        [|discriminate E2].
      inversion E2; subst. clear E2.
      apply bind_run in E3.
      destruct E3 as [(u' & w3 & t5 & t6 & E3 & E4 & ->)|(e & _ & F)];
        [|discriminate F].
      inversion E4; subst. clear E4. rewrite app_nil_r. destruct u'.
      right. split; [reflexivity|]. exists n, t5, w2.
      apply Nat.ltb_lt in N. repeat split; [exact N | exact E3].
    + inversion E2; subst. left. split; [reflexivity|].
      repeat constructor. cbn. exact N.
  - inversion H; subst. rewrite app_nil_r. left. split; [reflexivity|].
    apply bind_run in E.
    destruct E as [(n & w2 & t3 & t4 & E1 & E2 & ->)|(e0 & E1 & _)];
      apply call_run in E1; destruct E1 as [-> _];
      [|now repeat constructor].
    destruct (0 <? n); [|discriminate E2].
    apply bind_run in E2.
    destruct E2 as [(u & w3 & t5 & t6 & _ & E2 & _)|(e0 & E2 & _)];
      [|discriminate E2].
    apply bind_run in E2.
    destruct E2 as [(u' & w4 & t7 & t8 & _ & E2 & _)|(e0 & E2 & _)];
      [discriminate E2|].
    apply fill_login_form_exact in E2. destruct E2 as [F _]. discriminate F.
Qed.

Lemma frames_handle_login_exact page frames : forall w r w' tr,
  frames_handle_login B page frames w = (r, w', tr) ->
  (r = Ok false /\ Forall calm tr)
  \/ (r = Ok true /\
      exists f n q post w0,
        f <> main_frame page /\ 0 < n /\ Forall calm q
        /\ tr = (q ++ [Ev (Count (OnFrame f) input_type_password) (Ok n);
                       EvLog (LogFoundLoginFormInFrame f)]) ++ post
        /\ _fill_login_form B (OnFrame f) w0 = (Ok tt, w', post)).
Proof.
  induction frames as [|f frames IH]; intros w r w' tr H;
    cbn [frames_handle_login] in H.
  - inversion H; subst. left. split; [reflexivity | constructor].
  - destruct (Nat.eqb_spec f (main_frame page)) as [Em|Em];
      [now apply IH in H|].
    apply bind_run in H.
    destruct H as [(handled & w1 & t1 & t2 & E1 & E2 & ->)|(e & E1 & _)];
      apply login_try_exact in E1;
      destruct E1 as [(E1 & C1)|(E1 & n & post & w0 & N & -> & Fill)];
      try discriminate E1.
    + injection E1 as ->. cbv beta iota in E2. apply IH in E2.
      destruct E2 as [(-> & C2)|(-> & f' & n & q & post & w0 & Nm & N & Cq & -> & Fill)].
      * left. split; [reflexivity | apply Forall_app; now split].
      * right. split; [reflexivity|].
        exists f', n, (t1 ++ q), post, w0.
        repeat split; try assumption.
        -- apply Forall_app; now split.
        -- now rewrite <- !app_assoc.
    + injection E1 as ->. inversion E2; subst. rewrite app_nil_r.
      right. split; [reflexivity|].
      exists f, n, [], post, w0. repeat split; try assumption. constructor.
Qed.

Lemma popups_handle_login_exact popups : forall w r w' tr,
  popups_handle_login B popups w = (r, w', tr) ->
  (r = Ok false /\ Forall calm tr)
  \/ (r = Ok true /\
      exists p n q post w0,
        0 < n /\ Forall calm q
        /\ tr = (q ++ [Ev (Count (OnPage p) input_type_password) (Ok n);
                       EvLog (LogFoundLoginFormInPopup p)]) ++ post
        /\ _fill_login_form B (OnPage p) w0 = (Ok tt, w', post)).
Proof.
  induction popups as [|p popups IH]; intros w r w' tr H;
    cbn [popups_handle_login] in H.
  - inversion H; subst. left. split; [reflexivity | constructor].
  - apply bind_run in H.
    destruct H as [(handled & w1 & t1 & t2 & E1 & E2 & ->)|(e & E1 & _)];
      apply login_try_exact in E1;
      destruct E1 as [(E1 & C1)|(E1 & n & post & w0 & N & -> & Fill)];
      try discriminate E1.
    + injection E1 as ->. cbv beta iota in E2. apply IH in E2.
      destruct E2 as [(-> & C2)|(-> & p' & n & q & post & w0 & N & Cq & -> & Fill)].
      * left. split; [reflexivity | apply Forall_app; now split].
      * right. split; [reflexivity|].
        exists p', n, (t1 ++ q), post, w0.
        repeat split; try assumption.
        -- apply Forall_app; now split.
        -- now rewrite <- !app_assoc.
    + injection E1 as ->. inversion E2; subst. rewrite app_nil_r.
      right. split; [reflexivity|].
      exists p, n, [], post, w0. repeat split; try assumption. constructor.
Qed.

Lemma handle_login_exact page w r w' tr :
  _handle_login B page w = (r, w', tr) ->
  match r with
  | Ok true =>
      exists t pre post w0,
        tr = pre ++ post
        /\ login_context page pre t
        /\ existsb is_login_action pre = false
        /\ existsb is_filling pre = false
        /\ _fill_login_form B t w0 = (Ok tt, w', post)
  | Ok false => Forall calm tr
  | Raise e =>
      existsb is_login_action tr = false /\ existsb is_filling tr = false
      /\ (e = Error -> existsb (crashed page) tr = true)
  end.
Proof.
  intros H. unfold _handle_login in H.
  apply bind_run in H.
  destruct H as [(found & w1 & t1 & t2 & E1 & E2 & ->)|(e & E1 & ->)].
  2:{ assert (K : Forall (of_kinds [Probe]) tr)
        by (eapply always_run; [apply has_login_forms_kinds | exact E1]).
      split; [now apply probes_are_idle|]. split.
      - apply existsb_none.
        apply Forall_excludes with (k := Note) (ks := [Probe]);
          [exact filling_kind | reflexivity | exact K].
      - intros ->. now apply has_login_forms_run in E1. }
  assert (K : Forall (of_kinds [Probe]) t1)
    by (eapply always_run; [apply has_login_forms_kinds | exact E1]).
  assert (A1 : existsb is_login_action t1 = false) by now apply probes_are_idle.
  assert (F1 : existsb is_filling t1 = false).
  { apply existsb_none.
    apply Forall_excludes with (k := Note) (ks := [Probe]);
      [exact filling_kind | reflexivity | exact K]. }
  apply has_login_forms_exact in E1. destruct E1 as [_ S1].
  destruct found.
  - apply bind_run in E2.
    destruct E2 as [(u & w3 & t5 & t6 & E3 & E4 & ->)|(e & E3 & _)];
      [|discriminate E3].
    inversion E3; subst. clear E3.
    apply bind_run in E4.
    destruct E4 as [(u' & w4 & t7 & t8 & E4 & E5 & ->)|(e & E4 & _)].
    2:{ apply fill_login_form_exact in E4. destruct E4 as [F _].
        discriminate F. }
    inversion E5; subst. clear E5. rewrite app_nil_r. destruct u'.
    exists (OnPage (page_id page)), (t1 ++ [EvLog LogFoundLoginFormOnMainPage]),
      t7, w3.
    split; [now rewrite <- app_assoc|]. split.
    { left. split; [reflexivity|]. exists t1. split; [reflexivity|].
      now symmetry. }
    rewrite !existsb_app, A1, F1. repeat split. exact E4.
  - assert (C1 : Forall calm t1) by (apply calm_probes; [exact K | now symmetry]).
    apply bind_run in E2.
    destruct E2 as [(frames & w3 & t5 & t6 & E3 & E4 & ->)|(e & E3 & _)];
      [|discriminate E3].
    inversion E3; subst. clear E3. cbn [app].
    apply bind_run in E4.
    destruct E4 as [(handled & w4 & t7 & t8 & E4 & E5 & ->)|(e & E4 & _)];
      apply frames_handle_login_exact in E4;
      destruct E4 as [(E4 & C7)|(E4 & f & n & q & post & w0 & Nm & N & Cq & -> & Fill)];
      try discriminate E4.
    + injection E4 as ->.
      apply bind_run in E5.
      destruct E5 as [(pages & w5 & t9 & t10 & E5 & E6 & ->)|(e & E5 & _)];
        [|discriminate E5].
      inversion E5; subst. clear E5. cbn [app].
      destruct (1 <? length (context_pages B w5)).
      * apply popups_handle_login_exact in E6.
        destruct E6 as [(-> & C10)|(-> & p & n & q & post & w0 & N & Cq & -> & Fill)].
        -- repeat (apply Forall_app; split); assumption.
        -- exists (OnPage p),
             (t1 ++ t7 ++ q ++ [Ev (Count (OnPage p) input_type_password) (Ok n);
                                EvLog (LogFoundLoginFormInPopup p)]),
             post, w0.
           assert (Cq' : Forall calm (t1 ++ t7 ++ q))
             by (repeat (apply Forall_app; split); assumption).
           destruct (calm_none Cq') as (Q1 & Q2 & Q3).
           split; [now rewrite <- !app_assoc|]. split.
           { right. right. exists p, n, (t1 ++ t7 ++ q).
             repeat split; try assumption. now rewrite <- !app_assoc. }
           replace (t1 ++ t7 ++ q ++ [Ev (Count (OnPage p) input_type_password) (Ok n);
                                      EvLog (LogFoundLoginFormInPopup p)])
             with ((t1 ++ t7 ++ q)
                   ++ [Ev (Count (OnPage p) input_type_password) (Ok n);
                       EvLog (LogFoundLoginFormInPopup p)])
             by now rewrite <- !app_assoc.
           rewrite (existsb_app is_login_action (t1 ++ t7 ++ q)),
             (existsb_app is_filling (t1 ++ t7 ++ q)), Q2, Q3.
           repeat split. exact Fill.
      * inversion E6; subst. rewrite app_nil_r.
        apply Forall_app; now split.
    + injection E4 as ->. inversion E5; subst. clear E5. rewrite app_nil_r.
      exists (OnFrame f),
        (t1 ++ q ++ [Ev (Count (OnFrame f) input_type_password) (Ok n);
                     EvLog (LogFoundLoginFormInFrame f)]),
        post, w0.
      assert (Cq' : Forall calm (t1 ++ q)) by (apply Forall_app; now split).
      destruct (calm_none Cq') as (Q1 & Q2 & Q3).
      split; [now rewrite <- !app_assoc|]. split.
      { right. left. exists f, n, (t1 ++ q).
        repeat split; try assumption. now rewrite <- !app_assoc. }
      replace (t1 ++ q ++ [Ev (Count (OnFrame f) input_type_password) (Ok n);
                           EvLog (LogFoundLoginFormInFrame f)])
        with ((t1 ++ q)
              ++ [Ev (Count (OnFrame f) input_type_password) (Ok n);
                  EvLog (LogFoundLoginFormInFrame f)])
        by now rewrite <- !app_assoc.
      rewrite (existsb_app is_login_action (t1 ++ q)),
        (existsb_app is_filling (t1 ++ q)), Q2, Q3.
      repeat split. exact Fill.
Qed.

(** X16: [_handle_login] answers [True] exactly when it entered the
    filler, which it does once and for one context: the primary document
    whenever the login-form check (which scans the frames too) was
    positive; else the first nested frame, else the first popup, whose
    count of password fields is positive.  Before the filler nothing is
    typed or pressed; what the filler types and presses is in that
    context, each credential and the button at most once.  When it answers
    [False] no login form was found and nothing was typed or pressed; when
    it raises, the login-form check raised and nothing was typed or
    pressed. *)
Theorem handle_login_fills_one_form page w r w' tr :
  _handle_login B page w = (r, w', tr) ->
  match r with
  | Ok true =>
      exists t pre post w0,
        tr = pre ++ post
        /\ login_context page pre t
        /\ existsb is_login_action pre = false
        /\ existsb is_filling pre = false
        /\ _fill_login_form B t w0 = (Ok tt, w', post)
        /\ Forall (form_step t) post
        /\ length (filter (typed the_username) post) <= 1
        /\ length (filter (typed the_password) post) <= 1
        /\ length (filter pressed post) <= 1
  | Ok false => Forall calm tr
  | Raise e =>
      existsb is_login_action tr = false /\ existsb is_filling tr = false
      /\ (e = Error -> existsb (crashed page) tr = true)
  end.
Proof.
  intros H. apply handle_login_exact in H.
  destruct r as [[|]|e]; try exact H.
  destruct H as (t & pre & post & w0 & E & C & A & F & Fill).
  exists t, pre, post, w0.
  destruct (fill_login_form_exact _ _ Fill) as (_ & _ & S & U & P & X).
  repeat split; assumption.
Qed.

(** ** What backs the verdict of the engine *)

Lemma backed_after logged t1 t2 : backed logged t2 -> backed logged (t1 ++ t2).
Proof.
  intros [A L]. split; [rewrite existsb_app, A; apply orb_true_r|].
  intros E. destruct (L E) as (pre & post & -> & S & F & P).
  exists (t1 ++ pre), post. split; [now rewrite <- app_assoc|].
  rewrite !existsb_app, S, F, !orb_true_r. repeat split. exact P.
Qed.

Lemma login_step_run page (forms : bool) k w r w' tr :
  (if forms
   then log (LogAuthenticationAttempt (k + 1)) ;;;
        handled <- _handle_login B page ;;
        if handled
        then call B (Sleep 3) ;;;
             now_authenticated <- _is_authenticated B page ;;
             if now_authenticated
             then log LogAuthenticationSuccessful ;;; ret true
             else ret false
        else ret false
   else ret false) w = (r, w', tr) ->
  match r with
  | Ok true =>
      forms = true
      /\ exists pre post,
           tr = pre ++ Ev (Sleep 3) (Ok tt) :: post
           /\ existsb is_filling pre = true
           /\ existsb affordance_seen post = true
  | Ok false => True
  | Raise e => e = Error -> existsb (crashed page) tr = true
  end.
Proof.
  intros H. destruct forms; [|inversion H; subst; exact I].
  apply bind_run in H.
  destruct H as [(u & w1 & t1 & t2 & E1 & E2 & ->)|(e & E1 & _)];
    [|discriminate E1].
  inversion E1; subst. clear E1.
  apply bind_run in E2.
  destruct E2 as [(handled & w2 & t3 & t4 & E2 & E3 & ->)|(e & E2 & ->)];
    apply handle_login_exact in E2.
  2:{ destruct E2 as (_ & _ & C). intros X. cbn. now apply C. }
  destruct handled; [|inversion E3; subst; exact I].
  destruct E2 as (t & pre & post & w0 & -> & _ & _ & _ & Fill).
  apply fill_login_form_logs_once in Fill. destruct Fill as [_ Fill].
  assert (Fl : existsb is_filling post = true).
  { unfold filler_entries in Fill. destruct (filter is_filling post) eqn:X;
      [discriminate Fill|].
    assert (I0 : In e (filter is_filling post)) by (rewrite X; now left).
    apply filter_In in I0. apply existsb_exists. now exists e. }
  apply bind_run in E3.
  destruct E3 as [(u' & w3 & t5 & t6 & E3 & E4 & ->)|(e & E3 & ->)];
    apply call_run in E3; destruct E3 as [-> _].
  2:{ intros ->. rewrite !existsb_app. cbn. now rewrite !orb_true_r. }
  destruct u'.
  apply bind_run in E4.
  destruct E4 as [(now & w4 & t7 & t8 & E4 & E5 & ->)|(e & E4 & _)].
  2:{ apply is_authenticated_run in E4. discriminate E4. }
  apply is_authenticated_run in E4. injection E4 as E4.
  destruct now; [|inversion E5; subst; exact I].
  cbn in E5. inversion E5; subst. clear E5.
  split; [reflexivity|].
  exists ([EvLog (LogAuthenticationAttempt (k + 1))] ++ pre ++ post),
    (t7 ++ [EvLog LogAuthenticationSuccessful]).
  split; [now rewrite <- !app_assoc|]. split.
  - rewrite !existsb_app, Fl. cbn. now rewrite !orb_true_r.
  - now rewrite existsb_app, <- E4.
Qed.

Lemma auth_attempts_backed page n : forall k w r w' tr,
  auth_attempts B page n k w = (r, w', tr) ->
  only_after login_form_seen is_login_action tr = true
  /\ match r with
     | Ok logged => backed logged tr
     | Raise e => e = Error -> existsb (crashed page) tr = true
     end.
Proof.
  induction n as [|n IH]; intros k w r w' tr H; cbn [auth_attempts] in H.
  - inversion H; subst. split; [reflexivity | discriminate].
  - apply bind_run in H.
    destruct H as [(a & w1 & t1 & t2 & E1 & E2 & ->)|(e & E1 & _)].
    2:{ apply is_authenticated_run in E1. discriminate E1. }
    assert (I1 : only_after login_form_seen is_login_action t1 = true).
    { apply only_after_idle, probes_are_idle.
      eapply always_run; [|exact E1]. apply is_authenticated_kinds. }
    apply is_authenticated_run in E1. injection E1 as E1.
    destruct a.
    + cbn in E2. inversion E2; subst. split.
      * apply only_after_app; [exact I1 | now right].
      * split; [rewrite existsb_app, <- E1; reflexivity | discriminate].
    + apply bind_run in E2.
      destruct E2 as [(forms & w2 & t3 & t4 & E3 & E4 & ->)|(e & E3 & ->)].
      2:{ split.
          - apply only_after_app; [exact I1|]. right.
            apply only_after_idle, probes_are_idle.
            eapply always_run; [|exact E3]. apply has_login_forms_kinds.
          - intros ->. apply has_login_forms_run in E3.
            rewrite existsb_app, E3. apply orb_true_r. }
      assert (I3 : only_after login_form_seen is_login_action t3 = true).
      { apply only_after_idle, probes_are_idle.
        eapply always_run; [|exact E3]. apply has_login_forms_kinds. }
      apply has_login_forms_run in E3. rename E3 into S3.
      apply bind_run in E4.
      destruct E4 as [(logged & w3 & t5 & t6 & E5 & E6 & ->)|(e & E5 & ->)].
      2:{ split.
          - apply only_after_app; [exact I1|]. right.
            apply only_after_app; [exact I3|].
            destruct forms; [now left | inversion E5].
          - intros ->. apply login_step_run in E5.
            rewrite !existsb_app, (E5 eq_refl). now rewrite !orb_true_r. }
      assert (O5 : existsb login_form_seen t3 = true
                   \/ only_after login_form_seen is_login_action t5 = true).
      { destruct forms; [now left|]. right. now inversion E5. }
      destruct logged.
      * inversion E6; subst. rewrite app_nil_r.
        apply login_step_run in E5.
        destruct E5 as (-> & pre & post & -> & Fl & A).
        split.
        -- apply only_after_app; [exact I1|]. right.
           apply only_after_app; [exact I3 | now left].
        -- split.
           ++ rewrite !existsb_app. cbn. rewrite A. now rewrite !orb_true_r.
           ++ intros _. exists (t1 ++ t3 ++ pre), post.
              split; [now rewrite <- !app_assoc|].
              rewrite !existsb_app, S3, Fl, !orb_true_r. repeat split. exact A.
      * apply bind_run in E6.
        destruct E6 as [(u & w4 & t7 & t8 & E6 & E7 & ->)|(e & E6 & ->)].
        -- apply call_run in E6. destruct E6 as [-> _].
           apply IH in E7. destruct E7 as [O7 R7]. split.
           ++ apply only_after_app; [exact I1|]. right.
              apply only_after_app; [exact I3|].
              destruct O5 as [O5|O5]; [now left|]. right.
              apply only_after_app; [exact O5|]. right.
              exact O7.
           ++ destruct r as [b|e].
              ** rewrite !app_assoc. apply backed_after.
                 change (Ev (Sleep 2) (Ok u) :: t8)
                   with ([Ev (Sleep 2) (Ok u)] ++ t8) in R7 |- *.
                 exact R7.
              ** intros X. rewrite !existsb_app. cbn [existsb].
                 rewrite (R7 X). now rewrite !orb_true_r.
        -- apply call_run in E6. destruct E6 as [-> _]. split.
           ++ apply only_after_app; [exact I1|]. right.
              apply only_after_app; [exact I3|].
              destruct O5 as [O5|O5]; [now left|]. right.
              apply only_after_app; [exact O5|]. now right.
           ++ intros ->. rewrite !existsb_app. cbn. now rewrite !orb_true_r.
Qed.

Lemma ensure_authenticated_backed page timeout w r w' tr :
  ensure_authenticated B page timeout w = (r, w', tr) ->
  only_after login_form_seen is_login_action tr = true
  /\ match r with
     | Ok (true, logged) => 0 < timeout /\ backed logged tr
     | Ok (false, logged) =>
         logged = false
         /\ exists t0, tr = t0 ++ [EvLog (LogAuthenticationTimedOut timeout)]
     | Raise e =>
         (e = Error /\ existsb (crashed page) tr = true)
         \/ (e = CancelledError /\ timer_fired B w' = false)
     end.
Proof.
  intros H. apply ensure_authenticated_run in H.
  destruct H as [(-> & -> & -> & ->)|(Pos & r0 & t0 & E & H)].
  { split; [reflexivity|]. split; [reflexivity|]. now exists [EvWaitFor 0]. }
  apply auth_attempts_backed in E. destruct E as [O R].
  destruct H as [(b & -> & -> & ->)|[(-> & -> & ->)
                 |[(-> & F & -> & ->)|(R0 & -> & ->)]]].
  - split; [exact O|]. split; [exact Pos|].
    change (EvWaitFor timeout :: t0) with ([EvWaitFor timeout] ++ t0).
    now apply backed_after.
  - split; [exact O|]. left. split; [reflexivity|]. cbn. now apply R.
  - split; [exact O|]. right. now split.
  - split.
    + change (only_after login_form_seen is_login_action
                (t0 ++ [EvLog (LogAuthenticationTimedOut timeout)]) = true).
      apply only_after_app; [exact O | now right].
    + split; [reflexivity|].
      now exists (EvWaitFor timeout :: t0).
Qed.

(** X10: the verdict of [ensure_authenticated] is backed by what it saw.
    It answers [(True, _)] only with a positive time-out and after a check
    saw the download affordance, and [(True, True)] only when the run has a
    successful three-second wait before which a login-form probe found a
    form and the filler was entered, and after which a check saw the
    affordance.  When it answers that the session is not authenticated it
    never claims a login, and its last act is the log line of the
    time-out.  It raises only an error of the browser that a call outside
    a [try] raised, or a cancellation that is not the timer's. *)
Theorem authentication_verdict_is_backed page timeout w r w' tr :
  ensure_authenticated B page timeout w = (r, w', tr) ->
  match r with
  | Ok (true, logged) => 0 < timeout /\ backed logged tr
  | Ok (false, logged) =>
      logged = false
      /\ exists t0, tr = t0 ++ [EvLog (LogAuthenticationTimedOut timeout)]
  | Raise e =>
      (e = Error /\ existsb (crashed page) tr = true)
      \/ (e = CancelledError /\ timer_fired B w' = false)
  end.
Proof. intros H. now apply ensure_authenticated_backed in H. Qed.

(** X11: in an invocation of [ensure_authenticated] no credential is typed
    and no button pressed before a login-form probe has found a form. *)
Theorem credentials_only_after_login_form page timeout w r w' tr :
  ensure_authenticated B page timeout w = (r, w', tr) ->
  only_after login_form_seen is_login_action tr = true.
Proof. intros H. now apply ensure_authenticated_backed in H. Qed.

(** ** At most six login attempts *)

Lemma count_calm (c : event -> bool) q :
  (forall e, c e = true -> is_login_action e = true \/ is_filling e = true) ->
  existsb is_login_action q = false -> existsb is_filling q = false ->
  filter c q = [].
Proof.
  intros Hc. induction q as [|e q IH]; cbn; [reflexivity|]. intros A F.
  apply orb_false_iff in A. destruct A as [A1 A2].
  apply orb_false_iff in F. destruct F as [F1 F2].
  destruct (c e) eqn:X; [|now apply IH].
  destruct (Hc _ X); congruence.
Qed.

Lemma count_kinds (c : event -> bool) ks q :
  (forall e, c e = true -> is_login_action e = true \/ is_filling e = true) ->
  has_kind ks Act = false -> has_kind ks Note = false ->
  Forall (of_kinds ks) q -> filter c q = [].
Proof.
  intros Hc Ka Kn F. apply count_calm; [exact Hc| |]; apply existsb_none.
  - apply Forall_excludes with (k := Act) (ks := ks);
      [exact login_action_kind | exact Ka | exact F].
  - apply Forall_excludes with (k := Note) (ks := ks);
      [exact filling_kind | exact Kn | exact F].
Qed.

Section Counting.
Variable c : event -> bool.
Hypothesis c_acts :
  forall e, c e = true -> is_login_action e = true \/ is_filling e = true.
Hypothesis c_once :
  forall t w r w' tr,
    _fill_login_form B t w = (r, w', tr) -> length (filter c tr) <= 1.

Lemma handle_login_counts page w r w' tr :
  _handle_login B page w = (r, w', tr) -> length (filter c tr) <= 1.
Proof.
  intros H. apply handle_login_exact in H. destruct r as [[|]|e].
  - destruct H as (t & pre & post & w0 & -> & _ & A & F & Fill).
    rewrite filter_app, length_app, (@count_calm c _ c_acts A F).
    apply c_once in Fill. cbn. lia.
  - destruct (calm_none H) as (_ & A & F).
    rewrite (@count_calm c _ c_acts A F). cbn. lia.
  - destruct H as (A & F & _).
    rewrite (@count_calm c _ c_acts A F). cbn. lia.
Qed.

Lemma login_step_counts page (forms : bool) k w r w' tr :
  (if forms
   then log (LogAuthenticationAttempt (k + 1)) ;;;
        handled <- _handle_login B page ;;
        if handled
        then call B (Sleep 3) ;;;
             now_authenticated <- _is_authenticated B page ;;
             if now_authenticated
             then log LogAuthenticationSuccessful ;;; ret true
             else ret false
        else ret false
   else ret false) w = (r, w', tr) ->
  length (filter c tr) <= 1.
Proof.
  intros H. destruct forms; [|inversion H; subst; cbn; lia].
  apply bind_run in H.
  destruct H as [(u & w1 & t1 & t2 & E1 & E2 & ->)|(e & E1 & _)];
    [|discriminate E1].
  inversion E1; subst. clear E1.
  assert (L0 : filter c [EvLog (LogAuthenticationAttempt (k + 1))] = [])
    by (apply count_calm; [exact c_acts | reflexivity | reflexivity]).
  rewrite filter_app, length_app, L0. cbn [length Nat.add].
  apply bind_run in E2.
  destruct E2 as [(handled & w2 & t3 & t4 & E2 & E3 & ->)|(e & E2 & _)];
    apply handle_login_counts in E2; [|exact E2].
  rewrite filter_app, length_app.
  assert (T4 : filter c t4 = []).
  { destruct handled; [|now inversion E3].
    apply count_kinds with (ks := [Pause; Probe; LoginReport]);
      [exact c_acts | reflexivity | reflexivity|].
    eapply always_run; [|exact E3].
    of_kinds_with ltac:(from_kinds (@is_authenticated_kinds)). }
  rewrite T4. cbn. lia.
Qed.

Lemma auth_attempts_counts page n : forall k w r w' tr,
  auth_attempts B page n k w = (r, w', tr) -> length (filter c tr) <= n.
Proof.
  induction n as [|n IH]; intros k w r w' tr H; cbn [auth_attempts] in H.
  - inversion H; subst. cbn. lia.
  - apply bind_run in H.
    destruct H as [(a & w1 & t1 & t2 & E1 & E2 & ->)|(e & E1 & _)].
    2:{ apply is_authenticated_run in E1. discriminate E1. }
    assert (T1 : filter c t1 = []).
    { apply count_kinds with (ks := [Probe]);
        [exact c_acts | reflexivity | reflexivity|].
      eapply always_run; [apply is_authenticated_kinds | exact E1]. }
    rewrite filter_app, length_app, T1. cbn [length Nat.add].
    destruct a.
    { cbn in E2. inversion E2; subst.
      rewrite (@count_calm c [EvLog LogAlreadyAuthenticated] c_acts);
        [cbn; lia | reflexivity | reflexivity]. }
    apply bind_run in E2.
    destruct E2 as [(forms & w2 & t3 & t4 & E3 & E4 & ->)|(e & E3 & _)].
    2:{ rewrite (@count_kinds c [Probe] t2);
          [cbn; lia | exact c_acts | reflexivity | reflexivity|].
        eapply always_run; [apply has_login_forms_kinds | exact E3]. }
    assert (T3 : filter c t3 = []).
    { apply count_kinds with (ks := [Probe]);
        [exact c_acts | reflexivity | reflexivity|].
      eapply always_run; [apply has_login_forms_kinds | exact E3]. }
    rewrite filter_app, length_app, T3. cbn [length Nat.add].
    apply bind_run in E4.
    destruct E4 as [(logged & w3 & t5 & t6 & E5 & E6 & ->)|(e & E5 & _)];
      apply login_step_counts in E5; [|lia].
    rewrite filter_app, length_app.
    destruct logged; [inversion E6; subst; cbn; lia|].
    apply bind_run in E6.
    destruct E6 as [(u & w4 & t7 & t8 & E6 & E7 & ->)|(e & E6 & _)];
      apply call_run in E6; destruct E6 as [-> _].
    + apply IH in E7. rewrite filter_app, length_app.
      rewrite (@count_calm c [Ev (Sleep 2) (Ok u)] c_acts);
        [cbn; lia | reflexivity | reflexivity].
    + rewrite (@count_calm c [Ev (Sleep 2) (Raise e)] c_acts);
        [cbn; lia | reflexivity | reflexivity].
Qed.

Lemma ensure_authenticated_counts page timeout w r w' tr :
  ensure_authenticated B page timeout w = (r, w', tr) ->
  length (filter c tr) <= 6.
Proof.
  intros H. apply ensure_authenticated_run in H.
  assert (L0 : forall n, filter c [EvWaitFor n] = [])
    by (intros n; apply count_calm; [exact c_acts | reflexivity | reflexivity]).
  assert (L1 : forall n, filter c [EvLog (LogAuthenticationTimedOut n)] = [])
    by (intros n; apply count_calm; [exact c_acts | reflexivity | reflexivity]).
  destruct H as [(-> & -> & -> & ->)|(Pos & r0 & t0 & E & H)].
  { change [EvWaitFor 0; EvLog (LogAuthenticationTimedOut 0)]
      with ([EvWaitFor 0] ++ [EvLog (LogAuthenticationTimedOut 0)]).
    rewrite filter_app, L0, L1. cbn. lia. }
  apply auth_attempts_counts in E.
  destruct H as [(b & _ & _ & ->)|[(_ & _ & ->)|[(_ & _ & _ & ->)|(_ & _ & ->)]]];
    change (EvWaitFor timeout :: ?t) with ([EvWaitFor timeout] ++ t);
    rewrite ?filter_app, ?length_app, ?L0, ?L1; cbn; lia.
Qed.
End Counting.

(** X17: one invocation of [ensure_authenticated] enters the login-form
    filler at most six times, once per turn of the loop; so it types the
    user name, types the password and presses a submit button at most six
    times each with success. *)
Theorem at_most_six_login_attempts page timeout w r w' tr :
  ensure_authenticated B page timeout w = (r, w', tr) ->
  filler_entries tr <= 6
  /\ length (filter (typed the_username) tr) <= 6
  /\ length (filter (typed the_password) tr) <= 6
  /\ length (filter pressed tr) <= 6.
Proof.
  intros H.
  assert (Ty : forall v e, typed v e = true ->
                 is_login_action e = true \/ is_filling e = true).
  { intros v e X. left. destruct e as [A a r0| |]; [|discriminate..].
    destruct a; try discriminate X. reflexivity. }
  assert (Pr : forall e, pressed e = true ->
                 is_login_action e = true \/ is_filling e = true).
  { intros e X. left. destruct e as [A a r0| |]; [|discriminate..].
    destruct a; try discriminate X. reflexivity. }
  repeat split.
  - apply (ensure_authenticated_counts is_filling) with (page := page)
      (timeout := timeout) (w := w) (r := r) (w' := w'); [now right| |exact H].
    intros t w0 r0 w1 t0 E. apply fill_login_form_logs_once in E.
    destruct E as [_ E]. unfold filler_entries in E. lia.
  - apply (ensure_authenticated_counts (typed the_username)) with (page := page)
      (timeout := timeout) (w := w) (r := r) (w' := w'); [apply Ty| |exact H].
    intros t w0 r0 w1 t0 E. now apply fill_login_form_exact in E.
  - apply (ensure_authenticated_counts (typed the_password)) with (page := page)
      (timeout := timeout) (w := w) (r := r) (w' := w'); [apply Ty| |exact H].
    intros t w0 r0 w1 t0 E. now apply fill_login_form_exact in E.
  - apply (ensure_authenticated_counts pressed) with (page := page)
      (timeout := timeout) (w := w) (r := r) (w' := w'); [apply Pr| |exact H].
    intros t w0 r0 w1 t0 E. now apply fill_login_form_exact in E.
Qed.

(** ** One item *)

Lemma capture_kind e : is_capture e = true -> kind_of e = Capture.
Proof. destruct e as [A a r| |]; [destruct a|..]; cbn; congruence. Qed.

Lemma row_click_kind e : is_row_click e = true -> kind_of e = Open.
Proof. destruct e as [A a r| |]; [destruct a|..]; cbn; congruence. Qed.

Lemma close_kind e : is_close e = true -> kind_of e = Close.
Proof. destruct e as [A a r| |]; [destruct a|..]; cbn; congruence. Qed.

Lemma engine_never_captures page timeout w r w' tr :
  ensure_authenticated B page timeout w = (r, w', tr) ->
  existsb is_capture tr = false.
Proof.
  intros H. apply existsb_none.
  apply Forall_excludes
    with (k := Capture) (ks := [Probe; Act; Note; Pause; LoginReport; Timer]);
    [exact capture_kind | reflexivity|].
  eapply always_run; [|exact H]. apply ensure_authenticated_kinds.
Qed.

(** The body of the [try] of [download_pdf_from_result]. *)
Lemma download_body_run page result slug url w r w' tr :
  (call B (RowClick (row_element result)) ;;;
   call B (WaitForTimeout 3000%N) ;;;
   current_url <- observe (page_url B) ;;
   if negb (contains (py "/doc/") current_url) then ret None
   else
     auth <- ensure_authenticated B page 30 ;;
     let (was_authenticated, just_logged_in) := (auth : bool * bool) in
     if negb was_authenticated then ret None
     else
       (if just_logged_in then save_session B else ret tt) ;;;
       visible <- call B (IsVisible (OnPage (page_id page)) role_download_free) ;;
       if visible
       then
         call B (ExpectDownload 30000%N) ;;;
         call B (Click (OnPage (page_id page)) role_download_free) ;;;
         download <- call B AwaitDownload ;;
         let final_filename :=
           final_filename (index result) slug (suggested_filename download) in
         call B (SaveAs download final_filename) ;;;
         call B (Goto url) ;;;
         call B (WaitForTimeout 2000%N) ;;;
         ret (Some final_filename)
       else ret None) w = (r, w', tr) ->
  (forall name, r = Ok (Some name) ->
     exists d pre,
       name = final_filename (index result) slug (suggested_filename d)
       /\ tr = pre ++ [Ev AwaitDownload (Ok d); Ev (SaveAs d name) (Ok tt);
                       Ev (Goto url) (Ok tt);
                       Ev (WaitForTimeout 2000%N) (Ok tt)]
       /\ existsb affordance_seen pre = true)
  /\ (existsb affordance_seen tr = true \/ existsb is_capture tr = false).
Proof.
  intros H.
  apply bind_run in H.
  destruct H as [(u1 & w1 & t1 & r1 & E1 & H & ->)|(e & E1 & ->)];
    apply call_run in E1; destruct E1 as [-> _];
    [|split; [discriminate | now right]].
  apply bind_run in H.
  destruct H as [(u2 & w2 & t2 & r2 & E2 & H & ->)|(e & E2 & ->)];
    apply call_run in E2; destruct E2 as [-> _];
    [|split; [discriminate | now right]].
  apply bind_run in H.
  destruct H as [(cu & w3 & t3 & r3 & E3 & H & ->)|(e & E3 & _)];
    [|discriminate E3].
  inversion E3; subst. clear E3.
  destruct (negb (contains (py "/doc/") (page_url B w3))).
  { inversion H; subst. split; [discriminate | now right]. }
  apply bind_run in H.
  destruct H as [(auth & w4 & ta & r4 & Ea & H & ->)|(e & Ea & ->)].
  2:{ split; [discriminate|]. right. cbn.
      now apply engine_never_captures in Ea. }
  pose proof (engine_never_captures _ _ _ Ea) as Ca.
  apply ensure_authenticated_backed in Ea. destruct Ea as [_ Ba].
  destruct auth as [[|] logged]; cbn [negb] in H.
  2:{ inversion H; subst. split; [discriminate|]. right. cbn.
      now rewrite app_nil_r. }
  destruct Ba as [_ [Seen _]].
  assert (Left : forall rest,
            existsb affordance_seen
              ([Ev (RowClick (row_element result)) (Ok u1)] ++
               [Ev (WaitForTimeout 3000%N) (Ok u2)] ++ [] ++ ta ++ rest)
            = true).
  { intros rest. cbn. rewrite existsb_app, Seen. reflexivity. }
  apply bind_run in H.
  destruct H as [(u5 & w5 & ts & r5 & Es & H & ->)|(e & Es & ->)];
    [|split; [discriminate | left; apply Left]].
  apply bind_run in H.
  destruct H as [(visible & w6 & t6 & r6 & E6 & H & ->)|(e & E6 & ->)];
    [|split; [discriminate | left; apply Left]].
  apply call_run in E6. destruct E6 as [-> _].
  destruct visible;
    [|inversion H; subst; split; [discriminate | left; apply Left]].
  apply bind_run in H.
  destruct H as [(u7 & w7 & t7 & r7 & E7 & H & ->)|(e & E7 & ->)];
    [|split; [discriminate | left; apply Left]].
  apply call_run in E7. destruct E7 as [-> _].
  apply bind_run in H.
  destruct H as [(u8 & w8 & t8 & r8 & E8 & H & ->)|(e & E8 & ->)];
    [|split; [discriminate | left; apply Left]].
  apply call_run in E8. destruct E8 as [-> _].
  apply bind_run in H.
  destruct H as [(d & w9 & t9 & r9 & E9 & H & ->)|(e & E9 & ->)];
    [|split; [discriminate | left; apply Left]].
  apply call_run in E9. destruct E9 as [-> _].
  cbv zeta in H.
  apply bind_run in H.
  destruct H as [(u10 & w10 & t10 & r10 & E10 & H & ->)|(e & E10 & ->)];
    [|split; [discriminate | left; apply Left]].
  apply call_run in E10. destruct E10 as [-> _].
  apply bind_run in H.
  destruct H as [(u11 & w11 & t11 & r11 & E11 & H & ->)|(e & E11 & ->)];
    [|split; [discriminate | left; apply Left]].
  apply call_run in E11. destruct E11 as [-> _].
  apply bind_run in H.
  destruct H as [(u12 & w12 & t12 & r12 & E12 & H & ->)|(e & E12 & ->)];
    [|split; [discriminate | left; apply Left]].
  apply call_run in E12. destruct E12 as [-> _].
  inversion H; subst. split; [|left; apply Left].
  intros name E. injection E as <-.
  destruct u10, u11, u12.
  exists d,
    ([Ev (RowClick (row_element result)) (Ok u1)] ++
     [Ev (WaitForTimeout 3000%N) (Ok u2)] ++ ta ++ ts ++
     [Ev (IsVisible (OnPage (page_id page)) role_download_free) (Ok true);
      Ev (ExpectDownload 30000%N) (Ok u7);
      Ev (Click (OnPage (page_id page)) role_download_free) (Ok u8)]).
  split; [reflexivity|]. split.
  - cbn [app]. rewrite <- !app_assoc. reflexivity.
  - cbn. rewrite existsb_app, Seen. reflexivity.
Qed.

Lemma download_pdf_from_result_exact page result slug url w r w' tr :
  download_pdf_from_result B page result slug url w = (r, w', tr) ->
  match r with
  | Ok (Some name) =>
      exists d pre,
        name = final_filename (index result) slug (suggested_filename d)
        /\ tr = pre ++ [Ev AwaitDownload (Ok d); Ev (SaveAs d name) (Ok tt);
                        Ev (Goto url) (Ok tt);
                        Ev (WaitForTimeout 2000%N) (Ok tt)]
        /\ existsb affordance_seen pre = true
  | Ok None => True
  | Raise e => e = CancelledError
  end
  /\ (existsb affordance_seen tr = true \/ existsb is_capture tr = false).
Proof.
  intros H. unfold download_pdf_from_result in H.
  apply try_except_run in H.
  destruct H as [(a & E & ->)|[(e & E & -> & F)|(e & w1 & t1 & t2 & E & _ & H & ->)]];
    apply download_body_run in E; destruct E as [Name Seen].
  - split; [|exact Seen]. destruct a as [name|]; [|exact I].
    now apply Name.
  - split; [now apply not_exception | exact Seen].
  - inversion H; subst. rewrite app_nil_r. split; [exact I | exact Seen].
Qed.

(** X12: [download_pdf_from_result] returns a file name only when the
    download was awaited, stored under that name, and the browser went back
    to the results page and settled, these four calls being its last and all
    successful; the name is the stored name built from the ordinal of the
    result, the slug and the name the server suggested.  Nothing is captured
    unless the engine saw the download affordance first.  An [Exception] at
    any step makes it answer [None]; only a cancellation gets out. *)
Theorem file_name_returned_only_when_stored page result slug url w r w' tr :
  download_pdf_from_result B page result slug url w = (r, w', tr) ->
  match r with
  | Ok (Some name) =>
      exists d pre,
        name = final_filename (index result) slug (suggested_filename d)
        /\ tr = pre ++ [Ev AwaitDownload (Ok d); Ev (SaveAs d name) (Ok tt);
                        Ev (Goto url) (Ok tt);
                        Ev (WaitForTimeout 2000%N) (Ok tt)]
        /\ existsb affordance_seen pre = true
  | Ok None => True
  | Raise e => e = CancelledError
  end
  /\ (existsb affordance_seen tr = true \/ existsb is_capture tr = false).
Proof. apply download_pdf_from_result_exact. Qed.


(** ** The items loop *)

Lemma rows_opened_app a b : rows_opened (a ++ b) = rows_opened a + rows_opened b.
Proof. unfold rows_opened. now rewrite filter_app, length_app. Qed.

Lemma rows_opened_kinds ks tr :
  has_kind ks Open = false -> Forall (of_kinds ks) tr -> rows_opened tr = 0.
Proof.
  intros Hk F. unfold rows_opened. rewrite filter_none; [reflexivity|].
  apply Forall_excludes with (k := Open) (ks := ks);
    [exact row_click_kind | exact Hk | exact F].
Qed.

Lemma item_opens_one_row page result slug url w r w' tr :
  download_pdf_from_result B page result slug url w = (r, w', tr) ->
  rows_opened tr = 1.
Proof.
  intros H. unfold download_pdf_from_result in H.
  match type of H with
  | context [bind (call B (RowClick _)) ?k] =>
      assert (K : forall u,
                always (of_kinds [Wait; Probe; Act; Note; Pause; LoginReport;
                                  Timer; Save; Capture; Navigation]) (k u))
  end.
  { intros u. cbv beta.
    of_kinds_with ltac:(from_kinds (@ensure_authenticated_kinds)
                        || from_kinds (@save_session_kinds)). }
  match type of H with
  | try_except _ ?m _ _ = _ =>
      assert (Body : forall r1 w1 t1, m w = (r1, w1, t1) -> rows_opened t1 = 1)
  end.
  { intros r1 w1 t1 E. apply bind_run in E.
    destruct E as [(u & w2 & ta & tb & E1 & E2 & ->)|(e & E1 & ->)];
      apply call_run in E1; destruct E1 as [-> _]; [|reflexivity].
    rewrite rows_opened_app.
    rewrite (@rows_opened_kinds
               [Wait; Probe; Act; Note; Pause; LoginReport; Timer; Save;
                Capture; Navigation] tb); [reflexivity | reflexivity|].
    eapply always_run; [apply (K u) | exact E2]. }
  apply try_except_run in H.
  destruct H as [(a & E & _)|[(e & E & _)|(e & w1 & t1 & t2 & E & _ & H & ->)]];
    apply Body in E; try exact E.
  inversion H; subst. now rewrite app_nil_r.
Qed.

Lemma recover_opens_nothing url w r w' tr :
  recover B url w = (r, w', tr) -> rows_opened tr = 0.
Proof.
  intros H. apply rows_opened_kinds with (ks := [Navigation; Wait]);
    [reflexivity|].
  eapply always_run; [apply recover_kinds | exact H].
Qed.

Lemma process_results_trail page slug url results : forall lo acc w r w' tr,
  process_results B page results slug url acc w = (r, w', tr) ->
  increasing_from lo (map index results) ->
  rows_opened tr <= length results
  /\ forall acc', r = Ok acc' ->
       exists new,
         snd acc' = snd acc ++ new /\ increasing_from lo (map ordinal_of new).
Proof.
  induction results as [|result results IH]; intros lo acc w r w' tr H Inc;
    cbn [process_results] in H.
  - inversion H; subst. split; [cbn; lia|].
    intros acc' E. injection E as <-. exists []. now rewrite app_nil_r.
  - cbn [map increasing_from] in Inc. destruct Inc as [Lo Inc].
    assert (Cont : forall pre acc1 w1 r1 w2 t1,
              process_results B page results slug url acc1 w1 = (r1, w2, t1) ->
              rows_opened pre <= 1 ->
              (snd acc1 = snd acc
               \/ exists g, snd acc1
                            = snd acc ++ [final_filename (index result) slug g]) ->
              rows_opened (pre ++ t1) <= length (result :: results)
              /\ forall acc', r1 = Ok acc' ->
                   exists new,
                     snd acc' = snd acc ++ new
                     /\ increasing_from lo (map ordinal_of new)).
    { intros pre acc1 w1 r1 w2 t1 E Pre Acc.
      apply (IH (S (index result))) in E; [|exact Inc].
      destruct E as [Ro Names]. split.
      - rewrite rows_opened_app. cbn [length]. lia.
      - intros acc' Er. destruct (Names _ Er) as (new & En & In').
        destruct Acc as [Acc|[g Acc]]; rewrite Acc in En.
        + exists new. split; [exact En|].
          apply increasing_from_weaken with (S (index result)); [lia | exact In'].
        + exists (final_filename (index result) slug g :: new).
          split; [now rewrite En, <- app_assoc|].
          cbn [map increasing_from]. rewrite ordinal_of_final_filename.
          split; [exact Lo | exact In']. }
    assert (Rec : forall pre acc1 w1 r1 w2 t1,
              (recover B url ;;;
               process_results B page results slug url acc1) w1 = (r1, w2, t1) ->
              rows_opened pre <= 1 ->
              (snd acc1 = snd acc
               \/ exists g, snd acc1
                            = snd acc ++ [final_filename (index result) slug g]) ->
              rows_opened (pre ++ t1) <= length (result :: results)
              /\ forall acc', r1 = Ok acc' ->
                   exists new,
                     snd acc' = snd acc ++ new
                     /\ increasing_from lo (map ordinal_of new)).
    { intros pre acc1 w1 r1 w2 t1 E Pre Acc. apply bind_run in E.
      destruct E as [(u & w3 & t3 & t4 & E1 & E2 & ->)|(e & E1 & _)].
      - rewrite app_assoc. apply Cont with (acc1 := acc1) (w1 := w3) (w2 := w2);
          [exact E2| |exact Acc].
        rewrite rows_opened_app. apply recover_opens_nothing in E1. lia.
      - apply recover_run in E1. discriminate E1. }
    assert (Stop : forall pre e,
              rows_opened pre <= 1 ->
              rows_opened (pre ++ []) <= length (result :: results)
              /\ forall acc', @Raise (nat * list pystr) e = Ok acc' ->
                   exists new,
                     snd acc' = snd acc ++ new
                     /\ increasing_from lo (map ordinal_of new)).
    { intros pre e Pre. rewrite app_nil_r. split; [cbn [length]; lia|].
      discriminate. }
    apply bind_run in H.
    destruct H as [(d & w1 & t1 & t2 & E1 & E2 & ->)|(e & E1 & _)].
    2:{ apply attempt_run in E1. destruct E1 as (? & F & _). discriminate F. }
    apply attempt_run in E1. destruct E1 as (d1 & Hd & E1).
    injection Hd as ->.
    pose proof (item_opens_one_row _ _ _ _ _ E1) as One.
    apply download_pdf_from_result_exact in E1. destruct E1 as [Name _].
    destruct d1 as [fn|e].
    + set (acc' := match fn with
                   | Some name =>
                       if truthy fn then (S (fst acc), snd acc ++ [name]) else acc
                   | None => acc
                   end) in *.
      assert (Acc : snd acc' = snd acc
                    \/ exists g, snd acc'
                                 = snd acc ++ [final_filename (index result) slug g]).
      { unfold acc'. destruct fn as [name|]; [|now left].
        destruct (truthy (Some name)); [|now left].
        destruct Name as (dl & pre & -> & _). right.
        now exists (suggested_filename dl). }
      apply bind_run in E2.
      destruct E2 as [(p & w3 & t3 & t4 & E3 & E4 & ->)|(e & E3 & _)].
      2:{ apply attempt_run in E3. destruct E3 as (? & F & _). discriminate F. }
      apply attempt_run in E3. destruct E3 as (p1 & Hp & E3).
      injection Hp as ->. apply call_run in E3. destruct E3 as [-> _].
      assert (Pre : rows_opened (t1 ++ [Ev (WaitForTimeout 1000%N) p1]) <= 1).
      { rewrite rows_opened_app, One. cbn. lia. }
      rewrite app_assoc.
      destruct p1 as [u|e].
      * eapply Cont; [exact E4 | exact Pre | exact Acc].
      * destruct (is_exception e).
        -- eapply Rec; [exact E4 | exact Pre | exact Acc].
        -- inversion E4; subst. now apply Stop.
    + destruct (is_exception e).
      * eapply Rec; [exact E2 | lia | now left].
      * inversion E2; subst. apply Stop. lia.
Qed.

Lemma increasing_from_lower lo l :
  increasing_from lo l -> Forall (fun x => lo <= x) l.
Proof.
  revert lo. induction l as [|x l IH]; intros lo; cbn; [constructor|].
  intros [L H]. constructor; [exact L|].
  apply IH in H. eapply Forall_impl; [|exact H]. cbv beta. intros; lia.
Qed.

Lemma increasing_from_firstn k : forall lo l,
  increasing_from lo l -> increasing_from lo (firstn k l).
Proof.
  induction k as [|k IH]; intros lo [|x l]; cbn; auto.
  intros [L H]. split; [exact L | now apply IH].
Qed.

Lemma increasing_NoDup {A} (f : A -> nat) l : forall lo,
  increasing_from lo (map f l) -> NoDup l.
Proof.
  induction l as [|x l IH]; intros lo; cbn; [constructor|].
  intros [L H]. constructor; [|now apply IH in H].
  intros X. apply increasing_from_lower in H.
  rewrite Forall_forall in H. specialize (H (f x) (in_map f _ _ X)). lia.
Qed.

Lemma get_search_results_increasing w results w' tr :
  get_search_results B w = (Ok results, w', tr) ->
  increasing_from 1 (map index results).
Proof.
  intros H. unfold get_search_results in H. apply try_except_run in H.
  destruct H as [(a & E & Ea)|[(e & _ & F & _)|(e & w1 & t1 & t2 & _ & _ & H & _)]];
    [|discriminate F|inversion H; subst; exact I].
  injection Ea as <-.
  apply bind_run in E.
  destruct E as [(u & w2 & t2 & t3 & _ & E2 & _)|(e & _ & F)]; [|discriminate F].
  apply bind_run in E2.
  destruct E2 as [(rows & w3 & t4 & t5 & _ & E3 & _)|(e & _ & F)];
    [|discriminate F].
  apply collect_rows_records in E3. destruct E3 as (new & E3 & Inc & _).
  injection E3 as ->. exact Inc.
Qed.

(** ** A whole session and a whole run *)

Lemma run_session_trail self page query w r w' tr :
  run_session B quote self page query w = (r, w', tr) ->
  rows_opened tr <= results_found tr
  /\ (forall l, limit self = Some l -> (0 < l)%Z ->
        (Z.of_nat (rows_opened tr) <= l)%Z)
  /\ (forall rr, r = Ok rr -> increasing_from 1 (map ordinal_of (files rr))).
Proof.
  intros H. unfold run_session in H.
  assert (None0 : forall t, rows_opened t = 0 ->
            rows_opened t <= results_found t
            /\ (forall l, limit self = Some l -> (0 < l)%Z ->
                  (Z.of_nat (rows_opened t) <= l)%Z)).
  { intros t ->. split; [lia | intros; lia]. }
  apply bind_run in H.
  destruct H as [(found & w1 & t1 & t2 & E1 & H & ->)|(e & E1 & ->)].
  2:{ destruct (None0 tr) as [N1 N2].
      - apply rows_opened_kinds with (ks := [Navigation; Wait]); [reflexivity|].
        eapply always_run; [apply perform_search_kinds | exact E1].
      - split; [exact N1|]. split; [exact N2 | discriminate]. }
  assert (R1 : rows_opened t1 = 0).
  { apply rows_opened_kinds with (ks := [Navigation; Wait]); [reflexivity|].
    eapply always_run; [apply perform_search_kinds | exact E1]. }
  destruct found; cbn [negb] in H.
  2:{ inversion H; subst. rewrite app_nil_r.
      destruct (None0 t1 R1) as [N1 N2].
      split; [exact N1|]. split; [exact N2|].
      intros rr E. injection E as <-. exact I. }
  apply bind_run in H.
  destruct H as [(url & w2 & t3 & t4 & E2 & H & ->)|(e & E2 & _)];
    [|discriminate E2].
  inversion E2; subst. clear E2. cbn [app].
  apply bind_run in H.
  destruct H as [(results & w3 & t5 & t6 & E3 & H & ->)|(e & E3 & ->)].
  2:{ destruct (None0 (t1 ++ t4)) as [N1 N2].
      - rewrite rows_opened_app, R1.
        apply rows_opened_kinds with (ks := [Enumeration]); [reflexivity|].
        eapply always_run; [apply get_search_results_kinds | exact E3].
      - split; [exact N1|]. split; [exact N2 | discriminate]. }
  assert (R5 : rows_opened t5 = 0).
  { apply rows_opened_kinds with (ks := [Enumeration]); [reflexivity|].
    eapply always_run; [apply get_search_results_kinds | exact E3]. }
  assert (Inc : increasing_from 1 (map index results))
    by (eapply get_search_results_increasing; exact E3).
  apply get_search_results_run in E3. rename E3 into Found.
  destruct results as [|r0 results'].
  { inversion H; subst. rewrite app_nil_r.
    destruct (None0 (t1 ++ t5)) as [N1 N2].
    - now rewrite rows_opened_app, R1.
    - split; [exact N1|]. split; [exact N2|].
      intros rr E. injection E as <-. exact I. }
  set (results := r0 :: results') in *.
  destruct (apply_limit_length (limit self) results) as [L1 L2].
  destruct (apply_limit_firstn (limit self) results) as [k Ek].
  apply bind_run in H.
  assert (Inc' : increasing_from 1 (map index (apply_limit (limit self) results))).
  { rewrite Ek, <- firstn_map. now apply increasing_from_firstn. }
  assert (Items : forall r1 w4 t7,
            process_results B page (apply_limit (limit self) results)
              (create_query_slug query) (page_url B w2) (0, []) w3
            = (r1, w4, t7) ->
            forall rest, rows_opened rest = 0 ->
            rows_opened (t1 ++ t5 ++ t7 ++ rest)
            <= results_found (t1 ++ t5 ++ t7 ++ rest)
            /\ (forall l, limit self = Some l -> (0 < l)%Z ->
                  (Z.of_nat (rows_opened (t1 ++ t5 ++ t7 ++ rest)) <= l)%Z)).
  { intros r1 w4 t7 E rest Rr.
    apply (process_results_trail _ _ _ _ 1) in E; [|exact Inc'].
    destruct E as [Ro _].
    rewrite !rows_opened_app, !results_found_app, R1, R5, Rr.
    split; [lia|]. intros l El Pl. specialize (L2 l El Pl). lia. }
  destruct H as [(acc & w4 & t7 & t8 & E4 & H & ->)|(e & E4 & ->)].
  2:{ destruct (Items _ _ _ E4 [] eq_refl) as [N1 N2].
      rewrite app_nil_r in N1, N2.
      split; [exact N1|]. split; [exact N2 | discriminate]. }
  apply bind_run in H.
  destruct H as [(u & w5 & t9 & t10 & E5 & H & ->)|(e & E5 & ->)];
    apply save_session_run in E5; destruct E5 as (rs & -> & _).
  + inversion H; subst. rewrite app_nil_r.
    destruct (Items _ _ _ E4 [Ev StorageState rs] eq_refl) as [N1 N2].
    split; [exact N1|]. split; [exact N2|].
    intros rr E. injection E as <-. cbn [files].
    apply (process_results_trail _ _ _ _ 1) in E4; [|exact Inc'].
    destruct E4 as [_ Names]. destruct (Names _ eq_refl) as (new & -> & In').
    exact In'.
  + destruct (Items _ _ _ E4 [Ev StorageState rs] eq_refl) as [N1 N2].
    split; [exact N1|]. split; [exact N2 | discriminate].
Qed.

(** ** Limit 0 *)

Lemma init_run today headless download_dir lim w r w' tr :
  init B today headless download_dir lim w = (r, w', tr) ->
  let dir := match download_dir with
             | Some d => d
             | None => py "Boulder_PDFs_" ++ today
             end in
  exists rm,
    exec B (Mkdir dir) w = (rm, w')
    /\ tr = [Ev (Mkdir dir) rm]
    /\ r = match rm with
           | Ok _ =>
               Ok ({| headless := headless; download_dir := dir;
                      limit := lim |},
                   match lim with
                   | Some l => negb (l =? 0)%Z
                   | None => false
                   end)
           | Raise e => Raise e
           end.
Proof.
  intros H dir. unfold init in H. fold dir in H.
  apply bind_run in H.
  destruct H as [(u & w1 & t1 & t2 & E1 & E2 & ->)|(e & E1 & ->)];
    apply call_run in E1; destruct E1 as [-> E1].
  - inversion E2; subst. exists (Ok u). now repeat split.
  - exists (Raise e). now repeat split.
Qed.


Lemma clicked_kind e a : clicked_row e = Some a -> kind_of e = Open.
Proof. destruct e as [A x r| |]; [destruct x|..]; cbn; congruence. Qed.

Lemma accepted_kind e a : accepted_row e = Some a -> kind_of e = Enumeration.
Proof.
  unfold accepted_row. destruct (row_found e) eqn:X; [|discriminate].
  intros _. now apply row_found_kind.
Qed.

Lemma pick_kinds {A} (f : event -> option A) k ks tr :
  (forall e a, f e = Some a -> kind_of e = k) ->
  has_kind ks k = false -> Forall (of_kinds ks) tr -> pick f tr = [].
Proof.
  intros Hf Hk. induction 1 as [|e tr K _ IH]; cbn; [reflexivity|].
  destruct (f e) eqn:X; [|exact IH].
  apply Hf in X. unfold of_kinds in K. congruence.
Qed.

Lemma kept_rows_accepted tr : forall i,
  map row_element (rows_kept i tr) = pick accepted_row tr.
Proof.
  induction tr as [|e tr IH]; intros i; [reflexivity|].
  cbn [rows_kept pick]. unfold accepted_row at 1.
  destruct e as [A a r| |]; [destruct a|..];
    cbn [asked_row kept_row row_found]; try apply IH.
  destruct r as [[[|c content]|]|e]; try apply IH.
  cbv zeta.
  destruct (10 <? length (strip is_space (c :: content)));
    cbn [map row_element]; now rewrite IH.
Qed.

Lemma item_clicks_its_row page result slug url w r w' tr :
  download_pdf_from_result B page result slug url w = (r, w', tr) ->
  pick clicked_row tr = [row_element result].
Proof.
  intros H. unfold download_pdf_from_result in H.
  match type of H with
  | context [bind (call B (RowClick _)) ?k] =>
      assert (K : forall u,
                always (of_kinds [Wait; Probe; Act; Note; Pause; LoginReport;
                                  Timer; Save; Capture; Navigation]) (k u))
  end.
  { intros u. cbv beta.
    of_kinds_with ltac:(from_kinds (@ensure_authenticated_kinds)
                        || from_kinds (@save_session_kinds)). }
  match type of H with
  | try_except _ ?m _ _ = _ =>
      assert (Body : forall r1 w1 t1,
                m w = (r1, w1, t1) ->
                pick clicked_row t1 = [row_element result])
  end.
  { intros r1 w1 t1 E. apply bind_run in E.
    destruct E as [(u & w2 & ta & tb & E1 & E2 & ->)|(e & E1 & ->)];
      apply call_run in E1; destruct E1 as [-> _]; [|reflexivity].
    rewrite pick_app.
    rewrite (@pick_kinds _ clicked_row Open
               [Wait; Probe; Act; Note; Pause; LoginReport; Timer; Save;
                Capture; Navigation] tb);
      [reflexivity | exact clicked_kind | reflexivity|].
    eapply always_run; [apply (K u) | exact E2]. }
  apply try_except_run in H.
  destruct H as [(a & E & _)|[(e & E & _)|(e & w1 & t1 & t2 & E & _ & H & ->)]];
    apply Body in E; try exact E.
  inversion H; subst. now rewrite app_nil_r.
Qed.

Lemma process_results_clicks page slug url results : forall acc w r w' tr,
  process_results B page results slug url acc w = (r, w', tr) ->
  forall acc', r = Ok acc' ->
  pick clicked_row tr = map row_element results.
Proof.
  induction results as [|result results IH]; intros acc w r w' tr H acc' R;
    cbn [process_results] in H.
  - now inversion H.
  - assert (Quiet : forall url0 w1 r1 w2 t1,
              recover B url0 w1 = (r1, w2, t1) -> pick clicked_row t1 = []).
    { intros url0 w1 r1 w2 t1 E.
      apply pick_kinds with (k := Open) (ks := [Navigation; Wait]);
        [exact clicked_kind | reflexivity|].
      eapply always_run; [apply recover_kinds | exact E]. }
    assert (Rec : forall pre acc1 w1 t1,
              (recover B url ;;;
               process_results B page results slug url acc1) w1 = (r, w', t1) ->
              pick clicked_row pre = [row_element result] ->
              pick clicked_row (pre ++ t1) = map row_element (result :: results)).
    { intros pre acc1 w1 t1 E Pre. apply bind_run in E.
      destruct E as [(u & w3 & t3 & t4 & E1 & E2 & ->)|(e & E1 & _)].
      - rewrite !pick_app, Pre, (Quiet _ _ _ _ _ E1).
        cbn [app map]. f_equal. exact (IH _ _ _ _ _ E2 _ R).
      - apply recover_run in E1. discriminate E1. }
    apply bind_run in H.
    destruct H as [(d & w1 & t1 & t2 & E1 & E2 & ->)|(e & E1 & _)].
    2:{ apply attempt_run in E1. destruct E1 as (? & F & _). discriminate F. }
    apply attempt_run in E1. destruct E1 as (d1 & Hd & E1).
    injection Hd as ->.
    apply item_clicks_its_row in E1.
    destruct d1 as [fn|e].
    + apply bind_run in E2.
      destruct E2 as [(p & w3 & t3 & t4 & E3 & E4 & ->)|(e & E3 & _)].
      2:{ apply attempt_run in E3. destruct E3 as (? & F & _). discriminate F. }
      apply attempt_run in E3. destruct E3 as (p1 & Hp & E3).
      injection Hp as ->. apply call_run in E3. destruct E3 as [-> _].
      assert (Pre : pick clicked_row (t1 ++ [Ev (WaitForTimeout 1000%N) p1])
                    = [row_element result])
        by (rewrite pick_app, E1; reflexivity).
      rewrite app_assoc.
      destruct p1 as [u|e].
      * rewrite pick_app, Pre. cbn [app map]. f_equal.
        exact (IH _ _ _ _ _ E4 _ R).
      * destruct (is_exception e).
        -- eapply Rec; [exact E4 | exact Pre].
        -- inversion E4; congruence.
    + destruct (is_exception e).
      * eapply Rec; [exact E2 | exact E1].
      * inversion E2; congruence.
Qed.

Lemma run_session_clicks self page query w rr w' tr :
  run_session B quote self page query w = (Ok rr, w', tr) ->
  limit self = Some 0%Z \/ limit self = None ->
  pick clicked_row tr = pick accepted_row tr.
Proof.
  intros H L. unfold run_session in H.
  apply bind_run in H.
  destruct H as [(found & w1 & t1 & t2 & E1 & H & ->)|(e & _ & F)];
    [|discriminate F].
  assert (K1 : Forall (of_kinds [Navigation; Wait]) t1)
    by (eapply always_run; [apply perform_search_kinds | exact E1]).
  assert (C1 : pick clicked_row t1 = [])
    by (apply pick_kinds with (k := Open) (ks := [Navigation; Wait]);
        [exact clicked_kind | reflexivity | exact K1]).
  assert (A1 : pick accepted_row t1 = [])
    by (apply pick_kinds with (k := Enumeration) (ks := [Navigation; Wait]);
        [exact accepted_kind | reflexivity | exact K1]).
  rewrite !pick_app, C1, A1. cbn [app].
  destruct found; cbn [negb] in H; [|now inversion H].
  apply bind_run in H.
  destruct H as [(url & w2 & t3 & t4 & E2 & H & ->)|(e & E2 & _)];
    [|discriminate E2].
  inversion E2; subst. clear E2. cbn [app].
  apply bind_run in H.
  destruct H as [(results & w3 & t5 & t6 & E3 & H & ->)|(e & _ & F)];
    [|discriminate F].
  assert (K5 : Forall (of_kinds [Enumeration]) t5)
    by (eapply always_run; [apply get_search_results_kinds | exact E3]).
  assert (C5 : pick clicked_row t5 = [])
    by (apply pick_kinds with (k := Open) (ks := [Enumeration]);
        [exact clicked_kind | reflexivity | exact K5]).
  assert (A5 : pick accepted_row t5 = map row_element results).
  { unfold get_search_results in E3. apply try_except_run in E3.
    destruct E3 as [(a & E & Ea)|[(e & _ & F & _)|(e & w4 & t7 & t8 & E & _ & Hh & ->)]];
      [|discriminate F|].
    - injection Ea as <-. apply bind_run in E.
      destruct E as [(u & w4 & t7 & t8 & E1' & E2' & ->)|(e & _ & F)];
        [|discriminate F].
      apply call_run in E1'. destruct E1' as [-> _].
      apply bind_run in E2'.
      destruct E2' as [(rows & w5 & t9 & t10 & E2' & E3' & ->)|(e & _ & F)];
        [|discriminate F].
      apply call_run in E2'. destruct E2' as [-> _].
      apply collect_rows_exact in E3'. destruct E3' as [X _].
      injection X as ->. rewrite !pick_app. cbn [pick app].
      change (accepted_row (Ev (WaitForSelector tr_has_td 10000%N) (Ok u)))
        with (@None nat).
      change (accepted_row (Ev (LocatorAll tr_has_td) (Ok rows)))
        with (@None nat).
      cbn [app]. symmetry. apply kept_rows_accepted.
    - inversion Hh; subst. rewrite app_nil_r. cbn [map].
      apply bind_run in E.
      destruct E as [(u & w5 & t9 & t10 & E1' & E2' & ->)|(e0 & E1' & _)];
        apply call_run in E1'; destruct E1' as [-> _]; [|reflexivity].
      apply bind_run in E2'.
      destruct E2' as [(rows & w6 & t11 & t12 & E2' & E3' & _)|(e0 & E2' & _)];
        apply call_run in E2'; destruct E2' as [-> _]; [|reflexivity].
      apply collect_rows_exact in E3'. destruct E3' as [F _]. discriminate F. }
  rewrite !pick_app, C5, A5. cbn [app].
  destruct results as [|r0 results'].
  { inversion H; subst. reflexivity. }
  set (results := r0 :: results') in *.
  assert (Lim : apply_limit (limit self) results = results).
  { destruct L as [L|L]; rewrite L; reflexivity. }
  rewrite Lim in H.
  apply bind_run in H.
  destruct H as [(acc & w4 & t7 & t8 & E4 & H & ->)|(e & _ & F)];
    [|discriminate F].
  assert (K7 : Forall (of_kinds item_kinds) t7)
    by (eapply always_run; [apply process_results_kinds | exact E4]).
  assert (A7 : pick accepted_row t7 = [])
    by (apply pick_kinds with (k := Enumeration) (ks := item_kinds);
        [exact accepted_kind | reflexivity | exact K7]).
  apply process_results_clicks with (acc' := acc) in E4; [|reflexivity].
  apply bind_run in H.
  destruct H as [(u & w5 & t9 & t10 & E5 & H & ->)|(e & _ & F)];
    [|discriminate F].
  apply save_session_run in E5. destruct E5 as (rs & -> & _).
  inversion H; subst. rewrite !pick_app, E4, A7. cbn.
  now rewrite !app_nil_r.
Qed.

(** C10: a downloader constructed with limit 0 is the one constructed
    without a limit, but for the value of its limit, and neither prints
    the TEST MODE line; the two behave alike on every query; the
    truncation is skipped; and every result that the enumeration accepted
    is processed: in a run that returns, the rows opened are the rows
    accepted, in their order. *)
Theorem limit_zero_is_no_limit today headless download_dir query
    w0 self0 printed0 w1 t1 :
  init B today headless download_dir (Some 0%Z) w0
  = (Ok (self0, printed0), w1, t1) ->
  limit self0 = Some 0%Z
  /\ printed0 = false
  /\ (exists selfN,
        init B today headless download_dir None w0 = (Ok (selfN, false), w1, t1)
        /\ limit selfN = None
        /\ forall w, download_all_pdfs B quote self0 query w
                     = download_all_pdfs B quote selfN query w)
  /\ (forall results : list ResultRow,
        apply_limit (limit self0) results = results)
  /\ (forall w rr w' tr,
        download_all_pdfs B quote self0 query w = (Ok rr, w', tr) ->
        pick clicked_row tr = pick accepted_row tr).
Proof.
  intros H.
  assert (S0 : self0 = {| headless := headless;
                          download_dir :=
                            match download_dir with
                            | Some d => d
                            | None => py "Boulder_PDFs_" ++ today
                            end;
                          limit := Some 0%Z |} /\ printed0 = false
               /\ exists u, exec B (Mkdir match download_dir with
                                          | Some d => d
                                          | None => py "Boulder_PDFs_" ++ today
                                          end) w0 = (Ok u, w1)
                            /\ t1 = [Ev (Mkdir match download_dir with
                                               | Some d => d
                                               | None => py "Boulder_PDFs_" ++ today
                                               end) (Ok u)]).
  { apply init_run in H. cbv zeta in H. destruct H as (rm & X & -> & R).
    destruct rm as [u|e]; [|discriminate R]. injection R as R1 R2.
    subst self0 printed0.
    split; [reflexivity|]. split; [reflexivity|]. now exists u. }
  destruct S0 as (-> & -> & u & X & ->).
  split; [reflexivity|]. split; [reflexivity|]. split.
  { eexists. split; [|split].
    - unfold init, bind, call, ret. rewrite X. cbn [app]. reflexivity.
    - reflexivity.
    - intros w. reflexivity. }
  split; [reflexivity|].
  intros w rr w' tr R. apply download_all_pdfs_run in R.
  destruct R as [(e & E & R)|(page & w2 & ts & rs & w3 & t2 & rc & Es & E & -> & R)].
  - assert (K : Forall (of_kinds [Setup]) tr)
      by (eapply always_run; [apply setup_browser_kinds | exact E]).
    rewrite (@pick_kinds _ clicked_row Open [Setup] tr);
      [|exact clicked_kind | reflexivity | exact K].
    rewrite (@pick_kinds _ accepted_row Enumeration [Setup] tr);
      [reflexivity | exact accepted_kind | reflexivity | exact K].
  - assert (K : Forall (of_kinds [Setup]) ts)
      by (eapply always_run; [apply setup_browser_kinds | exact Es]).
    rewrite !pick_app.
    rewrite (@pick_kinds _ clicked_row Open [Setup] ts);
      [|exact clicked_kind | reflexivity | exact K].
    rewrite (@pick_kinds _ accepted_row Enumeration [Setup] ts);
      [|exact accepted_kind | reflexivity | exact K].
    cbn. rewrite !app_nil_r.
    destruct rc as [uc|ec]; [|discriminate R].
    destruct rs as [rr'|e].
    + eapply run_session_clicks; [exact E | now left].
    + apply run_session_run in E. destruct E as (_ & body & rest & _ & _ & _ & _ & E).
      subst e. discriminate R.
Qed.

Lemma setup_browser_page w r w' tr :
  setup_browser B w = (r, w', tr) ->
  existsb page_opened tr = match r with Ok _ => true | Raise _ => false end.
Proof.
  intros H. unfold setup_browser in H.
  assert (L : always (fun e => page_opened e = false)
                (try_except is_exception (call B LaunchChrome)
                   (fun _ => call B LaunchChromium)))
    by (repeat step_with ltac:(reflexivity) idtac).
  apply bind_run in H.
  destruct H as [(u & w0 & t0 & t1 & E0 & H & ->)|(e & E0 & ->)];
    apply call_run in E0; destruct E0 as [-> _]; [|reflexivity].
  apply bind_run in H.
  destruct H as [(u1 & w1 & t2 & t3 & E1 & H & ->)|(e & E1 & ->)].
  2:{ cbn. apply existsb_none. eapply always_run; [exact L | exact E1]. }
  assert (P2 : existsb page_opened t2 = false)
    by (apply existsb_none; eapply always_run; [exact L | exact E1]).
  apply bind_run in H.
  destruct H as [(st & w2 & t4 & t5 & E2 & H & ->)|(e & E2 & _)];
    [|discriminate E2].
  inversion E2; subst. clear E2.
  apply bind_run in H.
  destruct H as [(u3 & w3 & t6 & t7 & E3 & H & ->)|(e & E3 & ->)];
    apply call_run in E3; destruct E3 as [-> _].
  - apply call_run in H. destruct H as [-> _].
    cbn. rewrite existsb_app, P2. cbn. now destruct r.
  - cbn. rewrite existsb_app, P2. reflexivity.
Qed.

(** X13: the names a run returns carry ordinals that increase strictly, in
    the order of the results on the page; so no two of them are equal, and
    no capture of a run that is reported overwrites another one that is
    reported. *)
Theorem returned_names_in_page_order self query w rr w' tr :
  download_all_pdfs B quote self query w = (Ok rr, w', tr) ->
  increasing_from 1 (map ordinal_of (files rr)) /\ NoDup (files rr).
Proof.
  intros H.
  assert (Inc : increasing_from 1 (map ordinal_of (files rr))).
  { apply download_all_pdfs_run in H.
    destruct H as [(e & _ & R)|(page & w1 & ts & rs & w2 & t2 & rc & _ & E & _ & R)].
    - cbn in R. destruct (is_exception e); [|discriminate R].
      injection R as ->. exact I.
    - destruct rc as [u|e]; [|discriminate R].
      apply run_session_trail in E. destruct E as (_ & _ & Names).
      destruct rs as [rr'|e]; cbn in R.
      + injection R as ->. now apply Names.
      + destruct (is_exception e); [|discriminate R].
        injection R as ->. exact I. }
  split; [exact Inc | exact (increasing_NoDup _ _ _ Inc)].
Qed.

(** X14: a run opens no more rows than the enumeration found, and with a
    positive limit no more than the limit: the limit bounds the work done,
    not only the number of files reported. *)
Theorem rows_opened_within_limit self query w r w' tr :
  download_all_pdfs B quote self query w = (r, w', tr) ->
  rows_opened tr <= results_found tr
  /\ (forall l, limit self = Some l -> (0 < l)%Z ->
        (Z.of_nat (rows_opened tr) <= l)%Z).
Proof.
  intros H. apply download_all_pdfs_run in H.
  destruct H as [(e & E & _)|(page & w1 & ts & rs & w2 & t2 & rc & Es & E & -> & _)].
  - assert (R : rows_opened tr = 0).
    { apply rows_opened_kinds with (ks := [Setup]); [reflexivity|].
      eapply always_run; [apply setup_browser_kinds | exact E]. }
    rewrite R. split; [lia | intros; lia].
  - assert (R : rows_opened ts = 0).
    { apply rows_opened_kinds with (ks := [Setup]); [reflexivity|].
      eapply always_run; [apply setup_browser_kinds | exact Es]. }
    apply run_session_trail in E. destruct E as (N1 & N2 & _).
    rewrite !rows_opened_app, !results_found_app, R. cbn.
    split; [lia|]. intros l El Pl. specialize (N2 l El Pl). lia.
Qed.

(** X15: [download_all_pdfs] closes the browser exactly when the set-up gave
    a page: then the close is the last call of the run and the only close;
    when the set-up fails before the page is opened, nothing is closed. *)
Theorem browser_closed_when_opened self query w r w' tr :
  download_all_pdfs B quote self query w = (r, w', tr) ->
  if existsb page_opened tr
  then exists pre rc,
         tr = pre ++ [Ev BrowserClose rc] /\ existsb is_close pre = false
  else existsb is_close tr = false.
Proof.
  intros H. apply download_all_pdfs_run in H.
  destruct H as [(e & E & _)|(page & w1 & ts & rs & w2 & t2 & rc & Es & E & -> & _)].
  - rewrite (setup_browser_page _ E).
    apply existsb_none.
    apply Forall_excludes with (k := Close) (ks := [Setup]);
      [exact close_kind | reflexivity|].
    eapply always_run; [apply setup_browser_kinds | exact E].
  - rewrite existsb_app, (setup_browser_page _ Es). cbn [orb].
    exists (ts ++ t2), rc. split; [now rewrite app_assoc|].
    rewrite existsb_app. apply orb_false_iff. split; apply existsb_none.
    + apply Forall_excludes with (k := Close) (ks := [Setup]);
        [exact close_kind | reflexivity|].
      eapply always_run; [apply setup_browser_kinds | exact Es].
    + apply Forall_excludes with (k := Close) (ks := Enumeration :: item_kinds);
        [exact close_kind | reflexivity|].
      apply run_session_run in E. now destruct E.
Qed.


(** ** The command line *)


End Further.

(** * The simulated portal: instances, counterexamples and defects *)

(** ** The affordance check *)

Lemma affordance_check_witness :
  outcome (_is_authenticated Sim.browser Sim.the_page (Sim.signed_out None))
  = Ok false
  /\ map probed
       (events (_is_authenticated Sim.browser Sim.the_page (Sim.signed_out None)))
     = [Some (OnPage 0); Some (OnFrame 1)].
Proof.
  split; [reflexivity|].
  pose proof (@affordance_check_scans_page_and_frames _ Sim.browser Sim.the_page
                (Sim.signed_out None) _ _ _ eq_refl) as [_ [_ H]].
  exact (H _ eq_refl eq_refl).
Defined.

(** C2, as stated, fails: a download button that is visible only in a popup
    window of the session is not seen, because the check never looks at the
    popup. *)
Lemma popup_affordance_not_scanned :
  In (OnPage 1) (all_contexts Sim.browser Sim.the_page Sim.button_in_popup)
  /\ fst (exec Sim.browser (IsVisible (OnPage 1) role_download_first)
            Sim.button_in_popup) = Ok true
  /\ outcome (_is_authenticated Sim.browser Sim.the_page Sim.button_in_popup)
     = Ok false
  /\ ~ In (Some (OnPage 1))
         (map probed
            (events (_is_authenticated Sim.browser Sim.the_page
                       Sim.button_in_popup))).
Proof.
  repeat split; try reflexivity.
  - cbn. auto.
  - cbn. intros [H|[H|[]]]; discriminate.
Qed.

(** ** The short circuit and the time-out *)



Lemma single_timeout_guard_witness :
  existsb affordance_seen
    (events (ensure_authenticated Sim.browser Sim.the_page 30 (Sim.signed_out None)))
  = false
  /\ existsb login_form_seen
       (events (ensure_authenticated Sim.browser Sim.the_page 30 (Sim.signed_out None)))
     = false
  /\ (outcome (ensure_authenticated Sim.browser Sim.the_page 30 (Sim.signed_out None))
      = Ok (false, false)
      \/ outcome (ensure_authenticated Sim.browser Sim.the_page 30
                    (Sim.signed_out None)) = Raise CancelledError
         /\ timer_fired Sim.browser
              (final_state (ensure_authenticated Sim.browser Sim.the_page 30
                              (Sim.signed_out None))) = false)
  /\ total_sleep
       (events (ensure_authenticated Sim.browser Sim.the_page 30 (Sim.signed_out None)))
     = 12.
Proof.
  split; [reflexivity|]. split; [reflexivity|]. split; [|reflexivity].
  destruct (@single_timeout_guard _ Sim.browser Sim.the_page 30
              (Sim.signed_out None) _ _ _ eq_refl) as [H _].
  apply H; reflexivity.
Defined.

(** C3, as stated, fails: when the count of a login selector in the primary
    document fails with an error of the browser, the invocation has seen
    neither the affordance nor a login form, and it raises that error
    instead of returning [(False, False)].  A cancellation of the task from
    outside leaves the invocation as a cancellation. *)
Lemma browser_error_escapes_the_guard :
  (let run := ensure_authenticated Sim.failing_count Sim.the_page 30
                (Sim.signed_out None) in
   existsb affordance_seen (events run) = false
   /\ existsb login_form_seen (events run) = false
   /\ events run
      = [EvWaitFor 30;
         Ev (IsVisible (OnPage 0) role_download_first) (Ok false);
         Ev (IsVisible (OnFrame 1) role_download_first) (Ok false);
         Ev (Count (OnPage 0) input_type_password) (Raise Error)]
   /\ outcome run = Raise Error
   /\ outcome run <> Ok (false, false))
  /\ (let s := Sim.set_state (Sim.signed_out None) true false false false
                 (Some 0) in
      let run := ensure_authenticated Sim.cancelled_from_outside Sim.the_page
                   30 s in
      existsb affordance_seen (events run) = false
      /\ existsb login_form_seen (events run) = false
      /\ outcome run = Raise CancelledError).
Proof.
  split; cbv zeta; repeat split; try reflexivity. discriminate.
Qed.

(** The timer of [wait_for] may also end the invocation: here it fires
    during the third sleep. *)
Example timer_cuts_the_loop :
  let s := Sim.set_state (Sim.signed_out None) true false false false (Some 2) in
  outcome (ensure_authenticated Sim.browser Sim.the_page 30 s) = Ok (false, false)
  /\ total_sleep (events (ensure_authenticated Sim.browser Sim.the_page 30 s)) = 6.
Proof. split; reflexivity. Qed.

(** ** Context affinity *)

(** C1 fails on the code.  With the login form only in frame 1, the engine
    sees the form through [_has_login_forms], which looks into the frames,
    but [_handle_login] takes that same answer for a form of the main page:
    the user name goes into an e-mail box of the primary document, whose
    submit button is pressed, nothing is typed or pressed in the frame, and
    the login never succeeds.  With the form only in a popup, which
    [_has_login_forms] does not scan, nothing is typed anywhere. *)
Theorem frame_login_filled_in_primary_document :
  (forall l, In l login_selectors ->
     fst (exec Sim.browser (Count (OnPage 0) l) Sim.widget_in_frame) = Ok 0)
  /\ fst (exec Sim.browser (Count (OnFrame 1) input_type_password)
            Sim.widget_in_frame) = Ok 1
  /\ (let run := ensure_authenticated Sim.browser Sim.the_page 30
                   Sim.widget_in_frame in
      outcome run = Ok (false, false)
      /\ firstn 9 (skipn 13 (events run))
         = [Ev (Count (OnFrame 1) input_type_password) (Ok 1);
            EvLog LogFoundLoginFormOnMainPage;
            EvLog (LogFillingLoginForm (OnPage 0));
            Ev (IsVisible (OnPage 0) input_type_email) (Ok true);
            Ev (Fill (OnPage 0) input_type_email the_username) (Ok tt);
            Ev (IsVisible (OnPage 0) input_type_password) (Ok false);
            Ev (IsVisible (OnPage 0) input_name_password) (Ok false);
            Ev (IsVisible (OnPage 0) button_type_submit) (Ok true);
            Ev (Click (OnPage 0) button_type_submit) (Ok tt)]
      /\ existsb (is_action_on (OnPage 0)) (events run) = true
      /\ existsb (is_action_on (OnFrame 1)) (events run) = false)
  /\ (let run := ensure_authenticated Sim.browser Sim.the_page 30
                   (Sim.signed_out (Some (OnPage 1))) in
      fst (exec Sim.browser (Count (OnPage 1) input_type_password)
             (Sim.signed_out (Some (OnPage 1)))) = Ok 1
      /\ outcome run = Ok (false, false)
      /\ existsb is_login_action (events run) = false).
Proof.
  split; [|split; [reflexivity|split]].
  - intros l [<-|[<-|[<-|[<-|[]]]]]; reflexivity.
  - cbv zeta. repeat split; reflexivity.
  - cbv zeta. repeat split; reflexivity.
Qed.

(** ** Recovery navigation *)

(** C4 fails on the code.  Two results, a session that is logged in, detail
    views without a free download: the first item fails for want of the
    download button, and what follows is the pause between items and the
    click on the second row, on a page that still shows the first detail
    view; the results URL is never loaded again.  The same happens when the
    first item fails in authentication.  The run itself goes on to its
    end. *)
Theorem failed_item_skips_recovery :
  (let run := Sim.run None (Sim.fresh Sim.two_deeds true None false false) in
   outcome run = Ok empty_result
   /\ skipn 11 (events run)
      = [Ev (RowClick 1) (Ok tt);
         Ev (WaitForTimeout 3000) (Ok tt);
         EvWaitFor 30;
         Ev (IsVisible (OnPage 0) role_download_first) (Ok true);
         EvLog LogAlreadyAuthenticated;
         Ev (IsVisible (OnPage 0) role_download_free) (Ok false);
         Ev (WaitForTimeout 1000) (Ok tt);
         Ev (RowClick 2) (Raise Error);
         Ev (WaitForTimeout 1000) (Ok tt);
         Ev StorageState (Ok tt);
         Ev BrowserClose (Ok tt)]
   /\ existsb is_goto (skipn 6 (events run)) = false)
  /\ (let run := Sim.run None (Sim.fresh Sim.two_deeds false None true false) in
      outcome run = Ok empty_result
      /\ In (EvLog (LogAuthenticationTimedOut 30)) (events run)
      /\ firstn 5 (rev (events run))
         = [Ev BrowserClose (Ok tt);
            Ev StorageState (Ok tt);
            Ev (WaitForTimeout 1000) (Ok tt);
            Ev (RowClick 2) (Raise Error);
            Ev (WaitForTimeout 1000) (Ok tt)]
      /\ existsb is_goto (skipn 6 (events run)) = false).
Proof.
  split; cbv zeta; repeat split; try reflexivity.
  apply in_rev. vm_compute. tauto.
Qed.

(** With a free download on offer the same two results are both captured,
    each followed by a load of the results URL. *)
Example successful_items_return_to_results :
  let run := Sim.run None (Sim.fresh Sim.two_deeds true None true false) in
  outcome run
  = Ok {| count := 2;
          files := [py "01_Lot_7__deed_7.pdf"; py "02_Lot_7__deed_7.pdf"] |}
  /\ length (filter is_goto (skipn 6 (events run))) = 2.
Proof. split; reflexivity. Qed.

(** ** The run result *)


(** With a limit of 0 both results of the table of two deeds are opened,
    as without a limit. *)
Lemma limit_zero_is_no_limit_witness :
  pick accepted_row
    (events (Sim.run (Some 0%Z)
               (Sim.fresh Sim.two_deeds true None true false))) = [1; 2]
  /\ pick clicked_row
       (events (Sim.run (Some 0%Z)
                  (Sim.fresh Sim.two_deeds true None true false)))
     = pick accepted_row
         (events (Sim.run (Some 0%Z)
                    (Sim.fresh Sim.two_deeds true None true false))).
Proof.
  split; [reflexivity|].
  pose proof (@limit_zero_is_no_limit _ Sim.browser (fun q => q)
                (py "2024-05-01") true (Some (py "out")) (py "Lot 7")
                (Sim.fresh Sim.two_deeds true None true false)
                _ _ _ _ eq_refl) as H.
  exact (proj2 (proj2 (proj2 (proj2 H)))
           (Sim.fresh Sim.two_deeds true None true false) _ _ _ eq_refl).
Defined.


(** The closing of the browser is outside every handler: when it fails,
    the run raises. *)
Example close_failure_escapes :
  let s := Sim.fresh Sim.two_deeds true None true false in
  let s := {| Sim.detail := false; Sim.logged_in := true;
              Sim.typed_username := false; Sim.typed_password := false;
              Sim.login_widget := None; Sim.download_at := OnPage 0;
              Sim.free_button := true; Sim.main_email_box := false;
              Sim.rows := Sim.rows s; Sim.frames := [1]; Sim.popups := [];
              Sim.search_fails := false; Sim.close_fails := true;
              Sim.timer := None |} in
  outcome (Sim.run None s) = Raise Error.
Proof. reflexivity. Qed.

(** ** Session saves *)

(** C7, as stated, fails: a run whose search fails, and a run that finds no
    rows, end without writing the session state. *)
Lemma early_return_skips_final_save :
  (let run := Sim.run None (Sim.fresh Sim.two_deeds true None true true) in
   outcome run = Ok empty_result /\ existsb is_save (events run) = false)
  /\ (let run := Sim.run None (Sim.fresh [] true None true false) in
      outcome run = Ok empty_result /\ existsb is_save (events run) = false).
Proof. repeat split. Qed.

Lemma session_saved_witness :
  let run := Sim.run None
               (Sim.fresh Sim.two_deeds false (Some (OnPage 0)) true false) in
  exists body rest,
    events run = body ++ rest /\ checkpointed body /\ rest <> [].
Proof.
  cbv zeta.
  destruct (@session_saved_after_login_and_at_end _ Sim.browser (fun q => q)
              (Sim.downloader None) (py "Lot 7")
              (Sim.fresh Sim.two_deeds false (Some (OnPage 0)) true false)
              _ _ _ eq_refl)
    as (body & rest & E & C & _ & _ & N).
  exists body, rest. split; [exact E|]. split; [exact C|].
  apply (N _ eq_refl). vm_compute. lia.
Defined.

(** In that run the first item logs in: the session is written right after
    the report of the login, and once more before the browser closes. *)
Example login_run_saves_twice :
  let run := Sim.run None
               (Sim.fresh Sim.two_deeds false (Some (OnPage 0)) true false) in
  firstn 2 (skipn 29 (events run))
  = [EvLog LogAuthenticationSuccessful; Ev StorageState (Ok tt)]
  /\ firstn 2 (rev (events run))
     = [Ev BrowserClose (Ok tt); Ev StorageState (Ok tt)]
  /\ length (filter is_save (events run)) = 2.
Proof. repeat split. Qed.

(** ** Instances of the further properties *)

Lemma enumeration_keeps_document_order_witness :
  match outcome (get_search_results Sim.browser
                   (Sim.fresh gap_table true None true false)) with
  | Ok results =>
      results = [ {| index := 2; text := py "Warranty deed 1";
                     row_element := 2 |};
                  {| index := 3; text := py "Warranty deed 2";
                     row_element := 3 |} ]
      /\ results
         = rows_kept 1
             (events (get_search_results Sim.browser
                        (Sim.fresh gap_table true None true false)))
      /\ increasing_from 1 (map index results)
  | Raise _ => False
  end.
Proof.
  split; [reflexivity|].
  pose proof (@enumeration_keeps_document_order _ Sim.browser
                (Sim.fresh gap_table true None true false) _ _ _ eq_refl) as H.
  exact (conj (proj1 H) (proj1 (proj2 (proj2 H)))).
Defined.


Lemma setup_falls_back_to_chromium_witness :
  In (Ev LaunchChromium (Ok tt))
    (events (setup_browser Sim.browser
               (Sim.fresh Sim.two_deeds true None true false)))
  /\ exists e,
       In (Ev LaunchChrome (Raise e))
         (events (setup_browser Sim.browser
                    (Sim.fresh Sim.two_deeds true None true false)))
       /\ is_exception e = true.
Proof.
  assert (H : In (Ev LaunchChromium (Ok tt))
                (events (setup_browser Sim.browser
                           (Sim.fresh Sim.two_deeds true None true false))))
    by (right; right; left; reflexivity).
  split; [exact H|].
  exact (proj1 (@setup_falls_back_to_chromium _ Sim.browser false
                  (Sim.fresh Sim.two_deeds true None true false) _ _ _
                  (fun _ => eq_refl) eq_refl) _ H).
Defined.

Lemma login_form_check_witness :
  Forall (fun e => login_form_probe Sim.the_page e = true)
    (events (_has_login_forms Sim.browser Sim.the_page
               (Sim.signed_out (Some (OnFrame 1)))))
  /\ outcome (_has_login_forms Sim.browser Sim.the_page
                (Sim.signed_out (Some (OnFrame 1)))) = Ok true.
Proof.
  split; [|reflexivity].
  exact (proj1 (@login_form_check_scans_page_and_frames _ Sim.browser
                  Sim.the_page (Sim.signed_out (Some (OnFrame 1))) _ _ _
                  eq_refl)).
Defined.

Lemma login_form_filled_witness :
  outcome (_fill_login_form Sim.browser (OnPage 0)
             (Sim.signed_out (Some (OnPage 0)))) = Ok tt
  /\ length (filter (typed the_password)
               (events (_fill_login_form Sim.browser (OnPage 0)
                          (Sim.signed_out (Some (OnPage 0)))))) = 1.
Proof.
  split; [|reflexivity].
  exact (proj1 (@login_form_filled_at_most_once _ Sim.browser (OnPage 0)
                  (Sim.signed_out (Some (OnPage 0))) _ _ _ eq_refl)).
Defined.

Lemma authentication_verdict_witness :
  outcome (ensure_authenticated Sim.browser Sim.the_page 30
             (Sim.signed_out (Some (OnPage 0)))) = Ok (true, true)
  /\ backed true
       (events (ensure_authenticated Sim.browser Sim.the_page 30
                  (Sim.signed_out (Some (OnPage 0))))).
Proof.
  split; [reflexivity|].
  exact (proj2 (@authentication_verdict_is_backed _ Sim.browser Sim.the_page 30
                  (Sim.signed_out (Some (OnPage 0))) _ _ _ eq_refl)).
Defined.

Lemma credentials_only_after_login_form_witness :
  existsb is_login_action
    (events (ensure_authenticated Sim.browser Sim.the_page 30
               (Sim.signed_out (Some (OnPage 0))))) = true
  /\ only_after login_form_seen is_login_action
       (events (ensure_authenticated Sim.browser Sim.the_page 30
                  (Sim.signed_out (Some (OnPage 0))))) = true.
Proof.
  split; [reflexivity|].
  exact (@credentials_only_after_login_form _ Sim.browser Sim.the_page 30
           (Sim.signed_out (Some (OnPage 0))) _ _ _ eq_refl).
Defined.

Lemma file_name_returned_witness :
  outcome (download_pdf_from_result Sim.browser Sim.the_page first_deed
             (py "Lot_7") (py "results")
             (Sim.fresh Sim.two_deeds true None true false))
  = Ok (Some (py "01_Lot_7__deed_7.pdf"))
  /\ exists d pre,
       events (download_pdf_from_result Sim.browser Sim.the_page first_deed
                 (py "Lot_7") (py "results")
                 (Sim.fresh Sim.two_deeds true None true false))
       = pre ++ [Ev AwaitDownload (Ok d);
                 Ev (SaveAs d (py "01_Lot_7__deed_7.pdf")) (Ok tt);
                 Ev (Goto (py "results")) (Ok tt);
                 Ev (WaitForTimeout 2000%N) (Ok tt)].
Proof.
  split; [reflexivity|].
  destruct (proj1 (@file_name_returned_only_when_stored _ Sim.browser
                     Sim.the_page first_deed (py "Lot_7") (py "results")
                     (Sim.fresh Sim.two_deeds true None true false)
                     _ _ _ eq_refl))
    as (d & pre & _ & E & _).
  exists d, pre. exact E.
Defined.

Lemma returned_names_witness :
  outcome (Sim.run None (Sim.fresh Sim.two_deeds true None true false))
  = Ok both_deeds_stored
  /\ NoDup (files both_deeds_stored).
Proof.
  split; [reflexivity|].
  exact (proj2 (@returned_names_in_page_order _ Sim.browser (fun q => q)
                  (Sim.downloader None) (py "Lot 7")
                  (Sim.fresh Sim.two_deeds true None true false)
                  both_deeds_stored _ _ eq_refl)).
Defined.

Lemma rows_opened_within_limit_witness :
  results_found
    (events (Sim.run (Some 1%Z) (Sim.fresh Sim.two_deeds true None true false)))
  = 2
  /\ (Z.of_nat
        (rows_opened
           (events (Sim.run (Some 1%Z)
                      (Sim.fresh Sim.two_deeds true None true false))))
      <= 1)%Z.
Proof.
  split; [reflexivity|].
  apply (proj2 (@rows_opened_within_limit _ Sim.browser (fun q => q)
                  (Sim.downloader (Some 1%Z)) (py "Lot 7")
                  (Sim.fresh Sim.two_deeds true None true false)
                  _ _ _ eq_refl));
    [reflexivity | lia].
Defined.

Lemma browser_closed_witness :
  exists pre rc,
    events (Sim.run None (Sim.fresh Sim.two_deeds true None true false))
    = pre ++ [Ev BrowserClose rc]
    /\ existsb is_close pre = false.
Proof.
  exact (@browser_closed_when_opened _ Sim.browser (fun q => q)
           (Sim.downloader None) (py "Lot 7")
           (Sim.fresh Sim.two_deeds true None true false) _ _ _ eq_refl).
Defined.

Lemma handle_login_witness :
  outcome (_handle_login Sim.browser Sim.the_page Sim.widget_in_frame)
  = Ok true
  /\ exists t pre post w0,
       events (_handle_login Sim.browser Sim.the_page Sim.widget_in_frame)
       = pre ++ post
       /\ login_context Sim.the_page pre t
       /\ existsb is_login_action pre = false
       /\ existsb is_filling pre = false
       /\ _fill_login_form Sim.browser t w0
          = (Ok tt,
             final_state (_handle_login Sim.browser Sim.the_page
                            Sim.widget_in_frame),
             post)
       /\ Forall (form_step t) post
       /\ length (filter (typed the_username) post) <= 1
       /\ length (filter (typed the_password) post) <= 1
       /\ length (filter pressed post) <= 1.
Proof.
  split; [reflexivity|].
  exact (@handle_login_fills_one_form _ Sim.browser Sim.the_page
           Sim.widget_in_frame _ _ _ eq_refl).
Defined.

Lemma at_most_six_login_attempts_witness :
  filler_entries
    (events (ensure_authenticated Sim.browser Sim.the_page 30
               Sim.widget_in_frame)) = 6
  /\ (filler_entries
        (events (ensure_authenticated Sim.browser Sim.the_page 30
                   Sim.widget_in_frame)) <= 6
      /\ length (filter (typed the_username)
                   (events (ensure_authenticated Sim.browser Sim.the_page 30
                              Sim.widget_in_frame))) <= 6
      /\ length (filter (typed the_password)
                   (events (ensure_authenticated Sim.browser Sim.the_page 30
                              Sim.widget_in_frame))) <= 6
      /\ length (filter pressed
                   (events (ensure_authenticated Sim.browser Sim.the_page 30
                              Sim.widget_in_frame))) <= 6).
Proof.
  split; [reflexivity|].
  exact (@at_most_six_login_attempts _ Sim.browser Sim.the_page 30
           Sim.widget_in_frame _ _ _ eq_refl).
Defined.


(** When the download directory cannot be created, the error of the
    constructor leaves [main] before any browser is started. *)
Example constructor_error_leaves_main :
  outcome (main Sim.failing_mkdir (fun q => q) (py "2024-05-01") (py "Lot 7")
             false None None (Sim.fresh Sim.two_deeds true None true false))
  = Raise Error
  /\ events (main Sim.failing_mkdir (fun q => q) (py "2024-05-01")
               (py "Lot 7") false None None
               (Sim.fresh Sim.two_deeds true None true false))
     = [Ev (Mkdir (py "Boulder_PDFs_2024-05-01")) (Raise Error)].
Proof. split; reflexivity. Qed.
